(** * Combat AI core: behaviour tree, combat entity, tactical soldier, boss

    A shallow embedding of the decision/state layer of the game
    (BehaviorTree.ts, AICharacter.ts, Enemy/Soldier.ts, Boss/BossBase.ts,
    Boss/Trainer.ts) and the properties of it that the design document
    states.

    Conventions of the embedding.
    - A JavaScript [number] is an exact rational ([Q]); where the code uses
      [Infinity] the model uses [QInf] or an [option].  Rounding of IEEE
      doubles is not modelled: an operation of the code returns what the
      model computes when that is a binary64 number ([Num.binary64]) and a
      neighbour of it otherwise, and a property whose conclusion rounding
      can change assumes that the values it goes through are binary64
      numbers.  A division by zero, which gives [NaN] or an infinity in
      JavaScript, is not modelled either: the properties that divide
      assume a positive divisor.
    - The three.js vector library, [Math.atan2], [Math.PI], [Math.random]
      and [Date.now] are not part of the repository.  The vector and
      trigonometric functions are fields of the class [Runtime]; every
      theorem holds for every instance.  [Date.now()] is an argument
      [now] of the operation that reads the clock (one reading per call),
      and [Math.random()] is the stream [Math_random], consumed through a
      counter kept in the state.
    - Observer callbacks (on-damage, on-death, on-state-change) are
      observers: a pass over a callback list appends one entry to the
      entity's [log], carrying what a callback reading the entity would
      see at that moment.  Boss events, phase hooks and the [console.log]
      calls that announce a shot or a grenade are logged the same way.
    - A subclass is a record with the entity it extends in its [base]
      field.  A method that the base class calls through [this] and a
      subclass overrides is an argument of the base method
      ([takeDamage_via]). *)

From Stdlib Require Import Floats.
From Stdlib Require Import QArith Qminmax Qround Qabs Lqa Lia ZArith List Bool String.
Import ListNotations.

Open Scope Q_scope.

(** ** Numbers *)

Module Num.

(** [a < b] and [a <= b] on JavaScript numbers, as booleans. *)
Definition ltb (a b : Q) : bool := negb (Qle_bool b a).
Definition leb (a b : Q) : bool := Qle_bool a b.
Definition gtb (a b : Q) : bool := ltb b a.
Definition geb (a b : Q) : bool := leb b a.

(** A number that may be [Infinity]. *)
Inductive QInf := Finite (q : Q) | Infinity.

Definition inf_ltb (a b : QInf) : bool :=
  match a, b with
  | Finite p, Finite q => ltb p q
  | Finite _, Infinity => true
  | Infinity, _ => false
  end.
Definition inf_gtb (a b : QInf) : bool := inf_ltb b a.

(** The finite numbers of IEEE 754 binary64, the format of a JavaScript
    number: [m * 2^e] with [|m| < 2^53] and [-1074 <= e <= 971].  The
    arithmetic of the code is correctly rounded, so an operation whose
    exact result is such a number returns that result. *)
Definition binary64 (q : Q) : Prop :=
  exists m e : Z,
    (Z.abs m < 2 ^ 53)%Z /\ (-1074 <= e <= 971)%Z
    /\ q == inject_Z m * 2 ^ e.

End Num.

Import Num.

(** ** The runtime the code is written against *)

Record Vector3 := vec3 { v_x : Q; v_y : Q; v_z : Q }.
Record Euler := euler { e_x : Q; e_y : Q; e_z : Q }.

(** A scene object, as far as this code reads it: a name and a position. *)
Record Object3D := { obj_name : string; obj_position : Vector3 }.

Definition zero3 : Vector3 := vec3 0 0 0.

(** [new Vector3().subVectors(a, b)], [a.add(b)], [a.multiplyScalar(k)],
    [a.negate()]: componentwise, hence exact. *)
Definition subVectors (a b : Vector3) : Vector3 :=
  vec3 (v_x a - v_x b) (v_y a - v_y b) (v_z a - v_z b).
Definition addV (a b : Vector3) : Vector3 :=
  vec3 (v_x a + v_x b) (v_y a + v_y b) (v_z a + v_z b).
Definition multiplyScalar (a : Vector3) (k : Q) : Vector3 :=
  vec3 (v_x a * k) (v_y a * k) (v_z a * k).
Definition negate (a : Vector3) : Vector3 :=
  vec3 (- v_x a) (- v_y a) (- v_z a).
Definition set_y (a : Vector3) (k : Q) : Vector3 := vec3 (v_x a) k (v_z a).

Class Runtime := {
  v3_length : Vector3 -> Q;                 (* v.length() *)
  v3_normalize : Vector3 -> Vector3;        (* v.normalize() *)
  v3_distanceTo : Vector3 -> Vector3 -> Q;  (* a.distanceTo(b) *)
  v3_angleTo : Vector3 -> Vector3 -> Q;     (* a.angleTo(b) *)
  v3_applyEuler : Vector3 -> Euler -> Vector3;
  MathUtils_lerp : Q -> Q -> Q -> Q;
  Math_atan2 : Q -> Q -> Q;
  Math_PI : Q;
  Math_random : nat -> Q                    (* the n-th draw of Math.random() *)
}.

(** ** BehaviorTree.ts *)

Module BT.

Inductive NodeStatus := RUNNING | SUCCESS | FAILURE.

Inductive DecoratorType :=
  INVERTER | REPEATER | TIMEOUT | SUCCESS_RATE | FAILURE_RATE.

Section Nodes.

(** [W] is everything a leaf can reach through the context object it
    is handed: the context itself, the entity [ctx.self], and whatever
    its closure captured.  A leaf is a JavaScript function of that
    mutable object: a condition returns a boolean, an action a status,
    and either may leave the world changed. *)
Context {W : Type}.

Definition ConditionFn := W -> W * bool.
Definition ActionFn := W -> W * NodeStatus.

#[warnings="-register-all"]
Inductive BTNode :=
  | BTSequence (name : string) (children : list BTNode)
  | BTSelector (name : string) (children : list BTNode)
  | BTCondition (name : string) (condition : ConditionFn)
  | BTAction (name : string) (action : ActionFn)
  | BTDecorator (name : string) (decoratorType : DecoratorType)
    (child : BTNode) (params : list (string * Q)).

(** [node.execute(context)].  [BTAction.lastStatus] only caches the
    status that is returned and is read by nothing; it is not kept. *)
Fixpoint execute (n : BTNode) (w : W) : W * NodeStatus :=
  match n with
  | BTSequence _ children =>
      (fix each (cs : list BTNode) (w : W) : W * NodeStatus :=
         match cs with
         | [] => (w, SUCCESS)
         | child :: rest =>
             let (w', result) := execute child w in
             match result with
             | FAILURE => (w', FAILURE)
             | RUNNING => (w', RUNNING)
             | SUCCESS => each rest w'
             end
         end) children w
  | BTSelector _ children =>
      (fix each (cs : list BTNode) (w : W) : W * NodeStatus :=
         match cs with
         | [] => (w, FAILURE)
         | child :: rest =>
             let (w', result) := execute child w in
             match result with
             | SUCCESS => (w', SUCCESS)
             | RUNNING => (w', RUNNING)
             | FAILURE => each rest w'
             end
         end) children w
  | BTCondition _ condition =>
      let (w', holds) := condition w in
      (w', if holds then SUCCESS else FAILURE)
  | BTAction _ action => action w
  | BTDecorator _ decoratorType child _ =>
      let (w', result) := execute child w in
      match decoratorType with
      | INVERTER =>
          (w', match result with
               | SUCCESS => FAILURE
               | FAILURE => SUCCESS
               | RUNNING => result
               end)
      | SUCCESS_RATE => (w', SUCCESS)
      | FAILURE_RATE => (w', FAILURE)
      | _ => (w', result)
      end
  end.

(** [BehaviorTree.update]: the root is run unless the stored context says
    the owner is dead ([contextIsAlive] reads [context.isAlive]).
    [BehaviorTree.lastStatus] caches the returned status. *)
Definition update (contextIsAlive : W -> bool) (root : BTNode) (w : W)
  : W * NodeStatus :=
  if negb (contextIsAlive w) then (w, FAILURE) else execute root w.

End Nodes.

Arguments BTNode : clear implicits.

(** A call-counting stub: an action that bumps a counter and reports a
    fixed status. *)
Definition countingStub (st : NodeStatus) : BTNode nat :=
  BTAction "stub" (fun n => (S n, st)).

End BT.

(** ** AICharacter.ts *)

Module AI.

Import BT.

Inductive AICharacterType := GRUNT | SOLDIER | HEAVY | BOMBER | BOSS.

Inductive AIState :=
  IDLE | PATROL | CHASE | ATTACK | RETREAT | COVER | DEAD | STUNNED.

Scheme Equality for AICharacterType.
Scheme Equality for AIState.

Record PerceptionData := {
  hasLineOfSight : bool;
  distanceToTarget : QInf;
  lastSeenTime : Q;
  hearingRange : Q;
  viewAngle : Q;
  viewDistance : Q
}.

Record MovementConfig := {
  walkSpeed : Q;
  runSpeed : Q;
  patrolSpeed : Q;
  rotationSpeed : Q;
  acceleration : Q;
  deceleration : Q;
  minDistance : Q;
  maxDistance : Q;
  retreatDistance : Q
}.

(** [Partial<PerceptionData>]: every field may be absent. *)
Record PartialPerception := {
  opt_hasLineOfSight : option bool;
  opt_distanceToTarget : option QInf;
  opt_lastSeenTime : option Q;
  opt_hearingRange : option Q;
  opt_viewAngle : option Q;
  opt_viewDistance : option Q
}.

Record AIConfig := {
  cfg_type : AICharacterType;
  cfg_health : Q;
  cfg_armor : Q;
  cfg_damage : Q;
  cfg_movement : MovementConfig;
  cfg_perception : PartialPerception;
  cfg_patrolPoints : option (list Vector3);
  cfg_coverSpots : option (list Vector3)
}.

(** What an observer reading the entity sees when it is called. *)
Record Seen := {
  seen_health : Q;
  seen_maxHealth : Q;
  seen_armor : Q;
  seen_state : AIState;
  seen_isAlive : bool;
  seen_velocity : Vector3
}.

(** One entry per pass over a callback list, per boss event or phase hook,
    and per announced attack. *)
Inductive Event :=
| DamageCallbacks (amount : Q) (source : option Object3D) (at_call : Seen)
| DeathCallbacks (at_call : Seen)
| StateChangeCallbacks (newState oldState : AIState) (at_call : Seen)
| AttackAnnounced
| GrenadeAnnounced (targetPos : Vector3)
| PhaseExitHook (phaseIndex : Z)
| PhaseEnterHook (phaseIndex : Z)
| PhaseChangeEvent (phaseIndex : Z) (phaseName : string)
| EnrageEvent
| SpecialAttackEvent (attackName : string)
| DefeatEvent (at_call : Seen).

(** The entity.  [mesh] is [Some r] once a mesh is attached, [r] being
    [mesh.rotation.y]; [setMesh] makes [this.position] the mesh's own
    position vector, so the two are one store, kept in [position].
    [behaviorTree] is assigned in the constructor and not reassigned by this
    class; [update] runs the tree of [createEnemyBehaviorTree]. *)
Record AICharacter := {
  id : string;
  name : string;
  characterType : AICharacterType;
  mesh : option Q;
  position : Vector3;
  rotation : Euler;
  velocity : Vector3;
  targetPosition : Vector3;
  health : Q;
  maxHealth : Q;
  armor : Q;
  damage : Q;
  state : AIState;
  previousState : AIState;
  isAlive : bool;
  isStunned : bool;
  stunTime : Q;
  target : option Object3D;
  lastKnownTargetPosition : Vector3;
  movementConfig : MovementConfig;
  perception : PerceptionData;
  patrolPoints : list Vector3;
  currentPatrolIndex : Z;
  patrolWaitTime : Q;
  patrolDirection : Z;
  coverSpots : list Vector3;
  currentCoverSpot : option Vector3;
  coverTimer : Q;
  attackCooldown : Q;
  attackRate : Q;
  lastAttackTime : Q;
  log : list Event
}.

(** Field updates ([this.f = v]). *)
Definition set_characterType (v : AICharacterType) (e : AICharacter) : AICharacter :=
  Build_AICharacter (id e) (name e) v (mesh e) (position e) (rotation e)
    (velocity e) (targetPosition e) (health e) (maxHealth e) (armor e)
    (damage e) (state e) (previousState e) (isAlive e) (isStunned e)
    (stunTime e) (target e) (lastKnownTargetPosition e) (movementConfig e)
    (perception e) (patrolPoints e) (currentPatrolIndex e)
    (patrolWaitTime e) (patrolDirection e) (coverSpots e)
    (currentCoverSpot e) (coverTimer e) (attackCooldown e) (attackRate e)
    (lastAttackTime e) (log e).
Definition set_mesh (v : option Q) (e : AICharacter) : AICharacter :=
  Build_AICharacter (id e) (name e) (characterType e) v (position e)
    (rotation e) (velocity e) (targetPosition e) (health e) (maxHealth e)
    (armor e) (damage e) (state e) (previousState e) (isAlive e)
    (isStunned e) (stunTime e) (target e) (lastKnownTargetPosition e)
    (movementConfig e) (perception e) (patrolPoints e)
    (currentPatrolIndex e) (patrolWaitTime e) (patrolDirection e)
    (coverSpots e) (currentCoverSpot e) (coverTimer e) (attackCooldown e)
    (attackRate e) (lastAttackTime e) (log e).
Definition set_position (v : Vector3) (e : AICharacter) : AICharacter :=
  Build_AICharacter (id e) (name e) (characterType e) (mesh e) v
    (rotation e) (velocity e) (targetPosition e) (health e) (maxHealth e)
    (armor e) (damage e) (state e) (previousState e) (isAlive e)
    (isStunned e) (stunTime e) (target e) (lastKnownTargetPosition e)
    (movementConfig e) (perception e) (patrolPoints e)
    (currentPatrolIndex e) (patrolWaitTime e) (patrolDirection e)
    (coverSpots e) (currentCoverSpot e) (coverTimer e) (attackCooldown e)
    (attackRate e) (lastAttackTime e) (log e).
Definition set_rotation (v : Euler) (e : AICharacter) : AICharacter :=
  Build_AICharacter (id e) (name e) (characterType e) (mesh e) (position e)
    v (velocity e) (targetPosition e) (health e) (maxHealth e) (armor e)
    (damage e) (state e) (previousState e) (isAlive e) (isStunned e)
    (stunTime e) (target e) (lastKnownTargetPosition e) (movementConfig e)
    (perception e) (patrolPoints e) (currentPatrolIndex e)
    (patrolWaitTime e) (patrolDirection e) (coverSpots e)
    (currentCoverSpot e) (coverTimer e) (attackCooldown e) (attackRate e)
    (lastAttackTime e) (log e).
Definition set_velocity (v : Vector3) (e : AICharacter) : AICharacter :=
  Build_AICharacter (id e) (name e) (characterType e) (mesh e) (position e)
    (rotation e) v (targetPosition e) (health e) (maxHealth e) (armor e)
    (damage e) (state e) (previousState e) (isAlive e) (isStunned e)
    (stunTime e) (target e) (lastKnownTargetPosition e) (movementConfig e)
    (perception e) (patrolPoints e) (currentPatrolIndex e)
    (patrolWaitTime e) (patrolDirection e) (coverSpots e)
    (currentCoverSpot e) (coverTimer e) (attackCooldown e) (attackRate e)
    (lastAttackTime e) (log e).
Definition set_health (v : Q) (e : AICharacter) : AICharacter :=
  Build_AICharacter (id e) (name e) (characterType e) (mesh e) (position e)
    (rotation e) (velocity e) (targetPosition e) v (maxHealth e) (armor e)
    (damage e) (state e) (previousState e) (isAlive e) (isStunned e)
    (stunTime e) (target e) (lastKnownTargetPosition e) (movementConfig e)
    (perception e) (patrolPoints e) (currentPatrolIndex e)
    (patrolWaitTime e) (patrolDirection e) (coverSpots e)
    (currentCoverSpot e) (coverTimer e) (attackCooldown e) (attackRate e)
    (lastAttackTime e) (log e).
Definition set_armor (v : Q) (e : AICharacter) : AICharacter :=
  Build_AICharacter (id e) (name e) (characterType e) (mesh e) (position e)
    (rotation e) (velocity e) (targetPosition e) (health e) (maxHealth e) v
    (damage e) (state e) (previousState e) (isAlive e) (isStunned e)
    (stunTime e) (target e) (lastKnownTargetPosition e) (movementConfig e)
    (perception e) (patrolPoints e) (currentPatrolIndex e)
    (patrolWaitTime e) (patrolDirection e) (coverSpots e)
    (currentCoverSpot e) (coverTimer e) (attackCooldown e) (attackRate e)
    (lastAttackTime e) (log e).
Definition set_damage (v : Q) (e : AICharacter) : AICharacter :=
  Build_AICharacter (id e) (name e) (characterType e) (mesh e) (position e)
    (rotation e) (velocity e) (targetPosition e) (health e) (maxHealth e)
    (armor e) v (state e) (previousState e) (isAlive e) (isStunned e)
    (stunTime e) (target e) (lastKnownTargetPosition e) (movementConfig e)
    (perception e) (patrolPoints e) (currentPatrolIndex e)
    (patrolWaitTime e) (patrolDirection e) (coverSpots e)
    (currentCoverSpot e) (coverTimer e) (attackCooldown e) (attackRate e)
    (lastAttackTime e) (log e).
Definition set_state (v : AIState) (e : AICharacter) : AICharacter :=
  Build_AICharacter (id e) (name e) (characterType e) (mesh e) (position e)
    (rotation e) (velocity e) (targetPosition e) (health e) (maxHealth e)
    (armor e) (damage e) v (previousState e) (isAlive e) (isStunned e)
    (stunTime e) (target e) (lastKnownTargetPosition e) (movementConfig e)
    (perception e) (patrolPoints e) (currentPatrolIndex e)
    (patrolWaitTime e) (patrolDirection e) (coverSpots e)
    (currentCoverSpot e) (coverTimer e) (attackCooldown e) (attackRate e)
    (lastAttackTime e) (log e).
Definition set_previousState (v : AIState) (e : AICharacter) : AICharacter :=
  Build_AICharacter (id e) (name e) (characterType e) (mesh e) (position e)
    (rotation e) (velocity e) (targetPosition e) (health e) (maxHealth e)
    (armor e) (damage e) (state e) v (isAlive e) (isStunned e) (stunTime e)
    (target e) (lastKnownTargetPosition e) (movementConfig e) (perception e)
    (patrolPoints e) (currentPatrolIndex e) (patrolWaitTime e)
    (patrolDirection e) (coverSpots e) (currentCoverSpot e) (coverTimer e)
    (attackCooldown e) (attackRate e) (lastAttackTime e) (log e).
Definition set_isAlive (v : bool) (e : AICharacter) : AICharacter :=
  Build_AICharacter (id e) (name e) (characterType e) (mesh e) (position e)
    (rotation e) (velocity e) (targetPosition e) (health e) (maxHealth e)
    (armor e) (damage e) (state e) (previousState e) v (isStunned e)
    (stunTime e) (target e) (lastKnownTargetPosition e) (movementConfig e)
    (perception e) (patrolPoints e) (currentPatrolIndex e)
    (patrolWaitTime e) (patrolDirection e) (coverSpots e)
    (currentCoverSpot e) (coverTimer e) (attackCooldown e) (attackRate e)
    (lastAttackTime e) (log e).
Definition set_isStunned (v : bool) (e : AICharacter) : AICharacter :=
  Build_AICharacter (id e) (name e) (characterType e) (mesh e) (position e)
    (rotation e) (velocity e) (targetPosition e) (health e) (maxHealth e)
    (armor e) (damage e) (state e) (previousState e) (isAlive e) v
    (stunTime e) (target e) (lastKnownTargetPosition e) (movementConfig e)
    (perception e) (patrolPoints e) (currentPatrolIndex e)
    (patrolWaitTime e) (patrolDirection e) (coverSpots e)
    (currentCoverSpot e) (coverTimer e) (attackCooldown e) (attackRate e)
    (lastAttackTime e) (log e).
Definition set_stunTime (v : Q) (e : AICharacter) : AICharacter :=
  Build_AICharacter (id e) (name e) (characterType e) (mesh e) (position e)
    (rotation e) (velocity e) (targetPosition e) (health e) (maxHealth e)
    (armor e) (damage e) (state e) (previousState e) (isAlive e)
    (isStunned e) v (target e) (lastKnownTargetPosition e)
    (movementConfig e) (perception e) (patrolPoints e)
    (currentPatrolIndex e) (patrolWaitTime e) (patrolDirection e)
    (coverSpots e) (currentCoverSpot e) (coverTimer e) (attackCooldown e)
    (attackRate e) (lastAttackTime e) (log e).
Definition set_target (v : option Object3D) (e : AICharacter) : AICharacter :=
  Build_AICharacter (id e) (name e) (characterType e) (mesh e) (position e)
    (rotation e) (velocity e) (targetPosition e) (health e) (maxHealth e)
    (armor e) (damage e) (state e) (previousState e) (isAlive e)
    (isStunned e) (stunTime e) v (lastKnownTargetPosition e)
    (movementConfig e) (perception e) (patrolPoints e)
    (currentPatrolIndex e) (patrolWaitTime e) (patrolDirection e)
    (coverSpots e) (currentCoverSpot e) (coverTimer e) (attackCooldown e)
    (attackRate e) (lastAttackTime e) (log e).
Definition set_lastKnownTargetPosition (v : Vector3) (e : AICharacter) : AICharacter :=
  Build_AICharacter (id e) (name e) (characterType e) (mesh e) (position e)
    (rotation e) (velocity e) (targetPosition e) (health e) (maxHealth e)
    (armor e) (damage e) (state e) (previousState e) (isAlive e)
    (isStunned e) (stunTime e) (target e) v (movementConfig e)
    (perception e) (patrolPoints e) (currentPatrolIndex e)
    (patrolWaitTime e) (patrolDirection e) (coverSpots e)
    (currentCoverSpot e) (coverTimer e) (attackCooldown e) (attackRate e)
    (lastAttackTime e) (log e).
Definition set_movementConfig (v : MovementConfig) (e : AICharacter) : AICharacter :=
  Build_AICharacter (id e) (name e) (characterType e) (mesh e) (position e)
    (rotation e) (velocity e) (targetPosition e) (health e) (maxHealth e)
    (armor e) (damage e) (state e) (previousState e) (isAlive e)
    (isStunned e) (stunTime e) (target e) (lastKnownTargetPosition e) v
    (perception e) (patrolPoints e) (currentPatrolIndex e)
    (patrolWaitTime e) (patrolDirection e) (coverSpots e)
    (currentCoverSpot e) (coverTimer e) (attackCooldown e) (attackRate e)
    (lastAttackTime e) (log e).
Definition set_perception (v : PerceptionData) (e : AICharacter) : AICharacter :=
  Build_AICharacter (id e) (name e) (characterType e) (mesh e) (position e)
    (rotation e) (velocity e) (targetPosition e) (health e) (maxHealth e)
    (armor e) (damage e) (state e) (previousState e) (isAlive e)
    (isStunned e) (stunTime e) (target e) (lastKnownTargetPosition e)
    (movementConfig e) v (patrolPoints e) (currentPatrolIndex e)
    (patrolWaitTime e) (patrolDirection e) (coverSpots e)
    (currentCoverSpot e) (coverTimer e) (attackCooldown e) (attackRate e)
    (lastAttackTime e) (log e).
Definition set_currentPatrolIndex (v : Z) (e : AICharacter) : AICharacter :=
  Build_AICharacter (id e) (name e) (characterType e) (mesh e) (position e)
    (rotation e) (velocity e) (targetPosition e) (health e) (maxHealth e)
    (armor e) (damage e) (state e) (previousState e) (isAlive e)
    (isStunned e) (stunTime e) (target e) (lastKnownTargetPosition e)
    (movementConfig e) (perception e) (patrolPoints e) v (patrolWaitTime e)
    (patrolDirection e) (coverSpots e) (currentCoverSpot e) (coverTimer e)
    (attackCooldown e) (attackRate e) (lastAttackTime e) (log e).
Definition set_patrolWaitTime (v : Q) (e : AICharacter) : AICharacter :=
  Build_AICharacter (id e) (name e) (characterType e) (mesh e) (position e)
    (rotation e) (velocity e) (targetPosition e) (health e) (maxHealth e)
    (armor e) (damage e) (state e) (previousState e) (isAlive e)
    (isStunned e) (stunTime e) (target e) (lastKnownTargetPosition e)
    (movementConfig e) (perception e) (patrolPoints e)
    (currentPatrolIndex e) v (patrolDirection e) (coverSpots e)
    (currentCoverSpot e) (coverTimer e) (attackCooldown e) (attackRate e)
    (lastAttackTime e) (log e).
Definition set_patrolDirection (v : Z) (e : AICharacter) : AICharacter :=
  Build_AICharacter (id e) (name e) (characterType e) (mesh e) (position e)
    (rotation e) (velocity e) (targetPosition e) (health e) (maxHealth e)
    (armor e) (damage e) (state e) (previousState e) (isAlive e)
    (isStunned e) (stunTime e) (target e) (lastKnownTargetPosition e)
    (movementConfig e) (perception e) (patrolPoints e)
    (currentPatrolIndex e) (patrolWaitTime e) v (coverSpots e)
    (currentCoverSpot e) (coverTimer e) (attackCooldown e) (attackRate e)
    (lastAttackTime e) (log e).
Definition set_coverSpots (v : list Vector3) (e : AICharacter) : AICharacter :=
  Build_AICharacter (id e) (name e) (characterType e) (mesh e) (position e)
    (rotation e) (velocity e) (targetPosition e) (health e) (maxHealth e)
    (armor e) (damage e) (state e) (previousState e) (isAlive e)
    (isStunned e) (stunTime e) (target e) (lastKnownTargetPosition e)
    (movementConfig e) (perception e) (patrolPoints e)
    (currentPatrolIndex e) (patrolWaitTime e) (patrolDirection e) v
    (currentCoverSpot e) (coverTimer e) (attackCooldown e) (attackRate e)
    (lastAttackTime e) (log e).
Definition set_currentCoverSpot (v : option Vector3) (e : AICharacter) : AICharacter :=
  Build_AICharacter (id e) (name e) (characterType e) (mesh e) (position e)
    (rotation e) (velocity e) (targetPosition e) (health e) (maxHealth e)
    (armor e) (damage e) (state e) (previousState e) (isAlive e)
    (isStunned e) (stunTime e) (target e) (lastKnownTargetPosition e)
    (movementConfig e) (perception e) (patrolPoints e)
    (currentPatrolIndex e) (patrolWaitTime e) (patrolDirection e)
    (coverSpots e) v (coverTimer e) (attackCooldown e) (attackRate e)
    (lastAttackTime e) (log e).
Definition set_coverTimer (v : Q) (e : AICharacter) : AICharacter :=
  Build_AICharacter (id e) (name e) (characterType e) (mesh e) (position e)
    (rotation e) (velocity e) (targetPosition e) (health e) (maxHealth e)
    (armor e) (damage e) (state e) (previousState e) (isAlive e)
    (isStunned e) (stunTime e) (target e) (lastKnownTargetPosition e)
    (movementConfig e) (perception e) (patrolPoints e)
    (currentPatrolIndex e) (patrolWaitTime e) (patrolDirection e)
    (coverSpots e) (currentCoverSpot e) v (attackCooldown e) (attackRate e)
    (lastAttackTime e) (log e).
Definition set_attackCooldown (v : Q) (e : AICharacter) : AICharacter :=
  Build_AICharacter (id e) (name e) (characterType e) (mesh e) (position e)
    (rotation e) (velocity e) (targetPosition e) (health e) (maxHealth e)
    (armor e) (damage e) (state e) (previousState e) (isAlive e)
    (isStunned e) (stunTime e) (target e) (lastKnownTargetPosition e)
    (movementConfig e) (perception e) (patrolPoints e)
    (currentPatrolIndex e) (patrolWaitTime e) (patrolDirection e)
    (coverSpots e) (currentCoverSpot e) (coverTimer e) v (attackRate e)
    (lastAttackTime e) (log e).
Definition set_lastAttackTime (v : Q) (e : AICharacter) : AICharacter :=
  Build_AICharacter (id e) (name e) (characterType e) (mesh e) (position e)
    (rotation e) (velocity e) (targetPosition e) (health e) (maxHealth e)
    (armor e) (damage e) (state e) (previousState e) (isAlive e)
    (isStunned e) (stunTime e) (target e) (lastKnownTargetPosition e)
    (movementConfig e) (perception e) (patrolPoints e)
    (currentPatrolIndex e) (patrolWaitTime e) (patrolDirection e)
    (coverSpots e) (currentCoverSpot e) (coverTimer e) (attackCooldown e)
    (attackRate e) v (log e).
Definition set_log (v : list Event) (e : AICharacter) : AICharacter :=
  Build_AICharacter (id e) (name e) (characterType e) (mesh e) (position e)
    (rotation e) (velocity e) (targetPosition e) (health e) (maxHealth e)
    (armor e) (damage e) (state e) (previousState e) (isAlive e)
    (isStunned e) (stunTime e) (target e) (lastKnownTargetPosition e)
    (movementConfig e) (perception e) (patrolPoints e)
    (currentPatrolIndex e) (patrolWaitTime e) (patrolDirection e)
    (coverSpots e) (currentCoverSpot e) (coverTimer e) (attackCooldown e)
    (attackRate e) (lastAttackTime e) v.

(** The snapshot handed to the tree each tick ([createBTContext]). *)
Record BTContext := {
  ctx_target : option Object3D;
  ctx_position : Vector3;
  ctx_rotation : Euler;
  ctx_velocity : Vector3;
  ctx_isAlive : bool;
  ctx_health : Q;
  ctx_maxHealth : Q;
  ctx_armor : Q;
  ctx_hasLineOfSight : bool;
  ctx_distanceToTarget : QInf;
  ctx_isInCover : bool;
  ctx_patrolPoints : list Vector3;
  ctx_currentPatrolIndex : Z;
  ctx_coverSpots : list Vector3;
  ctx_custom : list (string * Q)
}.

(** What a leaf of the entity's tree can reach: the context and, through
    [ctx.self], the entity. *)
Record World := { ctx : BTContext; self : AICharacter }.

Definition on_self (f : AICharacter -> AICharacter) (w : World) : World :=
  {| ctx := ctx w; self := f (self w) |}.

Definition DEFAULT_MOVEMENT : MovementConfig := {|
  walkSpeed := 2; runSpeed := 4; patrolSpeed := 3#2; rotationSpeed := 5;
  acceleration := 10; deceleration := 8; minDistance := 5;
  maxDistance := 20; retreatDistance := 3#10 |}.

Definition orDefault {A : Type} (o : option A) (d : A) : A :=
  match o with Some a => a | None => d end.

(** [{ ...defaults, ...partial }] *)
Definition spreadPerception (d : PerceptionData) (p : PartialPerception)
  : PerceptionData := {|
  hasLineOfSight := orDefault (opt_hasLineOfSight p) (hasLineOfSight d);
  distanceToTarget := orDefault (opt_distanceToTarget p) (distanceToTarget d);
  lastSeenTime := orDefault (opt_lastSeenTime p) (lastSeenTime d);
  hearingRange := orDefault (opt_hearingRange p) (hearingRange d);
  viewAngle := orDefault (opt_viewAngle p) (viewAngle d);
  viewDistance := orDefault (opt_viewDistance p) (viewDistance d) |}.

Definition set_hasLineOfSight (v : bool) (p : PerceptionData) : PerceptionData :=
  Build_PerceptionData v (distanceToTarget p) (lastSeenTime p)
    (hearingRange p) (viewAngle p) (viewDistance p).
Definition set_distanceToTarget (v : QInf) (p : PerceptionData) : PerceptionData :=
  Build_PerceptionData (hasLineOfSight p) v (lastSeenTime p)
    (hearingRange p) (viewAngle p) (viewDistance p).
Definition set_lastSeenTime (v : Q) (p : PerceptionData) : PerceptionData :=
  Build_PerceptionData (hasLineOfSight p) (distanceToTarget p) v
    (hearingRange p) (viewAngle p) (viewDistance p).
Definition set_runSpeed (v : Q) (m : MovementConfig) : MovementConfig :=
  Build_MovementConfig (walkSpeed m) v (patrolSpeed m) (rotationSpeed m)
    (acceleration m) (deceleration m) (minDistance m) (maxDistance m)
    (retreatDistance m).

Definition see (e : AICharacter) : Seen := {|
  seen_health := health e; seen_maxHealth := maxHealth e;
  seen_armor := armor e; seen_state := state e;
  seen_isAlive := isAlive e; seen_velocity := velocity e |}.

(** [callbacks.forEach(cb => cb(...))], or one event or hook call. *)
Definition fire (ev : Event) (e : AICharacter) : AICharacter :=
  set_log (ev :: log e) e.

(** [velocity.set(0, 0, 0)] *)
Definition stop (e : AICharacter) : AICharacter := set_velocity zero3 e.

Definition onEnterState (s : AIState) (e : AICharacter) : AICharacter :=
  match s with
  | PATROL => set_velocity zero3 e
  | COVER => set_coverTimer 0 e
  | _ => e
  end.

Definition onExitState (s : AIState) (e : AICharacter) : AICharacter :=
  match s with
  | COVER => set_currentCoverSpot None e
  | _ => e
  end.

Definition setState (newState : AIState) (e : AICharacter) : AICharacter :=
  if AIState_beq (state e) newState then e
  else
    let oldState := state e in
    let e := set_previousState oldState e in
    let e := set_state newState e in
    let e := onExitState oldState e in
    let e := onEnterState newState e in
    fire (StateChangeCallbacks newState oldState (see e)) e.

Definition die (e : AICharacter) : AICharacter :=
  let e := set_isAlive false e in
  let e := set_health 0 e in
  let e := setState DEAD e in
  let e := stop e in
  fire (DeathCallbacks (see e)) e.

Definition stun (duration : Q) (e : AICharacter) : AICharacter :=
  let e := set_isStunned true e in
  let e := set_stunTime duration e in
  let e := setState STUNNED e in
  stop e.

Definition onRetreat (e : AICharacter) : AICharacter := setState RETREAT e.

(** The base [performAttack] only announces the attack. *)
Definition performAttack (e : AICharacter) : AICharacter :=
  fire AttackAnnounced e.

Definition onAttack (tgt : Object3D) (now : Q) (e : AICharacter) : AICharacter :=
  let e := setState ATTACK e in
  if gtb (now - lastAttackTime e) (1000 / attackRate e) then
    let e := performAttack e in
    set_lastAttackTime now e
  else e.

Definition setMesh (m : Object3D) (meshRotationY : Q) (e : AICharacter)
  : AICharacter :=
  set_position (obj_position m) (set_mesh (Some meshRotationY) e).

Definition setTarget (t : option Object3D) (now : Q) (e : AICharacter)
  : AICharacter :=
  let e := set_target t e in
  match t with
  | Some o =>
      let e := set_lastKnownTargetPosition (obj_position o) e in
      set_perception (set_lastSeenTime now (perception e)) e
  | None => e
  end.

Definition createBTContext (e : AICharacter) : BTContext := {|
  ctx_target := target e;
  ctx_position := position e;
  ctx_rotation := rotation e;
  ctx_velocity := velocity e;
  ctx_isAlive := isAlive e;
  ctx_health := health e;
  ctx_maxHealth := maxHealth e;
  ctx_armor := armor e;
  ctx_hasLineOfSight := hasLineOfSight (perception e);
  ctx_distanceToTarget := distanceToTarget (perception e);
  ctx_isInCover := AIState_beq (state e) COVER;
  ctx_patrolPoints := patrolPoints e;
  ctx_currentPatrolIndex := currentPatrolIndex e;
  ctx_coverSpots := coverSpots e;
  ctx_custom := [] |}.

(** [mesh.position.x += velocity.x * dt], the same for [z], and
    [mesh.rotation.y = rotation.y], when a mesh is attached. *)
Definition applyMovement (deltaTime : Q) (e : AICharacter) : AICharacter :=
  match mesh e with
  | Some _ =>
      let p := position e in
      let e := set_position
                 (vec3 (v_x p + v_x (velocity e) * deltaTime) (v_y p)
                       (v_z p + v_z (velocity e) * deltaTime)) e in
      set_mesh (Some (e_y (rotation e))) e
  | None => e
  end.

Section Methods.

Context {rt : Runtime}.

Definition DEFAULT_PERCEPTION : PerceptionData := {|
  hasLineOfSight := false; distanceToTarget := Infinity; lastSeenTime := 0;
  hearingRange := 30; viewAngle := Math_PI / 3; viewDistance := 40 |}.

(** [constructor(id, name, config)].  [config.movement] has every field
    of [MovementConfig], so spreading it over [DEFAULT_MOVEMENT] gives
    [config.movement]. *)
Definition new (id name : string) (config : AIConfig) : AICharacter := {|
  id := id;
  name := name;
  characterType := cfg_type config;
  mesh := None;
  position := zero3;
  rotation := euler 0 0 0;
  velocity := zero3;
  targetPosition := zero3;
  health := cfg_health config;
  maxHealth := cfg_health config;
  armor := cfg_armor config;
  damage := cfg_damage config;
  state := IDLE;
  previousState := IDLE;
  isAlive := true;
  isStunned := false;
  stunTime := 0;
  target := None;
  lastKnownTargetPosition := zero3;
  movementConfig := cfg_movement config;
  perception := spreadPerception DEFAULT_PERCEPTION (cfg_perception config);
  patrolPoints := orDefault (cfg_patrolPoints config) [];
  currentPatrolIndex := 0%Z;
  patrolWaitTime := 0;
  patrolDirection := 1%Z;
  coverSpots := orDefault (cfg_coverSpots config) [];
  currentCoverSpot := None;
  coverTimer := 0;
  attackCooldown := 0;
  attackRate := 1;
  lastAttackTime := 0;
  log := [] |}.

Definition checkLineOfSight (e : AICharacter) : bool :=
  match target e with
  | None => false
  | Some t =>
      let toTarget := subVectors (obj_position t) (position e) in
      let distance := v3_length toTarget in
      if gtb distance (viewDistance (perception e)) then false
      else
        let forward := v3_applyEuler (vec3 0 0 1) (rotation e) in
        let angle := v3_angleTo forward (v3_normalize toTarget) in
        if gtb angle (viewAngle (perception e) / 2) then false
        else true
  end.

Definition updatePerception (deltaTime now : Q) (e : AICharacter)
  : AICharacter :=
  match target e with
  | Some t =>
      if negb (isAlive e) then
        set_perception
          (set_distanceToTarget Infinity
             (set_hasLineOfSight false (perception e))) e
      else
        let e := set_perception
                   (set_distanceToTarget
                      (Finite (v3_distanceTo (position e) (obj_position t)))
                      (perception e)) e in
        let e := set_perception
                   (set_hasLineOfSight (checkLineOfSight e) (perception e)) e in
        if hasLineOfSight (perception e) then
          let e := set_lastKnownTargetPosition (obj_position t) e in
          set_perception (set_lastSeenTime now (perception e)) e
        else e
  | None =>
      set_perception
        (set_distanceToTarget Infinity
           (set_hasLineOfSight false (perception e))) e
  end.

Definition moveToward (targetPos : Vector3) (speed deltaTime : Q)
  (e : AICharacter) : AICharacter :=
  let direction := set_y (subVectors targetPos (position e)) 0 in
  if gtb (v3_length direction) (1#10) then
    let direction := v3_normalize direction in
    let targetRotation := Math_atan2 (v_x direction) (v_z direction) in
    let r := rotation e in
    let e := set_rotation
               (euler (e_x r)
                  (MathUtils_lerp (e_y r) targetRotation
                     (rotationSpeed (movementConfig e) * deltaTime))
                  (e_z r)) e in
    set_velocity
      (vec3 (v_x direction * speed) (v_y (velocity e)) (v_z direction * speed))
      e
  else
    set_velocity (vec3 0 (v_y (velocity e)) 0) e.

Definition onApproachTarget (tgt : Object3D) (e : AICharacter) : AICharacter :=
  let distance := v3_distanceTo (position e) (obj_position tgt) in
  if gtb distance (maxDistance (movementConfig e)) then
    let e := setState CHASE e in
    moveToward (obj_position tgt) (runSpeed (movementConfig e)) (1/60) e
  else if ltb distance (minDistance (movementConfig e)) then
    let retreatDir :=
      multiplyScalar
        (v3_normalize (subVectors (position e) (obj_position tgt))) (1#2) in
    moveToward (addV (position e) retreatDir)
      (walkSpeed (movementConfig e)) (1/60) e
  else
    setState ATTACK e.

(** [patrolPoints[currentPatrolIndex]]; an index outside the array makes
    the JavaScript throw at [distanceTo], which is modelled as stopping
    there.  [onPatrol] itself keeps the index inside the array. *)
Definition patrolPointAt (e : AICharacter) : option Vector3 :=
  if (currentPatrolIndex e <? 0)%Z then None
  else nth_error (patrolPoints e) (Z.to_nat (currentPatrolIndex e)).

Definition onPatrol (e : AICharacter) : AICharacter :=
  let e := setState PATROL e in
  match patrolPoints e with
  | [] => setState IDLE e
  | _ =>
      if gtb (patrolWaitTime e) 0 then
        set_patrolWaitTime (patrolWaitTime e - 1/60) e
      else
        match patrolPointAt e with
        | None => e
        | Some targetPoint =>
            let distance := v3_distanceTo (position e) targetPoint in
            if ltb distance 1 then
              let e := set_currentPatrolIndex
                         (currentPatrolIndex e + patrolDirection e)%Z e in
              let len := Z.of_nat (List.length (patrolPoints e)) in
              let e :=
                if (len <=? currentPatrolIndex e)%Z then
                  set_patrolDirection (-1)%Z
                    (set_currentPatrolIndex (len - 1)%Z e)
                else if (currentPatrolIndex e <? 0)%Z then
                  set_patrolDirection 1%Z (set_currentPatrolIndex 0%Z e)
                else e in
              set_patrolWaitTime 2 e
            else
              moveToward targetPoint (patrolSpeed (movementConfig e)) (1/60) e
        end
  end.

Definition findNearestCover (e : AICharacter) : option Vector3 :=
  match coverSpots e with
  | [] => None
  | _ =>
      fst (fold_left
             (fun (acc : option Vector3 * QInf) (cover : Vector3) =>
                let (nearest, nearestDist) := acc in
                let dist := v3_distanceTo (position e) cover in
                if inf_ltb (Finite dist) nearestDist
                then (Some cover, Finite dist)
                else (nearest, nearestDist))
             (coverSpots e) (None, Infinity))
  end.

(** [takeDamage(amount, source)].  The call [this.die()] is dispatched on
    the object's class: [this_die] is [die] for a plain entity and for a
    soldier, and the boss's override for a boss. *)
Definition takeDamage_via (this_die : AICharacter -> AICharacter)
  (amount : Q) (source : option Object3D) (e : AICharacter) : AICharacter :=
  if negb (isAlive e) then e
  else
    let damage := amount in
    let (e, damage) :=
      if gtb (armor e) 0 then
        let armorDamage := Qmin (armor e) (damage * (1#2)) in
        (set_armor (armor e - armorDamage) e, damage - armorDamage)
      else (e, damage) in
    let e := set_health (health e - damage) e in
    let e := fire (DamageCallbacks amount source (see e)) e in
    let e := if leb (health e) 0 then this_die e else e in
    if gtb (armor e) 0 && AICharacterType_beq (characterType e) SOLDIER then
      match findNearestCover e with
      | Some cover => setState COVER (set_currentCoverSpot (Some cover) e)
      | None => e
      end
    else e.

Definition takeDamage : Q -> option Object3D -> AICharacter -> AICharacter :=
  takeDamage_via die.

(** The tree every entity is given by its constructor.  [ctx.target!] is
    null only when no target is set, and then [hasLineOfSight] is false
    and the leaf is not reached; the [None] case leaves the world as is. *)
Definition createEnemyBehaviorTree (now : Q) : BTNode World :=
  BTSelector "root" [
    BTSequence "retreatWhenLowHealth" [
      BTCondition "isHealthLow"
        (fun w =>
           (w, ltb (ctx_health (ctx w)) (ctx_maxHealth (ctx w) * (3#10))));
      BTAction "retreat" (fun w => (on_self onRetreat w, SUCCESS))
    ];
    BTSequence "attackWhenVisible" [
      BTCondition "hasLineOfSight" (fun w => (w, ctx_hasLineOfSight (ctx w)));
      BTAction "approach"
        (fun w =>
           match ctx_target (ctx w) with
           | Some t => (on_self (onApproachTarget t) w, RUNNING)
           | None => (w, RUNNING)
           end);
      BTAction "attack"
        (fun w =>
           match ctx_target (ctx w) with
           | Some t => (on_self (onAttack t now) w, SUCCESS)
           | None => (w, SUCCESS)
           end)
    ];
    BTAction "patrol" (fun w => (on_self onPatrol w, SUCCESS))
  ].

(** The stun branch shared by every [update] in the class hierarchy.
    The subtraction is exact here and correctly rounded in the code: the
    two agree on the sign of the difference of two binary64 numbers, and
    on its value when that is a binary64 number. *)
Definition updateStun (deltaTime : Q) (e : AICharacter) : AICharacter :=
  let e := set_stunTime (stunTime e - deltaTime) e in
  if leb (stunTime e) 0 then
    let e := set_isStunned false e in
    setState (previousState e) e
  else e.

(** [update(deltaTime)].  The closing [position.copy(mesh?.position ||
    position)] copies the position onto itself, with or without a mesh. *)
Definition update (deltaTime now : Q) (e : AICharacter) : AICharacter :=
  if negb (isAlive e) then e
  else if isStunned e then updateStun deltaTime e
  else
    let e := updatePerception deltaTime now e in
    let context := createBTContext e in
    let e := self (fst (BT.update (fun w => ctx_isAlive (ctx w))
                          (createEnemyBehaviorTree now)
                          {| ctx := context; self := e |})) in
    applyMovement deltaTime e.

End Methods.

End AI.

(** ** Enemy/Soldier.ts *)

Module SoldierAI.

Import AI.

Record CoverState := {
  cover_position : Vector3;
  cover_quality : Q;
  cover_direction : Vector3
}.

(** How a call ended: it returned, or an exception left it early. *)
Inductive Outcome (A : Type) := Returned (a : A) | Threw (a : A).
Arguments Returned {A} a.
Arguments Threw {A} a.

Definition stateOf {A : Type} (o : Outcome A) : A :=
  match o with Returned a => a | Threw a => a end.

(** A soldier: the entity it extends ([base]) and its own fields.
    [draws] counts the [Math.random()] calls made so far on its behalf.
    The tree built by [setupTacticalBehaviorTree] is stored in
    [behaviorTree] but [Soldier.update] never runs it. *)
Record Soldier := {
  base : AICharacter;
  coverState : option CoverState;
  coverSearchTimer : Q;
  suppressTimer : Q;
  repositionTimer : Q;
  grenadeCooldown : Q;
  prefersHighCover : bool;
  usesGrenades : bool;
  suppressesEnemy : bool;
  isSuppressing : bool;
  burstCount : Z;
  burstSize : Z;
  draws : nat
}.

Definition set_base (v : AICharacter) (s : Soldier) : Soldier :=
  Build_Soldier v (coverState s) (coverSearchTimer s) (suppressTimer s)
    (repositionTimer s) (grenadeCooldown s) (prefersHighCover s)
    (usesGrenades s) (suppressesEnemy s) (isSuppressing s) (burstCount s)
    (burstSize s) (draws s).
Definition set_coverState (v : option CoverState) (s : Soldier) : Soldier :=
  Build_Soldier (base s) v (coverSearchTimer s) (suppressTimer s)
    (repositionTimer s) (grenadeCooldown s) (prefersHighCover s)
    (usesGrenades s) (suppressesEnemy s) (isSuppressing s) (burstCount s)
    (burstSize s) (draws s).
Definition set_coverSearchTimer (v : Q) (s : Soldier) : Soldier :=
  Build_Soldier (base s) (coverState s) v (suppressTimer s)
    (repositionTimer s) (grenadeCooldown s) (prefersHighCover s)
    (usesGrenades s) (suppressesEnemy s) (isSuppressing s) (burstCount s)
    (burstSize s) (draws s).
Definition set_suppressTimer (v : Q) (s : Soldier) : Soldier :=
  Build_Soldier (base s) (coverState s) (coverSearchTimer s) v
    (repositionTimer s) (grenadeCooldown s) (prefersHighCover s)
    (usesGrenades s) (suppressesEnemy s) (isSuppressing s) (burstCount s)
    (burstSize s) (draws s).
Definition set_repositionTimer (v : Q) (s : Soldier) : Soldier :=
  Build_Soldier (base s) (coverState s) (coverSearchTimer s)
    (suppressTimer s) v (grenadeCooldown s) (prefersHighCover s)
    (usesGrenades s) (suppressesEnemy s) (isSuppressing s) (burstCount s)
    (burstSize s) (draws s).
Definition set_grenadeCooldown (v : Q) (s : Soldier) : Soldier :=
  Build_Soldier (base s) (coverState s) (coverSearchTimer s)
    (suppressTimer s) (repositionTimer s) v (prefersHighCover s)
    (usesGrenades s) (suppressesEnemy s) (isSuppressing s) (burstCount s)
    (burstSize s) (draws s).
Definition set_burstCount (v : Z) (s : Soldier) : Soldier :=
  Build_Soldier (base s) (coverState s) (coverSearchTimer s)
    (suppressTimer s) (repositionTimer s) (grenadeCooldown s)
    (prefersHighCover s) (usesGrenades s) (suppressesEnemy s)
    (isSuppressing s) v (burstSize s) (draws s).
Definition set_draws (v : nat) (s : Soldier) : Soldier :=
  Build_Soldier (base s) (coverState s) (coverSearchTimer s)
    (suppressTimer s) (repositionTimer s) (grenadeCooldown s)
    (prefersHighCover s) (usesGrenades s) (suppressesEnemy s)
    (isSuppressing s) (burstCount s) (burstSize s) v.

(** [f] applied to the entity part of the soldier. *)
Definition on_base (f : AICharacter -> AICharacter) (s : Soldier) : Soldier :=
  set_base (f (base s)) s.

Section Methods.

Context {rt : Runtime}.

(** [Math.random()]: the next draw of the stream. *)
Definition random (s : Soldier) : Q * Soldier :=
  (Math_random (draws s), set_draws (S (draws s)) s).

Definition SOLDIER_CONFIG : AIConfig := {|
  cfg_type := SOLDIER;
  cfg_health := 120;
  cfg_armor := 30;
  cfg_damage := 20;
  cfg_movement := {|
    walkSpeed := 5#2; runSpeed := 4; patrolSpeed := 3#2; rotationSpeed := 8;
    acceleration := 12; deceleration := 15; minDistance := 8;
    maxDistance := 30; retreatDistance := 4#10 |};
  cfg_perception := {|
    opt_hasLineOfSight := None; opt_distanceToTarget := None;
    opt_lastSeenTime := None; opt_hearingRange := Some 40;
    opt_viewAngle := Some (Math_PI * (6#10)); opt_viewDistance := Some 50 |};
  cfg_patrolPoints := None;
  cfg_coverSpots := None |}.

(** [constructor(id, name, position?, coverSpots?)] *)
Definition new (id name : string) (position : option Vector3)
  (coverSpots : option (list Vector3)) : Soldier :=
  let e := AI.new id name SOLDIER_CONFIG in
  let e := match position with Some p => set_position p e | None => e end in
  let e := match coverSpots with Some c => set_coverSpots c e | None => e end in
  {| base := e; coverState := None; coverSearchTimer := 0;
     suppressTimer := 0; repositionTimer := 0; grenadeCooldown := 0;
     prefersHighCover := true; usesGrenades := true; suppressesEnemy := true;
     isSuppressing := false; burstCount := 0%Z; burstSize := 3%Z;
     draws := O |}.

Definition updateTimers (deltaTime : Q) (s : Soldier) : Soldier :=
  let s := if gtb (coverSearchTimer s) 0
           then set_coverSearchTimer (coverSearchTimer s - deltaTime) s
           else s in
  let s := if gtb (suppressTimer s) 0
           then set_suppressTimer (suppressTimer s - deltaTime) s
           else s in
  let s := if gtb (repositionTimer s) 0
           then set_repositionTimer (repositionTimer s - deltaTime) s
           else s in
  if gtb (grenadeCooldown s) 0
  then set_grenadeCooldown (grenadeCooldown s - deltaTime) s
  else s.

Definition shouldSeekCover (s : Soldier) : bool :=
  if ltb (health (base s))
         (maxHealth (base s) * retreatDistance (movementConfig (base s)))
  then true
  else if gtb (suppressTimer s) 2 then true
  else false.

(** The loop over the six probe directions returns in its first
    iteration, with the direction [(1, 0, 0)] scaled in place by 3. *)
Definition searchForCover (s : Soldier) : option CoverState * Soldier :=
  let dir := multiplyScalar (vec3 1 0 0) 3 in
  let testPos := addV (position (base s)) dir in
  let (r, s) := random s in
  let quality := r * (1#2) + (1#2) in
  (Some {| cover_position := testPos; cover_quality := quality;
           cover_direction := negate dir |}, s).

(** [bestScore] starts at [-Infinity], here [None]. *)
Definition selectBestCover (s : Soldier) : option CoverState * Soldier :=
  match target (base s) with
  | None => (None, s)
  | Some t =>
      let '(bestCover, _, s) :=
        fold_left
          (fun (acc : option CoverState * option Q * Soldier)
               (coverPos : Vector3) =>
             let '(bestCover, bestScore, s) := acc in
             let distToCover := v3_distanceTo (position (base s)) coverPos in
             let distToEnemy := v3_distanceTo coverPos (obj_position t) in
             let distScore := 10 - distToCover in
             let enemyDistScore :=
               distToEnemy - maxDistance (movementConfig (base s)) in
             let (r, s) := random s in
             let quality := (1#2) + r * (1#2) in
             let totalScore :=
               distScore * (3#10) + enemyDistScore * (1#2)
               + quality * (2#10) in
             let better :=
               match bestScore with
               | None => true
               | Some b => gtb totalScore b
               end in
             if better then
               (Some {| cover_position := coverPos;
                        cover_quality := quality;
                        cover_direction :=
                          v3_normalize
                            (subVectors (obj_position t) coverPos) |},
                Some totalScore, s)
             else (bestCover, bestScore, s))
          (coverSpots (base s)) (None, None, s) in
      (bestCover, s)
  end.

Definition turnAndMove (direction : Vector3) (speed : Q) (e : AICharacter)
  : AICharacter :=
  let targetRotation := Math_atan2 (v_x direction) (v_z direction) in
  let r := rotation e in
  let e := set_rotation
             (euler (e_x r)
                (MathUtils_lerp (e_y r) targetRotation
                   (rotationSpeed (movementConfig e) * (1/60)))
                (e_z r)) e in
  set_velocity
    (vec3 (v_x direction * speed) (v_y (velocity e)) (v_z direction * speed))
    e.

Definition moveToCover (coverPosition : Vector3) (s : Soldier) : Soldier :=
  let direction := set_y (subVectors coverPosition (position (base s))) 0 in
  if gtb (v3_length direction) (1#2) then
    let direction := v3_normalize direction in
    on_base (fun e => turnAndMove direction (runSpeed (movementConfig e)) e) s
  else
    let s := on_base (set_velocity zero3) s in
    let (r, s) := random s in
    on_base (set_coverTimer (2 + r * 2)) s.

Definition findAndMoveToCover (s : Soldier) : Soldier :=
  let s := on_base (setState COVER) s in
  let (c, s) :=
    match coverSpots (base s) with
    | [] => searchForCover s
    | _ => selectBestCover s
    end in
  let s := set_coverState c s in
  match coverState s with
  | Some c => moveToCover (cover_position c) s
  | None => s
  end.

(** [Soldier.performAttack]: announces the shot when there is a living
    shooter and a target within [maxDistance]. *)
Definition performAttack (s : Soldier) : Soldier :=
  match target (base s) with
  | None => s
  | Some t =>
      if negb (isAlive (base s)) then s
      else
        let distance :=
          v3_distanceTo (position (base s)) (obj_position t) in
        if gtb distance (maxDistance (movementConfig (base s))) then s
        else on_base (fire AttackAnnounced) s
  end.

Definition performBurstFire (now : Q) (s : Soldier) : Soldier :=
  let s := if (burstCount s <=? 0)%Z
           then set_burstCount (burstSize s) s
           else s in
  if (0 <? burstCount s)%Z then
    let s := on_base (set_attackCooldown (15#100)) s in
    if gtb (now - lastAttackTime (base s)) (attackCooldown (base s) * 1000)
    then
      let s := performAttack s in
      let s := set_burstCount (burstCount s - 1)%Z s in
      on_base (set_lastAttackTime now) s
    else s
  else
    on_base (set_attackCooldown (1#2)) s.

Definition moveWithCover (direction : Vector3) (speed : Q) (s : Soldier)
  : Soldier :=
  on_base (turnAndMove direction speed) s.

Definition tacticalAdvance (s : Soldier) : Soldier :=
  match target (base s) with
  | None => s
  | Some t =>
      let direction :=
        v3_normalize
          (set_y (subVectors (obj_position t) (position (base s))) 0) in
      let lateral := vec3 (- v_z direction) 0 (v_x direction) in
      let direction :=
        v3_normalize (addV direction (multiplyScalar lateral (3#10))) in
      moveWithCover direction (walkSpeed (movementConfig (base s))) s
  end.

Definition tacticalRetreat (s : Soldier) : Soldier :=
  match target (base s) with
  | None => s
  | Some t =>
      let direction :=
        v3_normalize
          (set_y (subVectors (position (base s)) (obj_position t)) 0) in
      moveWithCover direction (walkSpeed (movementConfig (base s))) s
  end.

(** [coverSpots[Math.floor(Math.random() * length)]]; a draw outside
    [0, 1) can miss the array, and the JavaScript then throws at
    [distanceTo]: modelled as stopping there. *)
Definition tacticalReposition (s : Soldier) : Soldier :=
  match target (base s), coverSpots (base s) with
  | None, _ => s
  | _, [] => s
  | Some _, spots =>
      let (r, s) := random s in
      let randomIndex := Qfloor (r * inject_Z (Z.of_nat (List.length spots))) in
      let newPos :=
        if (randomIndex <? 0)%Z then None
        else nth_error spots (Z.to_nat randomIndex) in
      match newPos with
      | None => s
      | Some newPos =>
          if gtb (v3_distanceTo newPos (position (base s))) 2 then
            let s := on_base (set_currentCoverSpot (Some newPos)) s in
            moveToCover newPos s
          else s
      end
  end.

Definition throwGrenade (s : Soldier) : Soldier :=
  match target (base s) with
  | None => s
  | Some t =>
      let distance := v3_distanceTo (position (base s)) (obj_position t) in
      if gtb distance 25 then s
      else
        let targetPos := obj_position t in
        let (r1, s) := random s in
        let targetPos :=
          vec3 (v_x targetPos + (r1 - (1#2)) * 3) (v_y targetPos)
               (v_z targetPos) in
        let (r2, s) := random s in
        let targetPos :=
          vec3 (v_x targetPos) (v_y targetPos)
               (v_z targetPos + (r2 - (1#2)) * 3) in
        let s := on_base (fire (GrenadeAnnounced targetPos)) s in
        let (r3, s) := random s in
        set_grenadeCooldown (8 + r3 * 4) s
  end.

Definition executeTacticalAI (deltaTime now : Q) (s : Soldier) : Soldier :=
  let distance := distanceToTarget (perception (base s)) in
  if shouldSeekCover s then findAndMoveToCover s
  else
    let idealDistance :=
      (minDistance (movementConfig (base s))
       + maxDistance (movementConfig (base s))) / 2 in
    let s :=
      if inf_gtb distance (Finite (idealDistance * (12#10))) then
        let s := on_base (setState CHASE) s in
        tacticalAdvance s
      else if inf_ltb distance (Finite (minDistance (movementConfig (base s))))
      then
        let s := on_base (setState RETREAT) s in
        tacticalRetreat s
      else
        let s := on_base (setState ATTACK) s in
        let s := performBurstFire now s in
        if leb (repositionTimer s) 0 then
          let s := tacticalReposition s in
          let (r, s) := random s in
          set_repositionTimer (3 + r * 2) s
        else s in
    if usesGrenades s && leb (grenadeCooldown s) 0
       && inf_ltb distance (Finite 25)
    then throwGrenade s
    else s.

(** [Soldier.executePatrol] sets the state and then calls
    [super.executePatrol], which [AICharacter] does not define: the call
    throws a [TypeError]. *)
Definition executePatrol (deltaTime : Q) (s : Soldier) : Outcome Soldier :=
  Threw (on_base (setState PATROL) s).

(** [Soldier.update]: the stun branch, the timers, the perception, then
    the tactical code when a target is in sight; the tree built in the
    constructor is not evaluated. *)
Definition update (deltaTime now : Q) (s : Soldier) : Outcome Soldier :=
  if negb (isAlive (base s)) then Returned s
  else if isStunned (base s) then Returned (on_base (updateStun deltaTime) s)
  else
    let s := updateTimers deltaTime s in
    let s := on_base (updatePerception deltaTime now) s in
    let hasTarget :=
      match target (base s) with Some _ => true | None => false end in
    if hasTarget && hasLineOfSight (perception (base s)) then
      let s := executeTacticalAI deltaTime now s in
      Returned (on_base (applyMovement deltaTime) s)
    else
      match patrolPoints (base s) with
      | _ :: _ => executePatrol deltaTime s
      | [] =>
          let s := on_base (setState IDLE) s in
          Returned (on_base (applyMovement deltaTime) s)
      end.

Definition takeDamage (amount : Q) (source : option Object3D) (s : Soldier)
  : Soldier :=
  let s := on_base (AI.takeDamage amount source) s in
  let s := set_suppressTimer (suppressTimer s + 1) s in
  if ltb (health (base s)) (maxHealth (base s) * (1#2))
     && negb (AIState_beq (state (base s)) COVER)
  then findAndMoveToCover s
  else s.

End Methods.

End SoldierAI.

(** ** Boss/BossBase.ts *)

Module Boss.

Import AI.

(** A phase.  [onEnter] and [onExit] are optional hooks; a hook that is
    present is a call that the log records. *)
Record BossPhaseConfig := {
  phase_name : string;
  phase_health : Q;
  damageMultiplier : Q;
  speedMultiplier : Q;
  mechanics : list string;
  onEnter : bool;
  onExit : bool
}.

Record EnrageEffects := {
  enrage_damageMultiplier : Q;
  enrage_speedMultiplier : Q
}.

(** [BossConfig extends AIConfig] *)
Record BossConfig := {
  cfg_base : AIConfig;
  cfg_phases : list BossPhaseConfig;
  cfg_enrageThreshold : Q;
  cfg_enrageEffects : option EnrageEffects;
  cfg_introDialogue : option (list string);
  cfg_victoryDialogue : option (list string)
}.

(** A boss: the entity it extends ([base]) and its own fields. *)
Record BossBase := {
  base : AICharacter;
  phases : list BossPhaseConfig;
  currentPhaseIndex : nat;
  phaseHealthThresholds : list Q;
  isEnraged : bool;
  enrageThreshold : Q;
  enrageEffects : EnrageEffects;
  specialAttackCooldown : Q;
  currentSpecialAttack : option string;
  isPerformingSpecial : bool;
  hitCount : Z;
  hitThreshold : Z;
  introDialogue : list string;
  victoryDialogue : list string
}.

Definition set_base (v : AICharacter) (b : BossBase) : BossBase :=
  Build_BossBase v (phases b) (currentPhaseIndex b)
    (phaseHealthThresholds b) (isEnraged b) (enrageThreshold b)
    (enrageEffects b) (specialAttackCooldown b) (currentSpecialAttack b)
    (isPerformingSpecial b) (hitCount b) (hitThreshold b) (introDialogue b)
    (victoryDialogue b).
Definition set_currentPhaseIndex (v : nat) (b : BossBase) : BossBase :=
  Build_BossBase (base b) (phases b) v (phaseHealthThresholds b)
    (isEnraged b) (enrageThreshold b) (enrageEffects b)
    (specialAttackCooldown b) (currentSpecialAttack b)
    (isPerformingSpecial b) (hitCount b) (hitThreshold b) (introDialogue b)
    (victoryDialogue b).
Definition set_phaseHealthThresholds (v : list Q) (b : BossBase) : BossBase :=
  Build_BossBase (base b) (phases b) (currentPhaseIndex b) v (isEnraged b)
    (enrageThreshold b) (enrageEffects b) (specialAttackCooldown b)
    (currentSpecialAttack b) (isPerformingSpecial b) (hitCount b)
    (hitThreshold b) (introDialogue b) (victoryDialogue b).
Definition set_isEnraged (v : bool) (b : BossBase) : BossBase :=
  Build_BossBase (base b) (phases b) (currentPhaseIndex b)
    (phaseHealthThresholds b) v (enrageThreshold b) (enrageEffects b)
    (specialAttackCooldown b) (currentSpecialAttack b)
    (isPerformingSpecial b) (hitCount b) (hitThreshold b) (introDialogue b)
    (victoryDialogue b).
Definition set_specialAttackCooldown (v : Q) (b : BossBase) : BossBase :=
  Build_BossBase (base b) (phases b) (currentPhaseIndex b)
    (phaseHealthThresholds b) (isEnraged b) (enrageThreshold b)
    (enrageEffects b) v (currentSpecialAttack b) (isPerformingSpecial b)
    (hitCount b) (hitThreshold b) (introDialogue b) (victoryDialogue b).
Definition set_currentSpecialAttack (v : option string) (b : BossBase) : BossBase :=
  Build_BossBase (base b) (phases b) (currentPhaseIndex b)
    (phaseHealthThresholds b) (isEnraged b) (enrageThreshold b)
    (enrageEffects b) (specialAttackCooldown b) v (isPerformingSpecial b)
    (hitCount b) (hitThreshold b) (introDialogue b) (victoryDialogue b).
Definition set_isPerformingSpecial (v : bool) (b : BossBase) : BossBase :=
  Build_BossBase (base b) (phases b) (currentPhaseIndex b)
    (phaseHealthThresholds b) (isEnraged b) (enrageThreshold b)
    (enrageEffects b) (specialAttackCooldown b) (currentSpecialAttack b) v
    (hitCount b) (hitThreshold b) (introDialogue b) (victoryDialogue b).
Definition set_hitCount (v : Z) (b : BossBase) : BossBase :=
  Build_BossBase (base b) (phases b) (currentPhaseIndex b)
    (phaseHealthThresholds b) (isEnraged b) (enrageThreshold b)
    (enrageEffects b) (specialAttackCooldown b) (currentSpecialAttack b)
    (isPerformingSpecial b) v (hitThreshold b) (introDialogue b)
    (victoryDialogue b).

Definition on_base (f : AICharacter -> AICharacter) (b : BossBase) : BossBase :=
  set_base (f (base b)) b.

Definition DEFAULT_BOSS_MOVEMENT : MovementConfig := {|
  walkSpeed := 3#2; runSpeed := 3; patrolSpeed := 1; rotationSpeed := 2;
  acceleration := 5; deceleration := 5; minDistance := 5;
  maxDistance := 15; retreatDistance := 1#10 |}.

(** [calculatePhaseThresholds]: the first loop sums the budgets, the second
    pushes [1 - accumulated / totalHealth] after each phase.  The sums
    and the quotients are exact here; rounded, as in the code, they keep
    the order of the thresholds but can make two of them equal. *)
Definition totalHealthOf (phases : list BossPhaseConfig) : Q :=
  fold_left (fun total phase => total + phase_health phase) phases 0.

Fixpoint thresholdsFrom (totalHealth accumulated : Q)
  (phases : list BossPhaseConfig) : list Q :=
  match phases with
  | [] => []
  | phase :: rest =>
      let accumulated := accumulated + phase_health phase in
      (1 - accumulated / totalHealth)
        :: thresholdsFrom totalHealth accumulated rest
  end.

Definition calculatePhaseThresholds (b : BossBase) : BossBase :=
  let totalHealth := totalHealthOf (phases b) in
  set_phaseHealthThresholds (thresholdsFrom totalHealth 0 (phases b)) b.

(** [BossBase.die]: the entity's [die], then the defeat event. *)
Definition die_entity (e : AICharacter) : AICharacter :=
  let e := AI.die e in
  fire (DefeatEvent (see e)) e.

Definition die (b : BossBase) : BossBase := on_base die_entity b.

(** [currentPhaseIndex >= phases.length - 1] *)
Definition atLastPhase (b : BossBase) : bool :=
  (Z.of_nat (List.length (phases b)) - 1 <=? Z.of_nat (currentPhaseIndex b))%Z.

(** The ratios and the products are exact here and rounded in the code,
    where the stored damage and run speed can therefore depend on the
    order in which the phases advance and the enrage starts. *)
Definition advanceToNextPhase (b : BossBase) : BossBase :=
  if atLastPhase b then b
  else
    match nth_error (phases b) (currentPhaseIndex b),
          nth_error (phases b) (S (currentPhaseIndex b)) with
    | Some oldPhase, Some newPhase =>
        let b := if onExit oldPhase
                 then on_base
                        (fire (PhaseExitHook (Z.of_nat (currentPhaseIndex b)))) b
                 else b in
        let b := set_currentPhaseIndex (S (currentPhaseIndex b)) b in
        let b := on_base
                   (fun e =>
                      set_damage
                        (damage e * (damageMultiplier newPhase
                                     / damageMultiplier oldPhase)) e) b in
        let b := on_base
                   (fun e =>
                      set_movementConfig
                        (set_runSpeed
                           (runSpeed (movementConfig e)
                            * (speedMultiplier newPhase
                               / speedMultiplier oldPhase))
                           (movementConfig e)) e) b in
        let b := if onEnter newPhase
                 then on_base
                        (fire (PhaseEnterHook (Z.of_nat (currentPhaseIndex b)))) b
                 else b in
        on_base
          (fire (PhaseChangeEvent (Z.of_nat (currentPhaseIndex b))
                   (phase_name newPhase))) b
    | _, _ => b
    end.

(** [phaseHealthThresholds[currentPhaseIndex]] is [undefined] past the end
    of the array, and [healthPercent <= undefined] is false.  The quotient
    is the code's for a maxHealth other than 0; at 0 the code compares
    [NaN] or an infinity, and the properties that read the comparison
    assume a positive maxHealth. *)
Definition checkPhaseTransition (b : BossBase) : BossBase :=
  if atLastPhase b then b
  else
    let healthPercent := health (base b) / maxHealth (base b) in
    match nth_error (phaseHealthThresholds b) (currentPhaseIndex b) with
    | Some threshold =>
        if leb healthPercent threshold then advanceToNextPhase b else b
    | None => b
    end.

(** The products as in [advanceToNextPhase]. *)
Definition enterEnrage (b : BossBase) : BossBase :=
  if isEnraged b then b
  else
    let b := set_isEnraged true b in
    let b := on_base
               (fun e =>
                  set_damage
                    (damage e * enrage_damageMultiplier (enrageEffects b)) e)
               b in
    let b := on_base
               (fun e =>
                  set_movementConfig
                    (set_runSpeed
                       (runSpeed (movementConfig e)
                        * enrage_speedMultiplier (enrageEffects b))
                       (movementConfig e)) e) b in
    on_base (fire EnrageEvent) b.

(** The quotient as in [checkPhaseTransition]. *)
Definition checkEnrage (b : BossBase) : BossBase :=
  if isEnraged b then b
  else
    let healthPercent := health (base b) / maxHealth (base b) in
    if leb healthPercent (enrageThreshold b) then enterEnrage b else b.

Definition performSpecialAttack (attackName : string) (b : BossBase)
  : BossBase :=
  if isPerformingSpecial b then b
  else
    let b := set_isPerformingSpecial true b in
    let b := set_currentSpecialAttack (Some attackName) b in
    on_base (fire (SpecialAttackEvent attackName)) b.

Definition endSpecialAttack (b : BossBase) : BossBase :=
  let b := set_isPerformingSpecial false b in
  let b := set_currentSpecialAttack None b in
  set_specialAttackCooldown 3 b.

(** [reset()].  With no phase at all [phases[0]] is [undefined] and the
    last two assignments throw; the state reached is returned. *)
Definition reset (b : BossBase) : BossBase :=
  let b := set_currentPhaseIndex O b in
  let b := set_isEnraged false b in
  let b := on_base (fun e => set_health (maxHealth e) e) b in
  let b := set_isPerformingSpecial false b in
  let b := set_currentSpecialAttack None b in
  let b := set_hitCount 0%Z b in
  let b := set_specialAttackCooldown 0 b in
  match phases b with
  | firstPhase :: _ =>
      let b := on_base
                 (fun e => set_damage (damage e / damageMultiplier firstPhase) e)
                 b in
      on_base
        (fun e =>
           set_movementConfig
             (set_runSpeed
                (runSpeed (movementConfig e) / speedMultiplier firstPhase)
                (movementConfig e)) e) b
  | [] => b
  end.

Section Methods.

Context {rt : Runtime}.

(** [constructor(id, name, config)].  [config.phases[0]] is [undefined]
    for an empty phase list and reading its [health] throws: [None].
    [config.movement] has every field of [MovementConfig], so spreading it
    over [DEFAULT_BOSS_MOVEMENT] gives [config.movement]. *)
Definition new (id name : string) (config : BossConfig) : option BossBase :=
  match cfg_phases config with
  | [] => None
  | initialPhase :: _ =>
      let c := cfg_base config in
      let initialConfig := {|
        cfg_type := cfg_type c;
        cfg_health := phase_health initialPhase;
        cfg_armor := cfg_armor c;
        cfg_damage := cfg_damage c * damageMultiplier initialPhase;
        cfg_movement := cfg_movement c;
        cfg_perception := cfg_perception c;
        cfg_patrolPoints := cfg_patrolPoints c;
        cfg_coverSpots := cfg_coverSpots c |} in
      let e := AI.new id name initialConfig in
      let e := set_characterType BOSS e in
      let b := {|
        base := e;
        phases := cfg_phases config;
        currentPhaseIndex := O;
        phaseHealthThresholds := [];
        isEnraged := false;
        enrageThreshold := cfg_enrageThreshold config;
        enrageEffects :=
          orDefault (cfg_enrageEffects config)
            {| enrage_damageMultiplier := 15#10;
               enrage_speedMultiplier := 13#10 |};
        specialAttackCooldown := 0;
        currentSpecialAttack := None;
        isPerformingSpecial := false;
        hitCount := 0%Z;
        hitThreshold := 10%Z;
        introDialogue := orDefault (cfg_introDialogue config) [];
        victoryDialogue := orDefault (cfg_victoryDialogue config) [] |} in
      Some (calculatePhaseThresholds b)
  end.

Definition takeDamage (amount : Q) (source : option Object3D) (b : BossBase)
  : BossBase :=
  if negb (isAlive (base b)) then b
  else
    let b := set_hitCount (hitCount b + 1)%Z b in
    let b := on_base (takeDamage_via die_entity amount source) b in
    let b := checkPhaseTransition b in
    checkEnrage b.

(** [executeBossAI] and [updateSpecialAttack] are empty in this class. *)
Definition update (deltaTime now : Q) (b : BossBase) : BossBase :=
  if negb (isAlive (base b)) then b
  else if isStunned (base b) then on_base (updateStun deltaTime) b
  else
    let b := if gtb (specialAttackCooldown b) 0
             then set_specialAttackCooldown
                    (specialAttackCooldown b - deltaTime) b
             else b in
    let b := on_base (updatePerception deltaTime now) b in
    on_base (applyMovement deltaTime) b.

End Methods.

End Boss.

(** ** Boss/Trainer.ts: the configuration of the two-phase boss

    [Trainer] adds its own fields and overrides [executeBossAI],
    [updateSpecialAttack] and [performAttack]; its constructor, and its
    [takeDamage], [die], [reset] and phase logic, are those of [BossBase].
    The phase names and the dialogue lines stand for the Chinese strings
    of the source. *)

Module Trainer.

Import AI Boss.

Section Config.

Context {rt : Runtime}.

Definition TRAINER_PHASES : list BossPhaseConfig := [
  {| phase_name := "training"; phase_health := 500;
     damageMultiplier := 1#2; speedMultiplier := 7#10;
     mechanics := ["demonstration"; "duel_invite"; "teaching"];
     onEnter := true; onExit := true |};
  {| phase_name := "combat"; phase_health := 500;
     damageMultiplier := 1; speedMultiplier := 1;
     mechanics := ["combo"; "flashbang"; "enrage"; "aggressive"];
     onEnter := true; onExit := true |}
]%string.

Definition TRAINER_CONFIG : BossConfig := {|
  cfg_base := {|
    cfg_type := BOSS;
    cfg_health := 1000;
    cfg_armor := 50;
    cfg_damage := 25;
    cfg_movement := {|
      walkSpeed := 2; runSpeed := 45#10; patrolSpeed := 3#2;
      rotationSpeed := 6; acceleration := 8; deceleration := 10;
      minDistance := 5; maxDistance := 25; retreatDistance := 2#10 |};
    cfg_perception := {|
      opt_hasLineOfSight := None; opt_distanceToTarget := None;
      opt_lastSeenTime := None; opt_hearingRange := Some 50;
      opt_viewAngle := Some (Math_PI * (7#10));
      opt_viewDistance := Some 60 |};
    cfg_patrolPoints := None;
    cfg_coverSpots := None |};
  cfg_phases := TRAINER_PHASES;
  cfg_enrageThreshold := 2#10;
  cfg_enrageEffects :=
    Some {| enrage_damageMultiplier := 15#10;
            enrage_speedMultiplier := 13#10 |};
  cfg_introDialogue := Some ["intro 1"; "intro 2"; "intro 3"]%string;
  cfg_victoryDialogue := Some ["victory 1"; "victory 2"; "victory 3"]%string
|}.

(** [new Trainer(id, name)]: the boss built from [TRAINER_CONFIG]. *)
Definition new (id name : string) : option BossBase :=
  Boss.new id name TRAINER_CONFIG.

End Config.

End Trainer.

(** ** Calls made by the host, and a runtime to evaluate them on *)

Module Host.

Import AI.

(** A runtime to evaluate the code on concrete inputs, with rational
    stand-ins for the irrational functions: taxicab length, distance and
    normalisation, a zero angle, no rotation.  On the inputs used below
    (an entity at the origin that has not turned, a target straight ahead
    on the z axis) these are the values of the real functions. *)
Definition taxicabLength (v : Vector3) : Q :=
  Qabs (v_x v) + Qabs (v_y v) + Qabs (v_z v).

Definition taxicab : Runtime := {|
  v3_length := taxicabLength;
  v3_normalize := fun v =>
    if Qeq_bool (taxicabLength v) 0 then v
    else multiplyScalar v (/ taxicabLength v);
  v3_distanceTo := fun a b => taxicabLength (subVectors a b);
  v3_angleTo := fun _ _ => 0;
  v3_applyEuler := fun v _ => v;
  MathUtils_lerp := fun a b t => (1 - t) * a + t * b;
  Math_atan2 := fun _ _ => 0;
  Math_PI := 355 # 113;
  Math_random := fun _ => 1 # 2
|}.

(** A configuration with the given type, health and armour and default
    tuning elsewhere. *)
Definition plainConfig (type : AICharacterType) (health armor : Q)
  : AIConfig := {|
  cfg_type := type;
  cfg_health := health;
  cfg_armor := armor;
  cfg_damage := 10;
  cfg_movement := DEFAULT_MOVEMENT;
  cfg_perception := {|
    opt_hasLineOfSight := None; opt_distanceToTarget := None;
    opt_lastSeenTime := None; opt_hearingRange := None;
    opt_viewAngle := None; opt_viewDistance := None |};
  cfg_patrolPoints := None;
  cfg_coverSpots := None |}.

(** The public calls on a plain entity that the properties range over. *)
Inductive EntityCall :=
| TakeDamage (amount : Q) (source : option Object3D)
| Update (deltaTime now : Q)
| Stun (duration : Q)
| Die.

(** The public calls on a boss. *)
Inductive BossCall :=
| BossTakeDamage (amount : Q) (source : option Object3D)
| BossUpdate (deltaTime now : Q)
| BossStun (duration : Q)
| BossDie
| BossPerformSpecialAttack (attackName : string)
| BossReset.

Definition isReset (c : BossCall) : bool :=
  match c with BossReset => true | _ => false end.

Section Calls.

Context {rt : Runtime}.

Definition call (c : EntityCall) (e : AICharacter) : AICharacter :=
  match c with
  | TakeDamage amount source => takeDamage amount source e
  | Update deltaTime now => update deltaTime now e
  | Stun duration => stun duration e
  | Die => die e
  end.

Definition run (cs : list EntityCall) (e : AICharacter) : AICharacter :=
  fold_left (fun e c => call c e) cs e.

Definition bossCall (c : BossCall) (b : Boss.BossBase) : Boss.BossBase :=
  match c with
  | BossTakeDamage amount source => Boss.takeDamage amount source b
  | BossUpdate deltaTime now => Boss.update deltaTime now b
  | BossStun duration => Boss.on_base (stun duration) b
  | BossDie => Boss.die b
  | BossPerformSpecialAttack attackName => Boss.performSpecialAttack attackName b
  | BossReset => Boss.reset b
  end.

Definition bossRun (cs : list BossCall) (b : Boss.BossBase) : Boss.BossBase :=
  fold_left (fun b c => bossCall c b) cs b.

(** The boss a constructor call returned; [unbuilt], a boss with no phase,
    stands in when the call threw. *)
Definition unbuilt : Boss.BossBase := {|
  Boss.base := set_characterType BOSS (AI.new "" "" (plainConfig BOSS 0 0));
  Boss.phases := [];
  Boss.currentPhaseIndex := O;
  Boss.phaseHealthThresholds := [];
  Boss.isEnraged := false;
  Boss.enrageThreshold := 2#10;
  Boss.enrageEffects :=
    {| Boss.enrage_damageMultiplier := 15#10;
       Boss.enrage_speedMultiplier := 13#10 |};
  Boss.specialAttackCooldown := 0;
  Boss.currentSpecialAttack := None;
  Boss.isPerformingSpecial := false;
  Boss.hitCount := 0%Z;
  Boss.hitThreshold := 10%Z;
  Boss.introDialogue := [];
  Boss.victoryDialogue := [] |}.

Definition built (o : option Boss.BossBase) : Boss.BossBase :=
  orDefault o unbuilt.

(** A soldier at the origin with a target 10 units ahead, in range. *)
Definition soldierWithTarget : SoldierAI.Soldier :=
  SoldierAI.on_base
    (setTarget
       (Some {| obj_name := "player"; obj_position := vec3 0 0 10 |}) 0)
    (SoldierAI.new "s1" "soldier" None None).

(** Calls of [performBurstFire] at the given clock readings. *)
Definition burstFireAt (times : list Q) (s : SoldierAI.Soldier)
  : SoldierAI.Soldier :=
  fold_left (fun s now => SoldierAI.performBurstFire now s) times s.

(** The two-phase boss of Trainer.ts. *)
Definition trainer : Boss.BossBase := built (Trainer.new "boss1" "trainer").

End Calls.

End Host.

(** ** Vocabulary of the properties *)

Module Spec.

Import AI Host.


Definition inRange (h m : Q) : Prop := 0 <= h /\ h <= m.


(** The same, except that the on-damage callbacks are only promised the
    upper bound. *)
Definition observedWell (ev : Event) : Prop :=
  match ev with
  | DamageCallbacks _ _ s => seen_health s <= seen_maxHealth s
  | DeathCallbacks s => inRange (seen_health s) (seen_maxHealth s)
  | StateChangeCallbacks _ _ s => inRange (seen_health s) (seen_maxHealth s)
  | DefeatEvent s => inRange (seen_health s) (seen_maxHealth s)
  | _ => True
  end.

Definition healthKept (e : AICharacter) : Prop :=
  inRange (health e) (maxHealth e) /\ Forall observedWell (log e).


(** How many times the on-death callbacks were fired. *)
Fixpoint deathCount (l : list Event) : nat :=
  match l with
  | [] => O
  | DeathCallbacks _ :: r => S (deathCount r)
  | _ :: r => deathCount r
  end.

(** What the armour takes of a hit, and what is left for health. *)
Definition absorbed (e : AICharacter) (amount : Q) : Q :=
  if gtb (armor e) 0 then Qmin (armor e) (amount * (1#2)) else 0.

Definition remainder (e : AICharacter) (amount : Q) : Q :=
  amount - absorbed e amount.

Section Calls.

Context {rt : Runtime}.

(** The two ends of [takeDamage]: the entity when the on-damage callbacks
    have been called, and the search for cover that closes the call. *)
Definition struck (amount : Q) (source : option Object3D) (e : AICharacter)
  : AICharacter :=
  let damage := amount in
  let (e, damage) :=
    if gtb (armor e) 0 then
      let armorDamage := Qmin (armor e) (damage * (1#2)) in
      (set_armor (armor e - armorDamage) e, damage - armorDamage)
    else (e, damage) in
  let e := set_health (health e - damage) e in
  fire (DamageCallbacks amount source (see e)) e.

Definition coverIfArmoredSoldier (e : AICharacter) : AICharacter :=
  if gtb (armor e) 0 && AICharacterType_beq (characterType e) SOLDIER then
    match findNearestCover e with
    | Some cover => setState COVER (set_currentCoverSpot (Some cover) e)
    | None => e
    end
  else e.

(** A run of [takeDamage] calls. *)
Definition hits (l : list (Q * option Object3D)) (e : AICharacter)
  : AICharacter :=
  fold_left (fun e h => takeDamage (fst h) (snd h) e) l e.

(** A run of [update] calls. *)
Definition ticks (l : list (Q * Q)) (e : AICharacter) : AICharacter :=
  fold_left (fun e t => update (fst t) (snd t) e) l e.

End Calls.

(** Time elapsed over a run of ticks, each a pair of [deltaTime] and the
    clock reading. *)
Definition elapsed (l : list (Q * Q)) : Q :=
  fold_right (fun t acc => fst t + acc) 0 l.

(** The stun timer after a run of ticks that started with [t] left. *)
Definition timerAfter (l : list (Q * Q)) (t : Q) : Q :=
  fold_left (fun t x => t - fst x) l t.

(** A stun of [d] seconds is still running after each tick of [l]: the
    time elapsed up to and including any of them is less than [d]. *)
Definition stillRunning (d : Q) (l : list (Q * Q)) : Prop :=
  forall k, (1 <= k <= List.length l)%nat -> elapsed (firstn k l) < d.

(** The timer's arithmetic is exact over a run of ticks that starts with
    [d] left: the frame times are binary64 numbers, and so is the timer
    at the start and after each tick.  On such a run the subtractions of
    the code return what [timerAfter] computes. *)
Definition exactTimer (d : Q) (l : list (Q * Q)) : Prop :=
  Forall (fun t => binary64 (fst t)) l
  /\ forall k, (k <= List.length l)%nat ->
       binary64 (timerAfter (firstn k l) d).

(** The same on the code's own numbers: the timer after [stunTime -=
    deltaTime] for each frame time of [l], and the frame times added up,
    both in binary64 arithmetic. *)
Definition timerAfter64 (l : list float) (t : float) : float :=
  fold_left PrimFloat.sub l t.

Definition elapsed64 (l : list float) : float :=
  fold_left PrimFloat.add l 0%float.

(** The stun scenario as the document states it, for an entity [e]
    stunned for [d] seconds, ticked through [l] while the stun runs and
    then once more by [last], which brings the time elapsed to [d]. *)
Definition stunGivesStateBack {rt : Runtime} (e : AICharacter) (d : Q)
  (l : list (Q * Q)) (last : Q * Q) : Prop :=
  state e <> STUNNED -> 0 < d ->
  stillRunning d l -> d <= elapsed l + fst last ->
  state (ticks (l ++ [last]) (stun d e)) = state e.





(** What no call on a boss changes: its phase list, its thresholds and
    its maxHealth. *)
Definition sameFrame (b b' : Boss.BossBase) : Prop :=
  Boss.phases b' = Boss.phases b
  /\ Boss.phaseHealthThresholds b' = Boss.phaseHealthThresholds b
  /\ maxHealth (Boss.base b') = maxHealth (Boss.base b).

(** What the soldier's movement, firing and grenade code leaves alone: the
    behavioural state, health, maxHealth, liveness, the movement tuning,
    the suppression timer, and the number of times the on-death callbacks
    were fired. *)
Definition sameStance (s s' : SoldierAI.Soldier) : Prop :=
  state (SoldierAI.base s') = state (SoldierAI.base s)
  /\ health (SoldierAI.base s') = health (SoldierAI.base s)
  /\ maxHealth (SoldierAI.base s') = maxHealth (SoldierAI.base s)
  /\ isAlive (SoldierAI.base s') = isAlive (SoldierAI.base s)
  /\ movementConfig (SoldierAI.base s') = movementConfig (SoldierAI.base s)
  /\ SoldierAI.suppressTimer s' = SoldierAI.suppressTimer s
  /\ deathCount (log (SoldierAI.base s'))
     = deathCount (log (SoldierAI.base s)).


(** Runs of [takeDamage] calls on a soldier and on a boss. *)
Definition soldierHits {rt : Runtime} (l : list (Q * option Object3D))
  (s : SoldierAI.Soldier) : SoldierAI.Soldier :=
  fold_left (fun s h => SoldierAI.takeDamage (fst h) (snd h) s) l s.

Definition bossHits {rt : Runtime} (l : list (Q * option Object3D))
  (b : Boss.BossBase) : Boss.BossBase :=
  fold_left (fun b h => Boss.takeDamage (fst h) (snd h) b) l b.

(** How many shots were announced. *)
Fixpoint shotCount (l : list Event) : nat :=
  match l with
  | [] => O
  | AttackAnnounced :: r => S (shotCount r)
  | _ :: r => shotCount r
  end.

End Spec.


(** ** Vocabulary of the further properties *)

Module TreeShape.

Import BT.

(** Every leaf of the tree keeps [R]: run from a world [w], a condition
    or an action ends in a world that [R] relates to [w]. *)
Fixpoint leavesKeep {W : Type} (R : W -> W -> Prop) (n : BTNode W) : Prop :=
  match n with
  | BTSequence _ children =>
      (fix all (cs : list (BTNode W)) : Prop :=
         match cs with
         | [] => True
         | c :: rest => leavesKeep R c /\ all rest
         end) children
  | BTSelector _ children =>
      (fix all (cs : list (BTNode W)) : Prop :=
         match cs with
         | [] => True
         | c :: rest => leavesKeep R c /\ all rest
         end) children
  | BTCondition _ condition => forall w, R w (fst (condition w))
  | BTAction _ action => forall w, R w (fst (action w))
  | BTDecorator _ _ child _ => leavesKeep R child
  end.

(** Each child under an Inverter of its own. *)
Definition inverted {W : Type} (cs : list (BTNode W)) : list (BTNode W) :=
  map (fun c => BTDecorator "not" INVERTER c []) cs.

End TreeShape.


Module EntityShape.

Import AI.

(** Nothing was fired between [e] and [e']: the time of the last attack
    and the number of announced attacks are the same. *)
Definition holdsFire (e e' : AICharacter) : Prop :=
  lastAttackTime e' = lastAttackTime e
  /\ Spec.shotCount (log e') = Spec.shotCount (log e).

(** The patrol cursor points into the route and the direction is one step
    forward or one step back. *)
Definition patrolInBounds (e : AICharacter) : Prop :=
  (0 <= currentPatrolIndex e < Z.of_nat (List.length (patrolPoints e)))%Z
  /\ (patrolDirection e = 1%Z \/ patrolDirection e = (-1)%Z).

(** From [e] to [e'] the route is the same list of points, and a cursor
    that was on the route still is. *)
Definition onRoute (e e' : AICharacter) : Prop :=
  patrolPoints e' = patrolPoints e
  /\ (patrolInBounds e -> patrolInBounds e').

(** From [e] to [e'] the entity has not moved and has the mesh it had. *)
Definition unmoved (e e' : AICharacter) : Prop :=
  mesh e' = mesh e /\ position e' = position e.

(** From [e] to [e'] the height is the same, and an entity without a
    mesh is where it was, still without a mesh. *)
Definition grounded (e e' : AICharacter) : Prop :=
  v_y (position e') = v_y (position e)
  /\ (mesh e = None -> mesh e' = None /\ position e' = position e).

(** How many passes over the on-state-change callbacks the log holds. *)
Fixpoint stateChangeCount (l : list Event) : nat :=
  match l with
  | [] => O
  | StateChangeCallbacks _ _ _ :: r => S (stateChangeCount r)
  | _ :: r => stateChangeCount r
  end.

End EntityShape.


(** * Sample entities *)

Module Samples.

Import AI Host.

(** A grunt that patrols between two points on the x axis. *)
Definition patrolConfig : AIConfig := {|
  cfg_type := GRUNT;
  cfg_health := 100;
  cfg_armor := 0;
  cfg_damage := 10;
  cfg_movement := DEFAULT_MOVEMENT;
  cfg_perception := {|
    opt_hasLineOfSight := None; opt_distanceToTarget := None;
    opt_lastSeenTime := None; opt_hearingRange := None;
    opt_viewAngle := None; opt_viewDistance := None |};
  cfg_patrolPoints := Some [vec3 0 0 0; vec3 5 0 0];
  cfg_coverSpots := None |}.

Definition patroller : AICharacter :=
  AI.new (rt := taxicab) "g1" "patroller" patrolConfig.

(** [entity.patrolPoints = v], an assignment from outside the class to
    the public field. *)
Definition assignPatrolPoints (v : list Vector3) (e : AICharacter)
  : AICharacter :=
  Build_AICharacter (id e) (name e) (characterType e) (mesh e) (position e)
    (rotation e) (velocity e) (targetPosition e) (health e) (maxHealth e)
    (armor e) (damage e) (state e) (previousState e) (isAlive e)
    (isStunned e) (stunTime e) (target e) (lastKnownTargetPosition e)
    (movementConfig e) (perception e) v (currentPatrolIndex e)
    (patrolWaitTime e) (patrolDirection e) (coverSpots e)
    (currentCoverSpot e) (coverTimer e) (attackCooldown e) (attackRate e)
    (lastAttackTime e) (log e).

(** A soldier that has been given the same two patrol points. *)
Definition patrollingSoldier : SoldierAI.Soldier :=
  SoldierAI.on_base (assignPatrolPoints [vec3 0 0 0; vec3 5 0 0])
    (SoldierAI.new (rt := taxicab) "s2" "sentry" None None).

End Samples.


(** * Shapes of soldiers *)

Module SoldierShape.

Import AI SoldierAI.

(** [Soldier.performAttack] would announce a shot: the soldier is alive
    and has a target no farther than [maxDistance]. *)
Definition hasShot {rt : Runtime} (s : Soldier) : bool :=
  match target (base s) with
  | None => false
  | Some t =>
      isAlive (base s)
      && negb (gtb (v3_distanceTo (position (base s)) (obj_position t))
                 (maxDistance (movementConfig (base s))))
  end.

(** The burst counter as [performBurstFire] starts from it: refilled when
    it has run out. *)
Definition refilled (s : Soldier) : Z :=
  if (burstCount s <=? 0)%Z then burstSize s else burstCount s.

(** The score [selectBestCover] gives the cover spot [coverPos] when it
    is the [i]-th spot looked at: nearness to the soldier, distance of the
    spot from the target beyond [maxDistance], and a quality drawn at
    random. *)
Definition coverQuality {rt : Runtime} (s : Soldier) (i : nat) : Q :=
  (1#2) + Math_random (draws s + i) * (1#2).

Definition coverScore {rt : Runtime} (s : Soldier) (t : Object3D) (i : nat)
  (coverPos : Vector3) : Q :=
  (10 - v3_distanceTo (position (base s)) coverPos) * (3#10)
  + (v3_distanceTo coverPos (obj_position t)
     - maxDistance (movementConfig (base s))) * (1#2)
  + coverQuality s i * (2#10).

End SoldierShape.


(** * Shapes of bosses *)

Module BossShape.

Import AI Boss Host.








(** What the entity-level code leaves alone in a boss. *)
Definition sameGear (e e' : AICharacter) : Prop :=
  damage e' = damage e /\ movementConfig e' = movementConfig e.

Definition sameTuning (b b' : BossBase) : Prop :=
  phases b' = phases b
  /\ currentPhaseIndex b' = currentPhaseIndex b
  /\ isEnraged b' = isEnraged b
  /\ enrageEffects b' = enrageEffects b
  /\ sameGear (base b) (base b').

(** How many times the enrage event was fired. *)
Fixpoint enrageCount (l : list Event) : nat :=
  match l with
  | [] => O
  | EnrageEvent :: r => S (enrageCount r)
  | _ :: r => enrageCount r
  end.

(** How many phase changes were announced. *)
Fixpoint phaseChangeCount (l : list Event) : nat :=
  match l with
  | [] => O
  | PhaseChangeEvent _ _ :: r => S (phaseChangeCount r)
  | _ :: r => phaseChangeCount r
  end.

(** How many special attacks were announced. *)
Fixpoint specialAttackCount (l : list Event) : nat :=
  match l with
  | [] => O
  | SpecialAttackEvent _ :: r => S (specialAttackCount r)
  | _ :: r => specialAttackCount r
  end.

(** The entries the entity-level code writes: passes over the callback
    lists and the defeat event. *)
Definition isEntityEvent (ev : Event) : Prop :=
  match ev with
  | DamageCallbacks _ _ _ | DeathCallbacks _ | StateChangeCallbacks _ _ _
  | DefeatEvent _ => True
  | _ => False
  end.

(** From [e] to [e'] the log only grew, by entity-level entries. *)
Definition quiet (e e' : AICharacter) : Prop :=
  exists l, log e' = l ++ log e /\ Forall isEntityEvent l.

(** The log of a boss tells its phase and whether it is enraged: one
    phase-change event per phase passed, one enrage event if enraged. *)
Definition logMatchesState (b : BossBase) : Prop :=
  enrageCount (log (base b)) = (if isEnraged b then 1 else 0)%nat
  /\ phaseChangeCount (log (base b)) = currentPhaseIndex b.

(** From [b] to [b'] the special attack under way, if any, is the same,
    and no special attack was announced. *)
Definition specialKept (b b' : BossBase) : Prop :=
  isPerformingSpecial b' = isPerformingSpecial b
  /\ currentSpecialAttack b' = currentSpecialAttack b
  /\ specialAttackCount (log (base b'))
     = specialAttackCount (log (base b)).

Definition noReset (cs : list BossCall) : Prop :=
  forallb (fun c => negb (isReset c)) cs = true.

End BossShape.


(** * Enemy/Grunt.ts *)

Module GruntAI.

Import AI.

(** The lines the grunt writes to the console: a scratch with its damage,
    a screech, and the notice that it is enraged. *)
Inductive Line := ScratchLine (damage : Q) | ScreechLine | EnragedLine.

(** A grunt: the entity it extends ([base]) and its own fields;
    [console] holds the lines written so far, newest first.  The grunt's
    [update] replaces the inherited one, so its tree is never run. *)
Record Grunt := {
  base : AICharacter;
  isEnraged : bool;
  screechCooldown : Q;
  console : list Line
}.

Definition set_base (v : AICharacter) (g : Grunt) : Grunt :=
  Build_Grunt v (isEnraged g) (screechCooldown g) (console g).
Definition set_isEnraged (v : bool) (g : Grunt) : Grunt :=
  Build_Grunt (base g) v (screechCooldown g) (console g).
Definition set_screechCooldown (v : Q) (g : Grunt) : Grunt :=
  Build_Grunt (base g) (isEnraged g) v (console g).
Definition set_console (v : list Line) (g : Grunt) : Grunt :=
  Build_Grunt (base g) (isEnraged g) (screechCooldown g) v.

Definition on_base (f : AICharacter -> AICharacter) (g : Grunt) : Grunt :=
  set_base (f (base g)) g.

(** [console.log(...)] *)
Definition say (l : Line) (g : Grunt) : Grunt :=
  set_console (l :: console g) g.

Section Methods.

Context {rt : Runtime}.

Definition GRUNT_CONFIG : AIConfig := {|
  cfg_type := GRUNT;
  cfg_health := 50;
  cfg_armor := 0;
  cfg_damage := 10;
  cfg_movement := {|
    walkSpeed := 3; runSpeed := 55#10; patrolSpeed := 1; rotationSpeed := 3;
    acceleration := 15; deceleration := 10; minDistance := 15#10;
    maxDistance := 25; retreatDistance := 1#10 |};
  cfg_perception := {|
    opt_hasLineOfSight := None; opt_distanceToTarget := None;
    opt_lastSeenTime := None; opt_hearingRange := Some 25;
    opt_viewAngle := Some (Math_PI / 2); opt_viewDistance := Some 30 |};
  cfg_patrolPoints := None;
  cfg_coverSpots := None |}.

(** [constructor(id, name, position?)] *)
Definition new (id name : string) (position : option Vector3) : Grunt :=
  let e := AI.new id name GRUNT_CONFIG in
  let e := match position with Some p => set_position p e | None => e end in
  {| base := e; isEnraged := false; screechCooldown := 0; console := [] |}.

(** Turning toward [direction] and moving along it: [rotation.y] is
    eased toward the heading, [velocity.x] and [velocity.z] are set. *)
Definition turn (direction : Vector3) (deltaTime : Q) (e : AICharacter)
  : AICharacter :=
  let targetRotation := Math_atan2 (v_x direction) (v_z direction) in
  let r := rotation e in
  set_rotation
    (euler (e_x r)
       (MathUtils_lerp (e_y r) targetRotation
          (rotationSpeed (movementConfig e) * deltaTime))
       (e_z r)) e.

Definition push (direction : Vector3) (speed : Q) (e : AICharacter)
  : AICharacter :=
  set_velocity
    (vec3 (v_x direction * speed) (v_y (velocity e)) (v_z direction * speed))
    e.

Definition chase (deltaTime : Q) (g : Grunt) : Grunt :=
  match target (base g) with
  | None => g
  | Some t =>
      let direction :=
        v3_normalize
          (set_y (subVectors (obj_position t) (position (base g))) 0) in
      let g := on_base (turn direction deltaTime) g in
      let speed :=
        if isEnraged g then runSpeed (movementConfig (base g)) * (15#10)
        else runSpeed (movementConfig (base g)) in
      on_base (push direction speed) g
  end.

Definition screech (g : Grunt) : Grunt :=
  say ScreechLine (set_screechCooldown 5 g).

(** [Grunt.performAttack]: a scratch when the target is within
    [minDistance + 1], and a screech with it when enraged and off
    cooldown. *)
Definition performAttack (g : Grunt) : Grunt :=
  match target (base g) with
  | None => g
  | Some t =>
      if negb (isAlive (base g)) then g
      else
        let distance := v3_distanceTo (position (base g)) (obj_position t) in
        if gtb distance (minDistance (movementConfig (base g)) + 1) then g
        else
          let g := say (ScratchLine (damage (base g))) g in
          if isEnraged g && leb (screechCooldown g) 0 then screech g else g
  end.

Definition attack (deltaTime now : Q) (g : Grunt) : Grunt :=
  let g := on_base (setState ATTACK) g in
  let attackInterval := if isEnraged g then 500 else 1000 in
  if gtb (now - lastAttackTime (base g)) attackInterval then
    let g := performAttack g in
    on_base (set_lastAttackTime now) g
  else g.

(** The mesh branch of [enterEnraged] is empty. *)
Definition enterEnraged (g : Grunt) : Grunt :=
  say EnragedLine (set_isEnraged true g).

Definition executeGruntAI (deltaTime now : Q) (g : Grunt) : Grunt :=
  let distance := distanceToTarget (perception (base g)) in
  if inf_ltb distance (Finite (minDistance (movementConfig (base g)))) then
    let g := on_base (setState ATTACK) g in
    attack deltaTime now g
  else if inf_gtb distance
            (Finite (maxDistance (movementConfig (base g)) * (7#10))) then
    let g := on_base (setState CHASE) g in
    chase deltaTime g
  else
    let g := on_base (setState CHASE) g in
    let g := chase deltaTime g in
    if inf_ltb distance (Finite (minDistance (movementConfig (base g)) + 2))
    then attack deltaTime now g
    else g.

(** [patrolPoints[currentPatrolIndex]] *)
Definition patrolPointAt (e : AICharacter) : option Vector3 :=
  if (currentPatrolIndex e <? 0)%Z then None
  else nth_error (patrolPoints e) (Z.to_nat (currentPatrolIndex e)).

(** [Grunt.executePatrol].  A cursor outside the array reads [undefined]
    and [distanceTo] throws.  [%] is the remainder of JavaScript, which
    rounds toward zero. *)
Definition executePatrol (deltaTime : Q) (g : Grunt)
  : SoldierAI.Outcome Grunt :=
  let g := on_base (setState PATROL) g in
  match patrolPoints (base g) with
  | [] => SoldierAI.Returned g
  | _ =>
      match patrolPointAt (base g) with
      | None => SoldierAI.Threw g
      | Some targetPoint =>
          let distance := v3_distanceTo (position (base g)) targetPoint in
          if ltb distance 1 then
            SoldierAI.Returned
              (on_base
                 (fun e =>
                    set_currentPatrolIndex
                      (Z.rem (currentPatrolIndex e + 1)
                         (Z.of_nat (List.length (patrolPoints e)))) e) g)
          else
            let direction :=
              v3_normalize
                (set_y (subVectors targetPoint (position (base g))) 0) in
            let g := on_base
                       (fun e =>
                          push direction (patrolSpeed (movementConfig e)) e)
                       g in
            SoldierAI.Returned (on_base (turn direction deltaTime) g)
      end
  end.

(** [Grunt.update].  The grunt's own [applyMovement] has the body of the
    inherited one. *)
Definition update (deltaTime now : Q) (g : Grunt) : SoldierAI.Outcome Grunt :=
  if negb (isAlive (base g)) then SoldierAI.Returned g
  else if isStunned (base g)
  then SoldierAI.Returned (on_base (updateStun deltaTime) g)
  else
    let g := if gtb (screechCooldown g) 0
             then set_screechCooldown (screechCooldown g - deltaTime) g
             else g in
    let g := if negb (isEnraged g)
                && ltb (health (base g)) (maxHealth (base g) * (3#10))
             then enterEnraged g
             else g in
    let g := on_base (updatePerception deltaTime now) g in
    let hasTarget :=
      match target (base g) with Some _ => true | None => false end in
    if hasTarget && hasLineOfSight (perception (base g)) then
      let g := executeGruntAI deltaTime now g in
      SoldierAI.Returned (on_base (applyMovement deltaTime) g)
    else
      match patrolPoints (base g) with
      | _ :: _ =>
          match executePatrol deltaTime g with
          | SoldierAI.Returned g =>
              SoldierAI.Returned (on_base (applyMovement deltaTime) g)
          | SoldierAI.Threw g => SoldierAI.Threw g
          end
      | [] =>
          let g := on_base (setState IDLE) g in
          SoldierAI.Returned (on_base (applyMovement deltaTime) g)
      end.

(** [takeDamage], [stun] and [die] are inherited. *)
Definition takeDamage (amount : Q) (source : option Object3D) (g : Grunt)
  : Grunt :=
  on_base (AI.takeDamage amount source) g.

End Methods.

End GruntAI.

(** * Shapes of grunts *)

Module GruntShape.

Import AI GruntAI.

(** The public calls on a grunt. *)
Inductive GruntCall :=
| GruntTakeDamage (amount : Q) (source : option Object3D)
| GruntUpdate (deltaTime now : Q)
| GruntStun (duration : Q)
| GruntDie.

Definition gruntCall {rt : Runtime} (c : GruntCall) (g : Grunt)
  : SoldierAI.Outcome Grunt :=
  match c with
  | GruntTakeDamage amount source =>
      SoldierAI.Returned (takeDamage amount source g)
  | GruntUpdate deltaTime now => update deltaTime now g
  | GruntStun duration => SoldierAI.Returned (on_base (stun duration) g)
  | GruntDie => SoldierAI.Returned (on_base die g)
  end.

(** A run of calls; a call that throws ends the run. *)
Fixpoint gruntRun {rt : Runtime} (cs : list GruntCall) (g : Grunt)
  : SoldierAI.Outcome Grunt :=
  match cs with
  | [] => SoldierAI.Returned g
  | c :: rest =>
      match gruntCall c g with
      | SoldierAI.Returned g' => gruntRun rest g'
      | SoldierAI.Threw g' => SoldierAI.Threw g'
      end
  end.

(** The patrol cursor is an index of the patrol points, or there are no
    patrol points. *)
Definition onCycle (e : AICharacter) : Prop :=
  patrolPoints e = []
  \/ (0 <= currentPatrolIndex e < Z.of_nat (List.length (patrolPoints e)))%Z.

(** From [e] to [e'] the patrol points and the cursor are the same. *)
Definition sameCursor (e e' : AICharacter) : Prop :=
  patrolPoints e' = patrolPoints e
  /\ currentPatrolIndex e' = currentPatrolIndex e.

(** Counts of console lines. *)
Fixpoint scratchCount (l : list Line) : nat :=
  match l with
  | [] => O
  | ScratchLine _ :: r => S (scratchCount r)
  | _ :: r => scratchCount r
  end.

Fixpoint screechCount (l : list Line) : nat :=
  match l with
  | [] => O
  | ScreechLine :: r => S (screechCount r)
  | _ :: r => screechCount r
  end.

Fixpoint enragedCount (l : list Line) : nat :=
  match l with
  | [] => O
  | EnragedLine :: r => S (enragedCount r)
  | _ :: r => enragedCount r
  end.

(** From [g] to [g'] the grunt is as enraged as it was, and no notice of
    enrage was written. *)
Definition sameMood (g g' : Grunt) : Prop :=
  isEnraged g' = isEnraged g
  /\ enragedCount (console g') = enragedCount (console g).

(** The grunt would scratch: it is alive and its target is within
    [minDistance + 1]. *)
Definition inReach {rt : Runtime} (g : Grunt) : bool :=
  match target (base g) with
  | None => false
  | Some t =>
      isAlive (base g)
      && negb (gtb (v3_distanceTo (position (base g)) (obj_position t))
                 (minDistance (movementConfig (base g)) + 1))
  end.

(** The time a grunt lets pass between attacks, in milliseconds. *)
Definition attackInterval (g : Grunt) : Q :=
  if isEnraged g then 500 else 1000.

End GruntShape.


(** * Sample grunts *)

Module GruntSamples.

Import AI Host.

(** A grunt that has been given two patrol points. *)
Definition patrollingGrunt : GruntAI.Grunt :=
  GruntAI.on_base (Samples.assignPatrolPoints [vec3 0 0 0; vec3 5 0 0])
    (GruntAI.new (rt := taxicab) "g2" "Mutant" None).

(** A grunt at the origin with a target 2 units ahead, in reach. *)
Definition gruntWithTarget : GruntAI.Grunt :=
  GruntAI.on_base
    (setTarget (Some {| obj_name := "player"; obj_position := vec3 0 0 2 |}) 0)
    (GruntAI.new (rt := taxicab) "g3" "Mutant" None).

End GruntSamples.


(** * Boss/Trainer.ts: the trainer's behaviour *)

Module TrainerAI.

Import AI Boss.

(** The lines the trainer writes to the console from the code run by
    [update]: a shot with its final damage, and an idle action. *)
Inductive Line := ShotLine (finalDamage : Q) | IdleLine (action : string).

(** A trainer: the boss it extends ([boss]) and the fields of its own
    that the code run by [update] reads or writes.  [draws] counts the
    [Math.random()] calls made so far on its behalf; [console] holds the
    lines written, newest first.  The tree built by
    [setupTrainerBehaviorTree] is stored in [behaviorTree], which
    [BossBase.update] never runs; the methods only that tree calls
    (demonstration, teaching tip, duel invitation, combo attack,
    flashbang, enrage attack) and their fields are left out. *)
Record Trainer := {
  boss : BossBase;
  comboCount : Z;
  comboWindow : Q;
  flashbangCooldown : Q;
  teachingTimer : Q;
  currentAnimation : string;
  animationTimer : Q;
  draws : nat;
  console : list Line
}.

Definition set_boss (v : BossBase) (t : Trainer) : Trainer :=
  Build_Trainer v (comboCount t) (comboWindow t) (flashbangCooldown t)
    (teachingTimer t) (currentAnimation t) (animationTimer t) (draws t)
    (console t).
Definition set_comboCount (v : Z) (t : Trainer) : Trainer :=
  Build_Trainer (boss t) v (comboWindow t) (flashbangCooldown t)
    (teachingTimer t) (currentAnimation t) (animationTimer t) (draws t)
    (console t).
Definition set_comboWindow (v : Q) (t : Trainer) : Trainer :=
  Build_Trainer (boss t) (comboCount t) v (flashbangCooldown t)
    (teachingTimer t) (currentAnimation t) (animationTimer t) (draws t)
    (console t).
Definition set_flashbangCooldown (v : Q) (t : Trainer) : Trainer :=
  Build_Trainer (boss t) (comboCount t) (comboWindow t) v
    (teachingTimer t) (currentAnimation t) (animationTimer t) (draws t)
    (console t).
Definition set_teachingTimer (v : Q) (t : Trainer) : Trainer :=
  Build_Trainer (boss t) (comboCount t) (comboWindow t) (flashbangCooldown t)
    v (currentAnimation t) (animationTimer t) (draws t) (console t).
Definition set_currentAnimation (v : string) (t : Trainer) : Trainer :=
  Build_Trainer (boss t) (comboCount t) (comboWindow t) (flashbangCooldown t)
    (teachingTimer t) v (animationTimer t) (draws t) (console t).
Definition set_animationTimer (v : Q) (t : Trainer) : Trainer :=
  Build_Trainer (boss t) (comboCount t) (comboWindow t) (flashbangCooldown t)
    (teachingTimer t) (currentAnimation t) v (draws t) (console t).
Definition set_draws (v : nat) (t : Trainer) : Trainer :=
  Build_Trainer (boss t) (comboCount t) (comboWindow t) (flashbangCooldown t)
    (teachingTimer t) (currentAnimation t) (animationTimer t) v (console t).
Definition set_console (v : list Line) (t : Trainer) : Trainer :=
  Build_Trainer (boss t) (comboCount t) (comboWindow t) (flashbangCooldown t)
    (teachingTimer t) (currentAnimation t) (animationTimer t) (draws t) v.

Definition on_boss (f : BossBase -> BossBase) (t : Trainer) : Trainer :=
  set_boss (f (boss t)) t.

Definition on_entity (f : AICharacter -> AICharacter) (t : Trainer)
  : Trainer :=
  on_boss (Boss.on_base f) t.

(** The entity at the bottom of the class chain. *)
Definition entity (t : Trainer) : AICharacter := base (boss t).

(** [console.log(...)] *)
Definition say (l : Line) (t : Trainer) : Trainer :=
  set_console (l :: console t) t.

Section Methods.

Context {rt : Runtime}.

(** [Math.random()]: the next draw of the stream. *)
Definition random (t : Trainer) : Q * Trainer :=
  (Math_random (draws t), set_draws (S (draws t)) t).

(** [new Trainer(id, name)]; the field initialisers run once
    [BossBase]'s constructor has returned. *)
Definition new (id name : string) : option Trainer :=
  match Trainer.new id name with
  | None => None
  | Some b =>
      Some {| boss := b; comboCount := 0%Z; comboWindow := 0;
              flashbangCooldown := 0; teachingTimer := 0;
              currentAnimation := "idle"; animationTimer := 0;
              draws := O; console := [] |}
  end.

Definition moveTowardPlayer (speed : Q) (t : Trainer) : Trainer :=
  match target (entity t) with
  | None => t
  | Some tg =>
      let direction :=
        set_y (subVectors (obj_position tg) (position (entity t))) 0 in
      if gtb (v3_length direction) (1#10) then
        let direction := v3_normalize direction in
        on_entity (SoldierAI.turnAndMove direction speed) t
      else t
  end.

Definition retreatFromPlayer (t : Trainer) : Trainer :=
  match target (entity t) with
  | None => t
  | Some tg =>
      let direction :=
        v3_normalize
          (set_y (subVectors (position (entity t)) (obj_position tg)) 0) in
      on_entity
        (fun e =>
           SoldierAI.turnAndMove direction (walkSpeed (movementConfig e)) e)
        t
  end.

(** [toTarget.normalize()] changes [toTarget] in place, after [lateral]
    has been computed from it. *)
Definition tacticalMovement (deltaTime : Q) (t : Trainer) : Trainer :=
  match target (entity t) with
  | None => t
  | Some tg =>
      let toTarget :=
        set_y (subVectors (obj_position tg) (position (entity t))) 0 in
      let lateral :=
        v3_normalize (vec3 (- v_z toTarget) 0 (v_x toTarget)) in
      let forward := v3_normalize toTarget in
      let (r, t) := random t in
      let direction := if gtb r (1#2) then lateral else negate lateral in
      let direction := multiplyScalar direction (3#10) in
      let direction := addV direction (multiplyScalar forward (7#10)) in
      let direction := v3_normalize direction in
      let t := on_entity (GruntAI.turn direction deltaTime) t in
      on_entity
        (fun e => GruntAI.push direction (walkSpeed (movementConfig e)) e) t
  end.

(** [actions[Math.floor(Math.random() * actions.length)]]; a draw
    outside [0, 1) misses the array and reads [undefined]. *)
Definition performIdleDemonstration (deltaTime : Q) (t : Trainer) : Trainer :=
  if leb (animationTimer t) 0 then
    let actions := ["aim"; "check_weapon"; "stretch"; "turn"]%string in
    let (r, t) := random t in
    let index := Qfloor (r * 4) in
    let action :=
      if (index <? 0)%Z then "undefined"%string
      else nth (Z.to_nat index) actions "undefined"%string in
    let t := set_currentAnimation action t in
    let t := set_animationTimer (15#10) t in
    say (IdleLine action) t
  else t.

(** [Trainer.performAttack]: the shot, with the enrage and combo
    bonuses on top of [this.damage]. *)
Definition performAttack (t : Trainer) : Trainer :=
  match target (entity t) with
  | None => t
  | Some tg =>
      if negb (isAlive (entity t)) then t
      else
        let distance := v3_distanceTo (position (entity t)) (obj_position tg) in
        if gtb distance (maxDistance (movementConfig (entity t))) then t
        else
          let finalDamage := damage (entity t) in
          let finalDamage :=
            if isEnraged (boss t)
            then finalDamage * enrage_damageMultiplier (enrageEffects (boss t))
            else finalDamage in
          let finalDamage :=
            if (0 <? comboCount t)%Z
            then finalDamage * (1 + inject_Z (comboCount t) * (2#10))
            else finalDamage in
          say (ShotLine finalDamage) t
  end.

Definition comboAttack (t : Trainer) : Trainer :=
  let t := performAttack t in
  let t := set_comboCount (comboCount t + 1)%Z t in
  set_comboWindow 2 t.

Definition executeTrainingAI (deltaTime : Q) (t : Trainer) : Trainer :=
  let t := set_teachingTimer (teachingTimer t - deltaTime) t in
  let distance := distanceToTarget (perception (entity t)) in
  if inf_gtb distance
       (Finite (maxDistance (movementConfig (entity t)) * (8#10))) then
    let t := on_entity (setState CHASE) t in
    moveTowardPlayer (walkSpeed (movementConfig (entity t))) t
  else if inf_ltb distance
            (Finite (minDistance (movementConfig (entity t)) * 2)) then
    let t := on_entity (setState RETREAT) t in
    retreatFromPlayer t
  else
    let t := on_entity (setState IDLE) t in
    performIdleDemonstration deltaTime t.

(** The two timers at the head of [executeCombatAI]: the combo window,
    which clears the combo counter when it runs out, and the flashbang
    cooldown. *)
Definition tickComboWindow (deltaTime : Q) (t : Trainer) : Trainer :=
  if gtb (comboWindow t) 0 then
    let t := set_comboWindow (comboWindow t - deltaTime) t in
    if leb (comboWindow t) 0 then set_comboCount 0%Z t else t
  else t.

Definition tickFlashbangCooldown (deltaTime : Q) (t : Trainer) : Trainer :=
  if gtb (flashbangCooldown t) 0
  then set_flashbangCooldown (flashbangCooldown t - deltaTime) t
  else t.

Definition executeCombatAI (deltaTime : Q) (t : Trainer) : Trainer :=
  let distance := distanceToTarget (perception (entity t)) in
  let t := tickComboWindow deltaTime t in
  let t := tickFlashbangCooldown deltaTime t in
  if isEnraged (boss t) then
    let t := on_entity (setState CHASE) t in
    let t := moveTowardPlayer (runSpeed (movementConfig (entity t))) t in
    let (r, t) := random t in
    if ltb r (2#100)
    then on_boss (performSpecialAttack "enrage_burst") t
    else t
  else
    if inf_gtb distance
         (Finite (maxDistance (movementConfig (entity t)) * (7#10))) then
      let t := on_entity (setState CHASE) t in
      moveTowardPlayer (runSpeed (movementConfig (entity t))) t
    else if inf_ltb distance
              (Finite (minDistance (movementConfig (entity t)))) then
      let t := on_entity (setState ATTACK) t in
      comboAttack t
    else
      let t := on_entity (setState ATTACK) t in
      tacticalMovement deltaTime t.

(** The animation timer at the foot of [executeBossAI]. *)
Definition tickAnimationTimer (deltaTime : Q) (t : Trainer) : Trainer :=
  if gtb (animationTimer t) 0
  then set_animationTimer (animationTimer t - deltaTime) t
  else t.

Definition executeBossAI (deltaTime : Q) (t : Trainer) : Trainer :=
  let t :=
    if (currentPhaseIndex (boss t) =? 0)%nat
    then executeTrainingAI deltaTime t
    else executeCombatAI deltaTime t in
  tickAnimationTimer deltaTime t.

(** [Trainer.updateSpecialAttack]: only the flashbang ends; for any
    other attack the empty method of [BossBase] runs. *)
Definition updateSpecialAttack (deltaTime : Q) (t : Trainer) : Trainer :=
  match currentSpecialAttack (boss t) with
  | Some attackName =>
      if String.eqb attackName "flashbang" then
        let t := set_animationTimer (animationTimer t - deltaTime) t in
        if leb (animationTimer t) 0 then on_boss endSpecialAttack t else t
      else t
  | None => t
  end.

(** A string or [null] taken as a condition: [null] and the empty
    string count as false. *)
Definition truthy (o : option string) : bool :=
  match o with
  | Some s => negb (String.eqb s "")
  | None => false
  end.

(** The cooldown at the head of [BossBase.update]. *)
Definition tickSpecialAttackCooldown (deltaTime : Q) (b : BossBase)
  : BossBase :=
  if gtb (specialAttackCooldown b) 0
  then set_specialAttackCooldown (specialAttackCooldown b - deltaTime) b
  else b.

(** [BossBase.update], with the trainer's [executeBossAI] and
    [updateSpecialAttack]. *)
Definition update (deltaTime now : Q) (t : Trainer) : Trainer :=
  if negb (isAlive (entity t)) then t
  else if isStunned (entity t) then on_entity (updateStun deltaTime) t
  else
    let t := on_boss (tickSpecialAttackCooldown deltaTime) t in
    let t := if isPerformingSpecial (boss t)
                && truthy (currentSpecialAttack (boss t))
             then updateSpecialAttack deltaTime t
             else t in
    let t := on_entity (updatePerception deltaTime now) t in
    let t := if negb (isPerformingSpecial (boss t))
             then executeBossAI deltaTime t
             else t in
    on_entity (applyMovement deltaTime) t.

End Methods.

End TrainerAI.

(** * Shapes of trainers *)

Module TrainerShape.

Import AI TrainerAI.

(** The public calls on a trainer. *)
Inductive TrainerCall :=
| TrainerTakeDamage (amount : Q) (source : option Object3D)
| TrainerUpdate (deltaTime now : Q)
| TrainerStun (duration : Q)
| TrainerDie
| TrainerPerformSpecialAttack (attackName : string)
| TrainerSetTarget (target : option Object3D) (now : Q).

Definition trainerCall {rt : Runtime} (c : TrainerCall) (t : Trainer)
  : Trainer :=
  match c with
  | TrainerTakeDamage amount source =>
      on_boss (Boss.takeDamage amount source) t
  | TrainerUpdate deltaTime now => update deltaTime now t
  | TrainerStun duration => on_entity (stun duration) t
  | TrainerDie => on_boss Boss.die t
  | TrainerPerformSpecialAttack attackName =>
      on_boss (Boss.performSpecialAttack attackName) t
  | TrainerSetTarget target now => on_entity (setTarget target now) t
  end.

Definition trainerRun {rt : Runtime} (cs : list TrainerCall) (t : Trainer)
  : Trainer :=
  fold_left (fun t c => trainerCall c t) cs t.

(** The trainer's own state: everything the code of [Trainer] keeps
    outside the boss it extends. *)
Definition own (t : Trainer)
  : Z * Q * Q * Q * string * Q * nat * list Line :=
  (comboCount t, comboWindow t, flashbangCooldown t, teachingTimer t,
   currentAnimation t, animationTimer t, draws t, console t).

(** From [e] to [e'] damage and movement tuning are the same and the
    log only grew by entity-level entries. *)
Definition still (e e' : AICharacter) : Prop :=
  BossShape.sameGear e e' /\ BossShape.quiet e e'.

(** From [b] to [b'] the boss is in the same phase, as enraged, in the
    same special attack if any, and its entity is [still]. *)
Definition stillBoss (b b' : Boss.BossBase) : Prop :=
  Boss.phases b' = Boss.phases b
  /\ Boss.currentPhaseIndex b' = Boss.currentPhaseIndex b
  /\ Boss.isEnraged b' = Boss.isEnraged b
  /\ Boss.enrageEffects b' = Boss.enrageEffects b
  /\ Boss.isPerformingSpecial b' = Boss.isPerformingSpecial b
  /\ Boss.currentSpecialAttack b' = Boss.currentSpecialAttack b
  /\ still (Boss.base b) (Boss.base b').




End TrainerShape.


(** * Sample trainers *)

Module TrainerSamples.

Import AI Host.

(** The trainer as [new Trainer("boss1", "trainer")] builds it. *)
Definition freshTrainer : TrainerAI.Trainer := {|
  TrainerAI.boss := trainer (rt := taxicab);
  TrainerAI.comboCount := 0%Z;
  TrainerAI.comboWindow := 0;
  TrainerAI.flashbangCooldown := 0;
  TrainerAI.teachingTimer := 0;
  TrainerAI.currentAnimation := "idle";
  TrainerAI.animationTimer := 0;
  TrainerAI.draws := O;
  TrainerAI.console := [] |}.

(** The same trainer once [enrage_burst] has started. *)
Definition burstingTrainer : TrainerAI.Trainer :=
  TrainerAI.on_boss (Boss.performSpecialAttack "enrage_burst") freshTrainer.



End TrainerSamples.


(** * Properties *)

Import AI Host Spec.

(** ** Comparisons *)


Lemma ltb_lt a b : ltb a b = true <-> a < b.
Proof.
  unfold ltb. rewrite negb_true_iff.
  destruct (Qle_bool b a) eqn:E.
  - apply Qle_bool_iff in E. split; [discriminate | intro; lra].
  - split; [intros _ | reflexivity].
    apply Qnot_le_lt. intro H. apply Qle_bool_iff in H. congruence.
Qed.

Lemma ltb_ge a b : ltb a b = false <-> b <= a.
Proof.
  unfold ltb. rewrite negb_false_iff. apply Qle_bool_iff.
Qed.

Lemma leb_le a b : leb a b = true <-> a <= b.
Proof. apply Qle_bool_iff. Qed.

Lemma leb_gt a b : leb a b = false <-> b < a.
Proof.
  unfold leb. destruct (Qle_bool a b) eqn:E.
  - apply Qle_bool_iff in E. split; [discriminate | intro; lra].
  - split; [intros _ | reflexivity].
    apply Qnot_le_lt. intro H. apply Qle_bool_iff in H. congruence.
Qed.

Lemma gtb_gt a b : gtb a b = true <-> b < a.
Proof. apply ltb_lt. Qed.

Lemma gtb_le a b : gtb a b = false <-> a <= b.
Proof. apply ltb_ge. Qed.

(** ** Decorators *)

Section DecoratorFacts.

Import BT.

(** C9.  A force-Success or force-Failure decorator runs its child once:
    the world it leaves is the world one execution of the child leaves
    (so a call-counting child has been called exactly once more), and it
    reports the fixed status whatever the child reported.  The Inverter
    also runs the child once and maps Success to Failure, Failure to
    Success and Running to Running. *)
Theorem decorator_runs_child_once_and_overrides_status :
  forall (W : Type) (child : BTNode W) (name : string)
         (params : list (string * Q)) (w : W),
    execute (BTDecorator name SUCCESS_RATE child params) w
      = (fst (execute child w), SUCCESS)
    /\ execute (BTDecorator name FAILURE_RATE child params) w
      = (fst (execute child w), FAILURE)
    /\ execute (BTDecorator name INVERTER child params) w
      = (fst (execute child w),
         match snd (execute child w) with
         | SUCCESS => FAILURE
         | FAILURE => SUCCESS
         | RUNNING => RUNNING
         end)
    /\ (forall (st : NodeStatus) (calls : nat),
          execute (BTDecorator name SUCCESS_RATE (countingStub st) params) calls
            = (S calls, SUCCESS)
          /\ execute (BTDecorator name FAILURE_RATE (countingStub st) params) calls
            = (S calls, FAILURE)).
Proof.
  intros W child name params w.
  repeat split; cbn [execute]; try reflexivity;
    destruct (execute child w) as [w' result]; cbn [fst snd];
    try reflexivity.
  destruct result; reflexivity.
Qed.

End DecoratorFacts.

(** ** The combat entity: damage, death, stun *)

Section EntityFacts.

Context {rt : Runtime}.

Ltac setState_field :=
  intros; unfold setState;
  match goal with
  | |- context [AIState_beq ?a ?b] => destruct (AIState_beq a b)
  end; [reflexivity |];
  unfold onExitState, onEnterState, fire;
  repeat match goal with
         | |- context [match ?s with IDLE => _ | _ => _ end] => destruct s
         end; reflexivity.

Lemma setState_health s e : health (setState s e) = health e.
Proof. setState_field. Qed.

Lemma setState_maxHealth s e : maxHealth (setState s e) = maxHealth e.
Proof. setState_field. Qed.

Lemma setState_armor s e : armor (setState s e) = armor e.
Proof. setState_field. Qed.

Lemma setState_isAlive s e : isAlive (setState s e) = isAlive e.
Proof. setState_field. Qed.

Lemma setState_isStunned s e : isStunned (setState s e) = isStunned e.
Proof. setState_field. Qed.

Lemma setState_stunTime s e : stunTime (setState s e) = stunTime e.
Proof. setState_field. Qed.

Lemma setState_characterType s e :
  characterType (setState s e) = characterType e.
Proof. setState_field. Qed.

Lemma AIState_beq_refl s : AIState_beq s s = true.
Proof. destruct s; reflexivity. Qed.

Lemma AIState_beq_eq a b : AIState_beq a b = true <-> a = b.
Proof.
  split; [| intros ->; apply AIState_beq_refl].
  destruct a, b; simpl; congruence.
Qed.

Lemma setState_state s e : state (setState s e) = s.
Proof.
  unfold setState. destruct (AIState_beq (state e) s) eqn:E.
  - apply AIState_beq_eq in E. exact E.
  - unfold onExitState, onEnterState, fire.
    destruct (state e), s; reflexivity.
Qed.

Lemma setState_previousState s e :
  state e <> s -> previousState (setState s e) = state e.
Proof.
  intros Hne. unfold setState.
  destruct (AIState_beq (state e) s) eqn:E.
  - apply AIState_beq_eq in E. contradiction.
  - unfold onExitState, onEnterState, fire.
    destruct (state e), s; reflexivity.
Qed.

(** The log after [setState]: untouched, or one more state-change entry
    that saw the entity's health as it is. *)
Lemma setState_log s e :
  log (setState s e) = log e
  \/ exists seen,
       log (setState s e) = StateChangeCallbacks s (state e) seen :: log e
       /\ seen_health seen = health e
       /\ seen_maxHealth seen = maxHealth e.
Proof.
  unfold setState. destruct (AIState_beq (state e) s); [left; reflexivity |].
  right. unfold onExitState, onEnterState, fire.
  destruct (state e), s; eexists; repeat split; reflexivity.
Qed.

End EntityFacts.

Section DamageFacts.

Context {rt : Runtime}.

Lemma takeDamage_via_dead d amount source e :
  isAlive e = false -> takeDamage_via d amount source e = e.
Proof. intros H. unfold takeDamage_via. rewrite H. reflexivity. Qed.

Lemma takeDamage_via_stages d amount source e :
  isAlive e = true ->
  takeDamage_via d amount source e
  = coverIfArmoredSoldier
      (if leb (health (struck amount source e)) 0
       then d (struck amount source e)
       else struck amount source e).
Proof.
  intros H. unfold takeDamage_via, struck, coverIfArmoredSoldier.
  rewrite H. cbn [negb].
  destruct (gtb (armor e) 0); reflexivity.
Qed.

Lemma struck_health amount source e :
  health (struck amount source e) == health e - remainder e amount.
Proof.
  unfold struck, remainder, absorbed.
  destruct (gtb (armor e) 0); cbn; lra.
Qed.

Lemma struck_armor amount source e :
  armor (struck amount source e) == armor e - absorbed e amount.
Proof.
  unfold struck, absorbed.
  destruct (gtb (armor e) 0); cbn; lra.
Qed.

Lemma struck_maxHealth amount source e :
  maxHealth (struck amount source e) = maxHealth e.
Proof. unfold struck. destruct (gtb (armor e) 0); reflexivity. Qed.

Lemma struck_isAlive amount source e :
  isAlive (struck amount source e) = isAlive e.
Proof. unfold struck. destruct (gtb (armor e) 0); reflexivity. Qed.

Lemma struck_log amount source e :
  exists seen,
    log (struck amount source e) = DamageCallbacks amount source seen :: log e
    /\ seen_health seen = health (struck amount source e)
    /\ seen_maxHealth seen = maxHealth e.
Proof.
  unfold struck. destruct (gtb (armor e) 0); eexists; repeat split; reflexivity.
Qed.



Lemma absorbed_nonneg e amount : 0 <= amount -> 0 <= absorbed e amount.
Proof.
  intros H. unfold absorbed.
  destruct (gtb (armor e) 0) eqn:E; [| lra].
  apply gtb_gt in E. apply Q.min_glb; lra.
Qed.


End DamageFacts.

Section DeathFacts.

Context {rt : Runtime}.

Lemma die_health e : health (die e) = 0.
Proof. unfold die, fire, stop. cbn. apply setState_health. Qed.

Lemma die_maxHealth e : maxHealth (die e) = maxHealth e.
Proof. unfold die, fire, stop. cbn. rewrite setState_maxHealth. reflexivity. Qed.

Lemma die_armor e : armor (die e) = armor e.
Proof. unfold die, fire, stop. cbn. rewrite setState_armor. reflexivity. Qed.

Lemma die_isAlive e : isAlive (die e) = false.
Proof. unfold die, fire, stop. cbn. rewrite setState_isAlive. reflexivity. Qed.

Lemma die_characterType e : characterType (die e) = characterType e.
Proof.
  unfold die, fire, stop. cbn. rewrite setState_characterType. reflexivity.
Qed.

Lemma die_velocity e : velocity (die e) = zero3.
Proof. reflexivity. Qed.

Lemma die_state e : state (die e) = DEAD.
Proof. unfold die, fire, stop. cbn. apply setState_state. Qed.

(** [die] adds one death entry, on top of at most one state-change entry;
    its observers see a dead, motionless entity in state Dead with health
    0. *)
Lemma die_log e :
  exists seen l,
    log (die e) = DeathCallbacks seen :: l
    /\ (l = log e
        \/ exists seen',
             l = StateChangeCallbacks DEAD (state e) seen' :: log e
             /\ seen_health seen' = 0
             /\ seen_maxHealth seen' = maxHealth e)
    /\ seen_health seen = 0
    /\ seen_maxHealth seen = maxHealth e
    /\ seen_state seen = DEAD
    /\ seen_isAlive seen = false
    /\ seen_velocity seen = zero3.
Proof.
  unfold die, fire, stop. cbn.
  set (e1 := set_health 0 (set_isAlive false e)).
  eexists. exists (log (setState DEAD e1)). split; [reflexivity |].
  repeat split.
  - destruct (setState_log DEAD e1) as [H | (s & H & Hh & Hm)].
    + left. exact H.
    + right. exists s. repeat split; assumption.
  - cbn. apply setState_health.
  - cbn. rewrite setState_maxHealth. reflexivity.
  - cbn. apply setState_state.
  - cbn. rewrite setState_isAlive. reflexivity.
Qed.

Lemma deathCount_setState s e :
  deathCount (log (setState s e)) = deathCount (log e).
Proof.
  destruct (setState_log s e) as [H | (x & H & _)]; rewrite H; reflexivity.
Qed.

Lemma deathCount_die e : deathCount (log (die e)) = S (deathCount (log e)).
Proof.
  destruct (die_log e) as (s & l & H & [Hl | (s' & Hl & _)] & _);
    rewrite H, Hl; reflexivity.
Qed.

Lemma coverIfArmoredSoldier_health e :
  health (coverIfArmoredSoldier e) = health e.
Proof.
  unfold coverIfArmoredSoldier.
  destruct (_ && _); [| reflexivity].
  destruct (findNearestCover e); [| reflexivity].
  rewrite setState_health. reflexivity.
Qed.

Lemma coverIfArmoredSoldier_maxHealth e :
  maxHealth (coverIfArmoredSoldier e) = maxHealth e.
Proof.
  unfold coverIfArmoredSoldier.
  destruct (_ && _); [| reflexivity].
  destruct (findNearestCover e); [| reflexivity].
  rewrite setState_maxHealth. reflexivity.
Qed.


Lemma coverIfArmoredSoldier_isAlive e :
  isAlive (coverIfArmoredSoldier e) = isAlive e.
Proof.
  unfold coverIfArmoredSoldier.
  destruct (_ && _); [| reflexivity].
  destruct (findNearestCover e); [| reflexivity].
  rewrite setState_isAlive. reflexivity.
Qed.

Lemma coverIfArmoredSoldier_log e :
  log (coverIfArmoredSoldier e) = log e
  \/ exists seen,
       log (coverIfArmoredSoldier e)
       = StateChangeCallbacks COVER (state e) seen :: log e
       /\ seen_health seen = health e
       /\ seen_maxHealth seen = maxHealth e.
Proof.
  unfold coverIfArmoredSoldier.
  destruct (_ && _); [| left; reflexivity].
  destruct (findNearestCover e) as [c |]; [| left; reflexivity].
  destruct (setState_log COVER (set_currentCoverSpot (Some c) e))
    as [H | (s & H & Hh & Hm)]; [left; exact H |].
  right. exists s. repeat split; assumption.
Qed.

Lemma deathCount_coverIfArmoredSoldier e :
  deathCount (log (coverIfArmoredSoldier e)) = deathCount (log e).
Proof.
  destruct (coverIfArmoredSoldier_log e) as [H | (x & H & _)];
    rewrite H; reflexivity.
Qed.


End DeathFacts.


Section DeathOnce.

Context {rt : Runtime}.

Lemma takeDamage_lethal amount source e :
  isAlive e = true ->
  health e - remainder e amount <= 0 ->
  takeDamage amount source e
  = coverIfArmoredSoldier (die (struck amount source e)).
Proof.
  intros Halive Hle. unfold takeDamage.
  rewrite takeDamage_via_stages by exact Halive.
  assert (E : leb (health (struck amount source e)) 0 = true).
  { apply leb_le. rewrite struck_health. exact Hle. }
  rewrite E. reflexivity.
Qed.

Lemma takeDamage_survived amount source e :
  isAlive e = true ->
  0 < health e - remainder e amount ->
  takeDamage amount source e = coverIfArmoredSoldier (struck amount source e).
Proof.
  intros Halive Hlt. unfold takeDamage.
  rewrite takeDamage_via_stages by exact Halive.
  assert (E : leb (health (struck amount source e)) 0 = false).
  { apply leb_gt. rewrite struck_health. exact Hlt. }
  rewrite E. reflexivity.
Qed.

Lemma takeDamage_dead amount source e :
  isAlive e = false -> takeDamage amount source e = e.
Proof. apply takeDamage_via_dead. Qed.

Lemma hits_dead l e : isAlive e = false -> hits l e = e.
Proof.
  induction l as [| [amount source] l IH]; intros H; [reflexivity |].
  cbn. rewrite takeDamage_dead by exact H. apply IH. exact H.
Qed.

Lemma deathCount_struck amount source e :
  deathCount (log (struck amount source e)) = deathCount (log e).
Proof.
  destruct (struck_log amount source e) as (s & H & _). rewrite H. reflexivity.
Qed.

Lemma coverIfArmoredSoldier_velocity e :
  velocity (coverIfArmoredSoldier e) = velocity e.
Proof.
  unfold coverIfArmoredSoldier.
  destruct (_ && _); [| reflexivity].
  destruct (findNearestCover e); [| reflexivity].
  unfold setState. cbn.
  destruct (AIState_beq (state e) COVER); [reflexivity |].
  destruct (state e); reflexivity.
Qed.

Lemma coverIfArmoredSoldier_log_keeps ev e :
  In ev (log e) -> In ev (log (coverIfArmoredSoldier e)).
Proof.
  intros H.
  destruct (coverIfArmoredSoldier_log e) as [E | (s & E & _)]; rewrite E;
    [exact H | right; exact H].
Qed.

(** One call on a living entity: it kills exactly when health, less what
    is left of the hit, is at or below 0, and then the death callbacks
    are fired once. *)
Lemma takeDamage_deathCount amount source e :
  isAlive e = true ->
  deathCount (log (takeDamage amount source e))
  = (deathCount (log e)
     + if isAlive (takeDamage amount source e) then 0 else 1)%nat.
Proof.
  intros Halive.
  destruct (Qlt_le_dec 0 (health e - remainder e amount)) as [Hlt | Hle].
  - rewrite takeDamage_survived by assumption.
    rewrite deathCount_coverIfArmoredSoldier, deathCount_struck.
    rewrite coverIfArmoredSoldier_isAlive, struck_isAlive, Halive. lia.
  - rewrite takeDamage_lethal by assumption.
    rewrite deathCount_coverIfArmoredSoldier, deathCount_die, deathCount_struck.
    rewrite coverIfArmoredSoldier_isAlive, die_isAlive. lia.
Qed.

(** A run of [takeDamage] calls on a living entity: how often the death
    callbacks are fired, what the lethal call does, and that later calls
    change nothing. *)
Lemma entity_death_once :
  forall (l : list (Q * option Object3D)) (e : AICharacter),
    isAlive e = true ->
    deathCount (log (hits l e))
    = (deathCount (log e) + if isAlive (hits l e) then 0 else 1)%nat
    /\ (forall amount source,
          health e - remainder e amount <= 0 ->
          isAlive (takeDamage amount source e) = false
          /\ health (takeDamage amount source e) = 0
          /\ velocity (takeDamage amount source e) = zero3
          /\ deathCount (log (takeDamage amount source e))
             = S (deathCount (log e))
          /\ exists seen,
               In (DeathCallbacks seen) (log (takeDamage amount source e))
               /\ seen_isAlive seen = false
               /\ seen_state seen = DEAD
               /\ seen_velocity seen = zero3
               /\ seen_health seen = 0)
    /\ (forall amount source,
          0 < health e - remainder e amount ->
          isAlive (takeDamage amount source e) = true
          /\ deathCount (log (takeDamage amount source e))
             = deathCount (log e))
    /\ (forall amount source later,
          isAlive (takeDamage amount source e) = false ->
          hits later (takeDamage amount source e)
          = takeDamage amount source e).
Proof.
  intros l e Halive. repeat split.
  - revert e Halive.
    induction l as [| [amount source] l IH]; intros e Halive.
    + cbn. rewrite Halive. lia.
    + cbn [hits fold_left fst snd].
      fold (hits l (takeDamage amount source e)).
      pose proof (takeDamage_deathCount amount source e Halive) as Hstep.
      destruct (isAlive (takeDamage amount source e)) eqn:E.
      * rewrite IH by exact E. rewrite Hstep. lia.
      * rewrite hits_dead by exact E. rewrite E. exact Hstep.
  - rewrite takeDamage_lethal by assumption.
    rewrite coverIfArmoredSoldier_isAlive. apply die_isAlive.
  - rewrite takeDamage_lethal by assumption.
    rewrite coverIfArmoredSoldier_health. apply die_health.
  - rewrite takeDamage_lethal by assumption.
    rewrite coverIfArmoredSoldier_velocity. apply die_velocity.
  - rewrite takeDamage_lethal by assumption.
    rewrite deathCount_coverIfArmoredSoldier, deathCount_die.
    rewrite deathCount_struck. reflexivity.
  - rewrite takeDamage_lethal by assumption.
    destruct (die_log (struck amount source e))
      as (s & l' & Hlog & _ & Hh & _ & Hst & Hal & Hv).
    exists s. repeat split; try assumption.
    apply coverIfArmoredSoldier_log_keeps. rewrite Hlog. left. reflexivity.
  - rewrite takeDamage_survived by assumption.
    rewrite coverIfArmoredSoldier_isAlive, struck_isAlive. exact Halive.
  - rewrite takeDamage_survived by assumption.
    rewrite deathCount_coverIfArmoredSoldier. apply deathCount_struck.
  - intros amount source later Hdead. apply hits_dead. exact Hdead.
Qed.

End DeathOnce.


Section HealthRange.

Context {rt : Runtime}.

Lemma healthKept_same e e' :
  health e' = health e -> maxHealth e' = maxHealth e -> log e' = log e ->
  healthKept e -> healthKept e'.
Proof.
  intros Hh Hm Hl [Hr Hlog]. unfold healthKept.
  rewrite Hh, Hm, Hl. split; assumption.
Qed.

Lemma healthKept_setState s e : healthKept e -> healthKept (setState s e).
Proof.
  intros [Hr Hlog]. unfold healthKept.
  rewrite setState_health, setState_maxHealth. split; [exact Hr |].
  destruct (setState_log s e) as [H | (x & H & Hh & Hm)]; rewrite H.
  - exact Hlog.
  - constructor; [| exact Hlog]. cbn. rewrite Hh, Hm. exact Hr.
Qed.

Lemma healthKept_announce e : healthKept e -> healthKept (fire AttackAnnounced e).
Proof.
  intros [Hr Hlog]. split; [exact Hr |]. cbn. constructor; [exact I | exact Hlog].
Qed.



Lemma healthKept_onAttack t now e :
  healthKept e -> healthKept (onAttack t now e).
Proof.
  intros H. unfold onAttack, performAttack.
  destruct (gtb _ _).
  - eapply healthKept_same; [reflexivity | reflexivity | reflexivity |].
    apply healthKept_announce, healthKept_setState, H.
  - apply healthKept_setState, H.
Qed.








End HealthRange.

Section HealthRangeOfCalls.

Context {rt : Runtime}.








End HealthRangeOfCalls.



(** ** Stun *)

Section StunFacts.

Context {rt : Runtime}.

Lemma elapsed_cons t l : elapsed (t :: l) = fst t + elapsed l.
Proof. reflexivity. Qed.

Lemma stillRunning_cons d t r :
  stillRunning d (t :: r) <-> fst t < d /\ stillRunning (d - fst t) r.
Proof.
  unfold stillRunning. split.
  - intros H. split.
    + assert (H1 : elapsed (firstn 1 (t :: r)) < d) by (apply H; cbn; lia).
      change (firstn 1 (t :: r)) with [t] in H1.
      rewrite elapsed_cons in H1. cbn [elapsed fold_right] in H1. lra.
    + intros k Hk.
      assert (H1 : elapsed (firstn (S k) (t :: r)) < d) by (apply H; cbn; lia).
      change (firstn (S k) (t :: r)) with (t :: firstn k r) in H1.
      rewrite elapsed_cons in H1. lra.
  - intros [Ht Hr] k Hk. destruct k as [| k]; [lia |].
    change (firstn (S k) (t :: r)) with (t :: firstn k r).
    rewrite elapsed_cons.
    destruct k as [| k].
    + change (firstn 0 r) with (@nil (Q * Q)). cbn [elapsed fold_right]. lra.
    + assert (elapsed (firstn (S k) r) < d - fst t)
        by (apply Hr; cbn in Hk; lia).
      lra.
Qed.

Lemma timerAfter_elapsed l t : timerAfter l t == t - elapsed l.
Proof.
  revert t. induction l as [| x l IH]; intros t.
  - cbn. lra.
  - rewrite elapsed_cons. cbn [timerAfter fold_left].
    fold (timerAfter l (t - fst x)). rewrite IH. lra.
Qed.

Lemma ticks_app l1 l2 e : ticks (l1 ++ l2) e = ticks l2 (ticks l1 e).
Proof. apply fold_left_app. Qed.

(** A tick of a living, stunned entity whose timer does not run out. *)
Lemma update_stunned_running dt now e :
  isAlive e = true -> isStunned e = true -> dt < stunTime e ->
  update dt now e = set_stunTime (stunTime e - dt) e.
Proof.
  intros Ha Hs Hlt. unfold update, updateStun. rewrite Ha, Hs. cbn.
  assert (E : leb (stunTime e - dt) 0 = false) by (apply leb_gt; lra).
  rewrite E. reflexivity.
Qed.

(** The tick on which the timer runs out. *)
Lemma update_stunned_ends dt now e :
  isAlive e = true -> isStunned e = true -> stunTime e <= dt ->
  update dt now e
  = setState (previousState e)
      (set_isStunned false (set_stunTime (stunTime e - dt) e)).
Proof.
  intros Ha Hs Hle. unfold update, updateStun. rewrite Ha, Hs. cbn.
  assert (E : leb (stunTime e - dt) 0 = true) by (apply leb_le; lra).
  rewrite E. reflexivity.
Qed.

Lemma ticks_stunned l :
  forall e,
    isAlive e = true -> isStunned e = true -> stillRunning (stunTime e) l ->
    ticks l e = set_stunTime (timerAfter l (stunTime e)) e.
Proof.
  induction l as [| [dt now] l IH]; intros e Ha Hs Hrun.
  - cbn. destruct e; reflexivity.
  - apply stillRunning_cons in Hrun. destruct Hrun as [Hlt Hrun]. cbn in Hlt.
    cbn [ticks fold_left fst snd].
    rewrite update_stunned_running by assumption.
    fold (ticks l (set_stunTime (stunTime e - dt) e)).
    rewrite IH; [reflexivity | exact Ha | exact Hs | exact Hrun].
Qed.

Lemma stun_isAlive d e : isAlive (stun d e) = isAlive e.
Proof. unfold stun, stop. cbn. rewrite setState_isAlive. reflexivity. Qed.

Lemma stun_isStunned d e : isStunned (stun d e) = true.
Proof. unfold stun, stop. cbn. rewrite setState_isStunned. reflexivity. Qed.

Lemma stun_stunTime d e : stunTime (stun d e) = d.
Proof. unfold stun, stop. cbn. rewrite setState_stunTime. reflexivity. Qed.

Lemma stun_state d e : state (stun d e) = STUNNED.
Proof. unfold stun, stop. cbn. apply setState_state. Qed.

Lemma stun_previousState d e :
  state e <> STUNNED -> previousState (stun d e) = state e.
Proof.
  intros H. unfold stun, stop. cbn.
  rewrite setState_previousState; [reflexivity | exact H].
Qed.

(** C5, as the code has it.  For a living entity in a state S other than
    Stunned and d > 0: [stun(d)] sets the state to Stunned and the
    velocity to zero and keeps S as the previous state.  A tick of a
    living, stunned entity whose timer and frame time are binary64
    numbers changes the timer and nothing else while the frame time is
    below the timer; otherwise it also clears the stun and sets the state
    that [stun] saved, and no other; the timer it leaves is the
    difference whenever that is a binary64 number.  On a run of ticks on
    which the timer's arithmetic is exact: as long as the time elapsed
    stays below d the ticks change nothing but the timer, which is d less
    the time elapsed, and the tick that brings the time elapsed to d puts
    the state back to S.  The [update] of a soldier and of a boss do on a
    living, stunned entity what this [update] does. *)
Theorem stun_freezes_then_gives_state_back :
  forall (e : AICharacter) (d : Q),
    isAlive e = true -> state e <> STUNNED -> 0 < d ->
    (state (stun d e) = STUNNED
     /\ velocity (stun d e) = zero3
     /\ previousState (stun d e) = state e)
    /\ (forall dt now e',
          isAlive e' = true -> isStunned e' = true ->
          binary64 dt -> binary64 (stunTime e') ->
          let t := stunTime (update dt now e') in
          (dt < stunTime e' -> update dt now e' = set_stunTime t e')
          /\ (stunTime e' <= dt ->
              update dt now e'
              = setState (previousState e')
                  (set_isStunned false (set_stunTime t e')))
          /\ (binary64 (stunTime e' - dt) -> t == stunTime e' - dt))
    /\ (forall l, exactTimer d l -> stillRunning d l ->
          ticks l (stun d e) = set_stunTime (timerAfter l d) (stun d e)
          /\ timerAfter l d == d - elapsed l
          /\ state (ticks l (stun d e)) = STUNNED)
    /\ (forall l last,
          exactTimer d (l ++ [last]) -> stunGivesStateBack e d l last)
    /\ (forall dt now (s : SoldierAI.Soldier) (b : Boss.BossBase),
          (isAlive (SoldierAI.base s) = true ->
           isStunned (SoldierAI.base s) = true ->
           SoldierAI.update dt now s
           = SoldierAI.Returned (SoldierAI.on_base (update dt now) s))
          /\ (isAlive (Boss.base b) = true ->
              isStunned (Boss.base b) = true ->
              Boss.update dt now b = Boss.on_base (update dt now) b)).
Proof.
  intros e d Halive HS Hd.
  assert (Hticks : forall l, stillRunning d l ->
            ticks l (stun d e) = set_stunTime (timerAfter l d) (stun d e)).
  { intros l Hrun.
    rewrite ticks_stunned.
    - rewrite stun_stunTime. reflexivity.
    - rewrite stun_isAlive. exact Halive.
    - apply stun_isStunned.
    - rewrite stun_stunTime. exact Hrun. }
  split; [| split; [| split; [| split]]].
  - split; [apply stun_state | split; [reflexivity | apply stun_previousState, HS]].
  - intros dt now e' Ha Hs _ _ t. split; [| split].
    + intros Hlt. subst t.
      rewrite update_stunned_running by assumption. reflexivity.
    + intros Hle. subst t.
      rewrite update_stunned_ends by assumption.
      rewrite setState_stunTime. reflexivity.
    + intros _. subst t. destruct (Qlt_le_dec dt (stunTime e')) as [Hlt | Hle].
      * rewrite update_stunned_running by assumption. reflexivity.
      * rewrite update_stunned_ends by assumption.
        rewrite setState_stunTime. reflexivity.
  - intros l _ Hrun. split; [apply Hticks, Hrun | split].
    + apply timerAfter_elapsed.
    + rewrite Hticks by exact Hrun.
      change (state (stun d e) = STUNNED). apply stun_state.
  - intros l [dt now] _ _ _ Hrun Hend. cbn in Hend.
    rewrite ticks_app, Hticks by exact Hrun.
    cbn [ticks fold_left fst snd].
    rewrite update_stunned_ends.
    + rewrite setState_state.
      change (previousState (stun d e) = state e).
      apply stun_previousState, HS.
    + change (isAlive (stun d e) = true).
      rewrite stun_isAlive. exact Halive.
    + change (isStunned (stun d e) = true). apply stun_isStunned.
    + change (timerAfter l d <= dt). rewrite timerAfter_elapsed. lra.
  - intros dt now s b. split; intros Ha Hs.
    + unfold SoldierAI.update, SoldierAI.on_base, update. cbv beta.
      rewrite Ha, Hs. reflexivity.
    + unfold Boss.update, Boss.on_base, update. cbv beta.
      rewrite Ha, Hs. reflexivity.
Qed.

End StunFacts.

(** C5 on a living entity that is chasing: stunned for 2 seconds and
    ticked by 0.5, 0.5 and 1 second, all binary fractions, it is chasing
    again. *)
Lemma stun_freezes_then_gives_state_back_witness :
  state (ticks (rt := taxicab) [(1#2, 0); (1#2, 500); (1, 1500)]
           (stun 2
              (setState CHASE
                 (AI.new (rt := taxicab) "e1" "entity"
                    (plainConfig GRUNT 100 0)))))
  = CHASE.
Proof.
  apply (proj1 (proj2 (proj2 (proj2
           (stun_freezes_then_gives_state_back (rt := taxicab)
              (setState CHASE
                 (AI.new (rt := taxicab) "e1" "entity"
                    (plainConfig GRUNT 100 0)))
              2 eq_refl ltac:(discriminate) eq_refl))))
           [(1#2, 0); (1#2, 500)] (1, 1500)).
  - split.
    + repeat constructor;
        [exists 1%Z, (-1)%Z | exists 1%Z, (-1)%Z | exists 1%Z, 0%Z];
        (split; [reflexivity | split; [lia | reflexivity]]).
    + intros k Hk.
      destruct k as [| [| [| [| k]]]]; cbn in Hk; try lia;
        [exists 1%Z, 1%Z | exists 3%Z, (-1)%Z | exists 1%Z, 0%Z
        | exists 0%Z, 0%Z];
        (split; [reflexivity | split; [lia | reflexivity]]).
  - discriminate.
  - reflexivity.
  - intros k Hk.
    destruct k as [| [| [| k]]]; cbn in Hk; try lia; reflexivity.
  - cbn. discriminate.
Defined.

(** C5 as stated fails twice.  On an entity that is dead: [stun] puts it
    in state Stunned, [update] returns at once for a dead entity, and the
    state never goes back to Dead.  And on the code's doubles: after
    [stun(2)] and five ticks of 0.4 (the double nearest to it,
    0x1.999999999999ap-2) the frame times add up to 2, and the timer,
    five times lessened by 0.4, is still above 0, so that the entity is
    still Stunned. *)
Lemma stun_does_not_always_give_state_back :
  ~ stunGivesStateBack (rt := taxicab)
      (die (AI.new (rt := taxicab) "e1" "entity" (plainConfig GRUNT 100 0)))
      2 [] (2, 0)
  /\ PrimFloat.leb 2 (elapsed64 (repeat 0x1.999999999999ap-2%float 5)) = true
  /\ PrimFloat.leb (timerAfter64 (repeat 0x1.999999999999ap-2%float 5) 2) 0
     = false.
Proof.
  split; [| split; vm_compute; reflexivity].
  intros H.
  assert (E : state
                (ticks (rt := taxicab) ([] ++ [(2, 0)])
                   (stun 2
                      (die (AI.new (rt := taxicab) "e1" "entity"
                              (plainConfig GRUNT 100 0)))))
              = DEAD).
  { apply H.
    - discriminate.
    - reflexivity.
    - intros k Hk. cbn in Hk. lia.
    - cbn. discriminate. }
  vm_compute in E. discriminate E.
Qed.

(** ** The boss: thresholds, first-phase health, phase advance *)

Section ThresholdFacts.

Import Boss.






End ThresholdFacts.

Section Thresholds.

Import Boss.

Context {rt : Runtime}.

Lemma new_phases id name config b :
  Boss.new id name config = Some b -> phases b = cfg_phases config.
Proof.
  unfold Boss.new. destruct (cfg_phases config) eqn:E; [discriminate |].
  intros H. injection H as <-. reflexivity.
Qed.

Lemma new_thresholds id name config b :
  Boss.new id name config = Some b ->
  phaseHealthThresholds b
  = thresholdsFrom (totalHealthOf (cfg_phases config)) 0 (cfg_phases config).
Proof.
  unfold Boss.new. destruct (cfg_phases config) eqn:E; [discriminate |].
  intros H. injection H as <-. reflexivity.
Qed.


End Thresholds.



Section BossFacts.

Import Boss.

Context {rt : Runtime}.

Lemma sameFrame_refl b : sameFrame b b.
Proof. repeat split. Qed.

Lemma sameFrame_trans b1 b2 b3 :
  sameFrame b1 b2 -> sameFrame b2 b3 -> sameFrame b1 b3.
Proof.
  intros (H1 & H2 & H3) (K1 & K2 & K3). repeat split; congruence.
Qed.

Lemma sameFrame_on_base f b :
  maxHealth (f (base b)) = maxHealth (base b) -> sameFrame b (on_base f b).
Proof. intros H. repeat split. exact H. Qed.

Lemma advanceToNextPhase_frame b :
  sameFrame b (advanceToNextPhase b)
  /\ health (base (advanceToNextPhase b)) = health (base b)
  /\ isAlive (base (advanceToNextPhase b)) = isAlive (base b)
  /\ isEnraged (advanceToNextPhase b) = isEnraged b
  /\ (currentPhaseIndex b <= currentPhaseIndex (advanceToNextPhase b)
      <= S (currentPhaseIndex b))%nat.
Proof.
  unfold advanceToNextPhase, sameFrame.
  destruct (atLastPhase b); [repeat split; lia |].
  destruct (nth_error (phases b) (currentPhaseIndex b)) as [oldPhase |];
    [| repeat split; lia].
  destruct (nth_error (phases b) (S (currentPhaseIndex b))) as [newPhase |];
    [| repeat split; lia].
  destruct (onExit oldPhase), (onEnter newPhase); cbn; repeat split; lia.
Qed.

Lemma checkPhaseTransition_frame b :
  sameFrame b (checkPhaseTransition b)
  /\ health (base (checkPhaseTransition b)) = health (base b)
  /\ isAlive (base (checkPhaseTransition b)) = isAlive (base b)
  /\ isEnraged (checkPhaseTransition b) = isEnraged b
  /\ (currentPhaseIndex b <= currentPhaseIndex (checkPhaseTransition b)
      <= S (currentPhaseIndex b))%nat.
Proof.
  unfold checkPhaseTransition.
  destruct (atLastPhase b);
    [split; [apply sameFrame_refl | repeat split; lia] |].
  destruct (nth_error (phaseHealthThresholds b) (currentPhaseIndex b));
    [| split; [apply sameFrame_refl | repeat split; lia]].
  destruct (leb _ _);
    [apply advanceToNextPhase_frame
    | split; [apply sameFrame_refl | repeat split; lia]].
Qed.

Lemma checkEnrage_frame b :
  sameFrame b (checkEnrage b)
  /\ health (base (checkEnrage b)) = health (base b)
  /\ isAlive (base (checkEnrage b)) = isAlive (base b)
  /\ currentPhaseIndex (checkEnrage b) = currentPhaseIndex b.
Proof.
  unfold checkEnrage, enterEnrage, sameFrame.
  destruct (isEnraged b) eqn:E; [repeat split |].
  destruct (leb _ _); repeat split.
Qed.

Lemma fire_maxHealth ev e : maxHealth (fire ev e) = maxHealth e.
Proof. reflexivity. Qed.

Lemma fire_isAlive ev e : isAlive (fire ev e) = isAlive e.
Proof. reflexivity. Qed.

Lemma fire_log ev e : log (fire ev e) = ev :: log e.
Proof. reflexivity. Qed.

Lemma die_entity_maxHealth e : maxHealth (die_entity e) = maxHealth e.
Proof.
  unfold die_entity. cbv zeta. rewrite fire_maxHealth. apply die_maxHealth.
Qed.

Lemma takeDamage_via_maxHealth d amount source e :
  (forall x, maxHealth (d x) = maxHealth x) ->
  maxHealth (takeDamage_via d amount source e) = maxHealth e.
Proof.
  intros Hd. destruct (isAlive e) eqn:Halive;
    [| rewrite takeDamage_via_dead by exact Halive; reflexivity].
  rewrite takeDamage_via_stages by exact Halive.
  rewrite coverIfArmoredSoldier_maxHealth.
  destruct (leb _ 0); [rewrite Hd |]; apply struck_maxHealth.
Qed.

Lemma takeDamage_frame amount source b :
  sameFrame b (Boss.takeDamage amount source b)
  /\ (currentPhaseIndex b
      <= currentPhaseIndex (Boss.takeDamage amount source b)
      <= S (currentPhaseIndex b))%nat.
Proof.
  unfold Boss.takeDamage.
  destruct (negb (isAlive (base b)));
    [split; [apply sameFrame_refl | lia] |].
  set (b1 := on_base (takeDamage_via die_entity amount source)
               (set_hitCount (hitCount b + 1)%Z b)).
  assert (H1 : sameFrame b b1).
  { repeat split. cbn.
    apply takeDamage_via_maxHealth, die_entity_maxHealth. }
  destruct (checkPhaseTransition_frame b1) as (H2 & _ & _ & _ & Hi).
  destruct (checkEnrage_frame (checkPhaseTransition b1)) as (H3 & _ & _ & Hj).
  split.
  - eapply sameFrame_trans; [exact H1 |].
    eapply sameFrame_trans; [exact H2 | exact H3].
  - rewrite Hj. exact Hi.
Qed.

Lemma updateStun_maxHealth dt e : maxHealth (updateStun dt e) = maxHealth e.
Proof.
  unfold updateStun. cbn. destruct (leb _ 0); [| reflexivity].
  rewrite setState_maxHealth. reflexivity.
Qed.

Lemma updatePerception_maxHealth dt now e :
  maxHealth (updatePerception dt now e) = maxHealth e.
Proof.
  unfold updatePerception.
  destruct (target e); [| reflexivity].
  destruct (negb (isAlive e)); [reflexivity |].
  cbn. destruct (checkLineOfSight _); reflexivity.
Qed.

Lemma applyMovement_maxHealth dt e :
  maxHealth (applyMovement dt e) = maxHealth e.
Proof. unfold applyMovement. destruct (mesh e); reflexivity. Qed.

Lemma stun_maxHealth d e : maxHealth (stun d e) = maxHealth e.
Proof. unfold stun, stop. cbn. rewrite setState_maxHealth. reflexivity. Qed.

Lemma update_frame dt now b :
  sameFrame b (Boss.update dt now b)
  /\ currentPhaseIndex (Boss.update dt now b) = currentPhaseIndex b.
Proof.
  unfold Boss.update.
  destruct (negb (isAlive (base b))); [split; [apply sameFrame_refl | reflexivity] |].
  destruct (isStunned (base b)).
  { split; [| reflexivity]. apply sameFrame_on_base, updateStun_maxHealth. }
  destruct (gtb (specialAttackCooldown b) 0); cbn;
    (split; [| reflexivity]); repeat split; cbn;
    rewrite applyMovement_maxHealth, updatePerception_maxHealth; reflexivity.
Qed.

Lemma reset_frame b : sameFrame b (reset b).
Proof.
  unfold reset, sameFrame. cbn.
  destruct (phases b) eqn:E; cbn; rewrite ?E; repeat split.
Qed.

(** Any call keeps the frame, and any call but [reset] keeps the phase
    index or moves it one up. *)
Lemma bossCall_frame c b :
  sameFrame b (bossCall c b)
  /\ (isReset c = false ->
      (currentPhaseIndex b <= currentPhaseIndex (bossCall c b)
       <= S (currentPhaseIndex b))%nat).
Proof.
  destruct c as [amount source | dt now | d | | attackName |]; cbn [bossCall isReset].
  - destruct (takeDamage_frame amount source b) as [H1 H2]. split; auto.
  - destruct (update_frame dt now b) as [H1 H2]. split; [exact H1 |].
    intros _. rewrite H2. lia.
  - split; [apply sameFrame_on_base, stun_maxHealth | intros _; cbn; lia].
  - split; [apply sameFrame_on_base, die_entity_maxHealth | intros _; cbn; lia].
  - unfold performSpecialAttack. destruct (isPerformingSpecial b);
      (split; [repeat split | intros _; cbn; lia]).
  - split; [apply reset_frame | discriminate].
Qed.

Lemma bossRun_frame cs b : sameFrame b (bossRun cs b).
Proof.
  revert b. induction cs as [| c cs IH]; intros b; [apply sameFrame_refl |].
  change (bossRun (c :: cs) b) with (bossRun cs (bossCall c b)).
  eapply sameFrame_trans; [apply bossCall_frame | apply IH].
Qed.

Lemma bossRun_index cs b :
  forallb (fun c => negb (isReset c)) cs = true ->
  (currentPhaseIndex b <= currentPhaseIndex (bossRun cs b))%nat.
Proof.
  revert b. induction cs as [| c cs IH]; intros b H; [cbn; lia |].
  cbn in H. apply andb_true_iff in H. destruct H as [Hc Hcs].
  apply negb_true_iff in Hc.
  destruct (bossCall_frame c b) as [_ Hstep]. specialize (Hstep Hc).
  change (bossRun (c :: cs) b) with (bossRun cs (bossCall c b)).
  specialize (IH (bossCall c b) Hcs). lia.
Qed.

End BossFacts.

Section FirstPhaseHealth.

Import Boss.

Context {rt : Runtime}.

Lemma new_first_phase id name config first rest :
  cfg_phases config = first :: rest ->
  exists b,
    Boss.new id name config = Some b
    /\ health (base b) = phase_health first
    /\ maxHealth (base b) = phase_health first
    /\ currentPhaseIndex b = O.
Proof.
  intros E. unfold Boss.new. rewrite E.
  eexists. split; [reflexivity |]. repeat split.
Qed.

(** C10.  The constructor of a boss with at least one phase returns a
    boss whose health and maxHealth are the first phase's budget, whatever
    [config.health] and the other budgets are, and no call changes
    maxHealth.  So, for a positive first budget, the fraction that
    [checkPhaseTransition] and [checkEnrage] compare with their
    thresholds is always health over the first phase's budget.  (With a
    first budget of 0 the code divides by 0 and compares [NaN] or an
    infinity; that case is left out.)  The trainer, configured with health
    1000 and two phases of 500, has maxHealth 500. *)
Theorem boss_max_health_is_first_phase_budget :
  forall (id name : string) (config : BossConfig)
         (first : BossPhaseConfig) (rest : list BossPhaseConfig),
    cfg_phases config = first :: rest ->
    exists b,
      Boss.new id name config = Some b
      /\ health (base b) = phase_health first
      /\ maxHealth (base b) = phase_health first
      /\ (forall calls,
            maxHealth (base (bossRun calls b)) = phase_health first)
      /\ (0 < phase_health first ->
          forall calls,
            checkEnrage (bossRun calls b)
            = (if isEnraged (bossRun calls b) then bossRun calls b
               else if leb (health (base (bossRun calls b))
                            / phase_health first)
                           (enrageThreshold (bossRun calls b))
                    then enterEnrage (bossRun calls b)
                    else bossRun calls b)
            /\ checkPhaseTransition (bossRun calls b)
               = (if atLastPhase (bossRun calls b) then bossRun calls b
                  else
                    match nth_error (phaseHealthThresholds (bossRun calls b))
                            (currentPhaseIndex (bossRun calls b)) with
                    | Some threshold =>
                        if leb (health (base (bossRun calls b))
                                / phase_health first) threshold
                        then advanceToNextPhase (bossRun calls b)
                        else bossRun calls b
                    | None => bossRun calls b
                    end))
      /\ cfg_health (cfg_base Trainer.TRAINER_CONFIG) = 1000
      /\ Trainer.new "boss1" "trainer" = Some trainer
      /\ maxHealth (base trainer) = 500.
Proof.
  intros id name config first rest E.
  destruct (new_first_phase id name config first rest E)
    as (b & Hnew & Hh & Hm & _).
  assert (Hmax : forall calls,
            maxHealth (base (bossRun calls b)) = phase_health first).
  { intros calls. destruct (bossRun_frame calls b) as (_ & _ & H).
    rewrite H. exact Hm. }
  exists b. split; [exact Hnew | split; [exact Hh | split; [exact Hm |]]].
  split; [exact Hmax |]. split; [| repeat split].
  intros _ calls. split.
  - unfold checkEnrage. rewrite Hmax. reflexivity.
  - unfold checkPhaseTransition. rewrite Hmax. reflexivity.
Qed.

End FirstPhaseHealth.

(** C10 on the trainer's configuration: health 1000 is configured, the
    boss is built with maxHealth 500 and keeps it when it is hit, and
    after a hit of 300 [checkEnrage] compares health / 500 with the
    enrage threshold. *)
Lemma boss_max_health_is_first_phase_budget_witness :
  exists b,
    Trainer.new (rt := taxicab) "boss1" "trainer" = Some b
    /\ maxHealth (Boss.base b) = 500
    /\ maxHealth
         (Boss.base (bossRun (rt := taxicab) [BossTakeDamage 100 None] b))
       = 500
    /\ Boss.checkEnrage (bossRun (rt := taxicab) [BossTakeDamage 300 None] b)
       = (if Boss.isEnraged
               (bossRun (rt := taxicab) [BossTakeDamage 300 None] b)
          then bossRun (rt := taxicab) [BossTakeDamage 300 None] b
          else if leb (health
                         (Boss.base
                            (bossRun (rt := taxicab)
                               [BossTakeDamage 300 None] b))
                       / 500)
                      (Boss.enrageThreshold
                         (bossRun (rt := taxicab)
                            [BossTakeDamage 300 None] b))
               then Boss.enterEnrage
                      (bossRun (rt := taxicab) [BossTakeDamage 300 None] b)
               else bossRun (rt := taxicab) [BossTakeDamage 300 None] b).
Proof.
  destruct (boss_max_health_is_first_phase_budget (rt := taxicab)
              "boss1" "trainer" (Trainer.TRAINER_CONFIG (rt := taxicab))
              _ _ eq_refl)
    as (b & Hnew & _ & Hm & Hmax & Hchecks & _).
  exists b. split; [exact Hnew | split; [exact Hm |]].
  split; [apply (Hmax [BossTakeDamage 100 None]) |].
  exact (proj1 (Hchecks eq_refl [BossTakeDamage 300 None])).
Defined.

Section PhaseAdvance.

Import Boss.

Context {rt : Runtime}.

Lemma Qdiv_le_iff h m c : 0 < m -> (h / m <= c <-> h <= c * m).
Proof.
  intros Hm. split; intros H.
  - assert (E : h == h / m * m).
    { unfold Qdiv. rewrite <- Qmult_assoc, (Qmult_comm (/ m)).
      rewrite Qmult_inv_r by lra. lra. }
    rewrite E. apply Qmult_le_compat_r; lra.
  - apply Qle_shift_div_r; assumption.
Qed.

Lemma atLastPhase_first_of_two b p1 p2 :
  phases b = [p1; p2] -> currentPhaseIndex b = O -> atLastPhase b = false.
Proof. intros Hph Hidx. unfold atLastPhase. rewrite Hph, Hidx. reflexivity. Qed.

Lemma advanceToNextPhase_first_of_two b p1 p2 :
  phases b = [p1; p2] -> currentPhaseIndex b = O ->
  currentPhaseIndex (advanceToNextPhase b) = 1%nat.
Proof.
  intros Hph Hidx. unfold advanceToNextPhase.
  rewrite (atLastPhase_first_of_two b p1 p2 Hph Hidx), Hph, Hidx.
  cbn [nth_error].
  destruct (onExit p1), (onEnter p2); cbn; rewrite Hidx; reflexivity.
Qed.

(** The hit of a living boss whose list has two phases and which is in
    the first: the index moves to 1 exactly when the fraction of health
    that is left is at or below the first threshold. *)
Lemma takeDamage_first_of_two amount source b p1 p2 t1 t2 :
  isAlive (base b) = true ->
  currentPhaseIndex b = O ->
  phases b = [p1; p2] ->
  phaseHealthThresholds b = [t1; t2] ->
  (health (base (Boss.takeDamage amount source b)) / maxHealth (base b) <= t1 ->
   currentPhaseIndex (Boss.takeDamage amount source b) = 1%nat)
  /\ (t1 < health (base (Boss.takeDamage amount source b)) / maxHealth (base b) ->
      currentPhaseIndex (Boss.takeDamage amount source b) = O).
Proof.
  intros Halive Hidx Hph Hth. unfold Boss.takeDamage.
  rewrite Halive. cbn [negb].
  set (b2 := on_base (takeDamage_via die_entity amount source)
               (set_hitCount (hitCount b + 1)%Z b)).
  assert (Hmax : maxHealth (base b2) = maxHealth (base b)).
  { cbn. apply takeDamage_via_maxHealth, die_entity_maxHealth. }
  assert (Hph2 : phases b2 = [p1; p2]) by exact Hph.
  assert (Hth2 : phaseHealthThresholds b2 = [t1; t2]) by exact Hth.
  assert (Hidx2 : currentPhaseIndex b2 = O) by exact Hidx.
  destruct (checkEnrage_frame (checkPhaseTransition b2)) as (_ & Hh & _ & Hi).
  rewrite Hh, Hi.
  destruct (checkPhaseTransition_frame b2) as (_ & Hh2 & _).
  rewrite Hh2, <- Hmax.
  unfold checkPhaseTransition.
  rewrite (atLastPhase_first_of_two b2 p1 p2 Hph2 Hidx2), Hth2, Hidx2.
  cbn [nth_error].
  destruct (leb (health (base b2) / maxHealth (base b2)) t1) eqn:E.
  - split; [intros _ | intros H; apply leb_le in E; lra].
    apply (advanceToNextPhase_first_of_two b2 p1 p2 Hph2 Hidx2).
  - split; [intros H; apply leb_gt in E; lra | intros _; exact Hidx2].
Qed.

(** C2.  A boss built from a configuration with two phases of 500 each
    has maxHealth 500 and first threshold 1/2.  After any calls, while it
    is alive and in phase 0, [takeDamage] leaves it in phase 1 exactly
    when the health left is at or below half of maxHealth, and in phase 0
    otherwise.  For any boss at all, one [takeDamage] moves the phase
    index up by at most one, and no run of calls without [reset] moves it
    down. *)
Theorem two_phase_boss_advances_at_half_health :
  forall (id name : string) (config : BossConfig) (p1 p2 : BossPhaseConfig)
         (b0 : BossBase) (calls : list BossCall),
    cfg_phases config = [p1; p2] ->
    phase_health p1 == 500 ->
    phase_health p2 == 500 ->
    Boss.new id name config = Some b0 ->
    maxHealth (base (bossRun calls b0)) == 500
    /\ totalHealthOf (phases (bossRun calls b0)) == 1000
    /\ (exists t1 t2,
          phaseHealthThresholds (bossRun calls b0) = [t1; t2] /\ t1 == 1#2)
    /\ (forall amount source,
          isAlive (base (bossRun calls b0)) = true ->
          currentPhaseIndex (bossRun calls b0) = O ->
          (currentPhaseIndex (Boss.takeDamage amount source (bossRun calls b0))
           = 1%nat
           <-> health (base (Boss.takeDamage amount source (bossRun calls b0)))
               <= (1#2) * maxHealth (base (bossRun calls b0)))
          /\ (currentPhaseIndex
                (Boss.takeDamage amount source (bossRun calls b0)) = O
              <-> (1#2) * maxHealth (base (bossRun calls b0))
                  < health
                      (base (Boss.takeDamage amount source (bossRun calls b0)))))
    /\ (forall (b : BossBase) amount source,
          (currentPhaseIndex b
           <= currentPhaseIndex (Boss.takeDamage amount source b)
           <= S (currentPhaseIndex b))%nat)
    /\ (forall (b : BossBase) later,
          forallb (fun c => negb (isReset c)) later = true ->
          (currentPhaseIndex b <= currentPhaseIndex (bossRun later b))%nat).
Proof.
  intros id name config p1 p2 b0 calls Hcfg H1 H2 Hnew.
  destruct (new_first_phase id name config p1 [p2] Hcfg)
    as (b' & Hnew' & _ & Hm0 & _).
  rewrite Hnew in Hnew'. injection Hnew' as <-.
  destruct (bossRun_frame calls b0) as (Hph & Hth & Hm).
  set (b := bossRun calls b0) in *.
  assert (Hphases : phases b = [p1; p2]).
  { rewrite Hph, (new_phases _ _ _ _ Hnew). exact Hcfg. }
  assert (Hmax : maxHealth (base b) == 500) by (rewrite Hm, Hm0; exact H1).
  assert (Hthr : phaseHealthThresholds b
                 = [1 - (0 + phase_health p1) / (0 + phase_health p1 + phase_health p2);
                    1 - (0 + phase_health p1 + phase_health p2)
                        / (0 + phase_health p1 + phase_health p2)]).
  { rewrite Hth, (new_thresholds _ _ _ _ Hnew), Hcfg. reflexivity. }
  assert (Ht1 : 1 - (0 + phase_health p1)
                    / (0 + phase_health p1 + phase_health p2) == 1#2).
  { rewrite H1, H2. reflexivity. }
  split; [exact Hmax | split; [| split; [| split; [| split]]]].
  - rewrite Hphases. unfold totalHealthOf. cbn. rewrite H1, H2. reflexivity.
  - eexists. eexists. split; [exact Hthr | exact Ht1].
  - intros amount source Halive Hidx.
    destruct (takeDamage_first_of_two amount source b p1 p2 _ _
                Halive Hidx Hphases Hthr) as [Hup Hstay].
    rewrite Ht1 in Hup, Hstay.
    assert (Hpos : 0 < maxHealth (base b)) by lra.
    pose proof (Qdiv_le_iff
                  (health (base (Boss.takeDamage amount source b)))
                  (maxHealth (base b)) (1#2) Hpos) as Hiff.
    destruct (Qlt_le_dec
                ((1#2) * maxHealth (base b))
                (health (base (Boss.takeDamage amount source b))))
      as [Hgt | Hle].
    + assert (Hfrac : 1#2 < health (base (Boss.takeDamage amount source b))
                            / maxHealth (base b)).
      { apply Qnot_le_lt. intros Hc. apply Hiff in Hc. lra. }
      specialize (Hstay Hfrac). rewrite Hstay.
      split; split; intros; try assumption; try reflexivity;
        try discriminate; lra.
    + apply Hiff in Hle. specialize (Hup Hle). rewrite Hup.
      apply Hiff in Hle.
      split; split; intros; try assumption; try reflexivity;
        try discriminate; lra.
  - intros any amount source. apply takeDamage_frame.
  - intros any later. apply bossRun_index.
Qed.

End PhaseAdvance.

(** C2 on the trainer: a hit that leaves 260 of 500 keeps phase 0, the
    next one, which leaves 240, moves it to phase 1. *)
Lemma two_phase_boss_advances_at_half_health_witness :
  Boss.currentPhaseIndex
    (Boss.takeDamage (rt := taxicab) 20 None
       (bossRun (rt := taxicab) [BossTakeDamage 290 None]
          (trainer (rt := taxicab))))
  = 1%nat.
Proof.
  pose proof (two_phase_boss_advances_at_half_health (rt := taxicab)
                "boss1" "trainer" (Trainer.TRAINER_CONFIG (rt := taxicab))
                _ _ (trainer (rt := taxicab)) [BossTakeDamage 290 None]
                eq_refl (Qeq_refl 500) (Qeq_refl 500) eq_refl)
    as (_ & _ & _ & H & _).
  apply (H 20 None); [vm_compute; reflexivity | vm_compute; reflexivity |].
  vm_compute. discriminate.
Defined.

(** ** The tactical soldier: burst fire *)

Section BurstFire.

Context {rt : Runtime}.

(** With a positive burst size the branch of [performBurstFire] that sets
    the pause between bursts is never taken: the cooldown is 0.15 after
    every call. *)
Lemma performBurstFire_cooldown now s :
  (0 < SoldierAI.burstSize s)%Z ->
  attackCooldown (SoldierAI.base (SoldierAI.performBurstFire now s)) = 15#100.
Proof.
  intros Hsize. unfold SoldierAI.performBurstFire.
  destruct (SoldierAI.burstCount s <=? 0)%Z eqn:E.
  - cbn [SoldierAI.burstCount SoldierAI.set_burstCount].
    assert (E2 : (0 <? SoldierAI.burstSize s)%Z = true) by (apply Z.ltb_lt; lia).
    rewrite E2. cbn.
    destruct (gtb _ _); [| reflexivity].
    unfold SoldierAI.performAttack. cbn.
    destruct (target (SoldierAI.base s)); [| reflexivity].
    destruct (negb (isAlive (SoldierAI.base s))); [reflexivity |].
    destruct (gtb _ _); reflexivity.
  - apply Z.leb_gt in E.
    assert (E2 : (0 <? SoldierAI.burstCount s)%Z = true) by (apply Z.ltb_lt; lia).
    rewrite E2. cbn.
    destruct (gtb _ _); [| reflexivity].
    unfold SoldierAI.performAttack. cbn.
    destruct (target (SoldierAI.base s)); [| reflexivity].
    destruct (negb (isAlive (SoldierAI.base s))); [reflexivity |].
    destruct (gtb _ _); reflexivity.
Qed.

End BurstFire.

(** C8, where the code departs from it.  A soldier with a target in range
    fires at 1000, 1151 and 1302 ms: three shots, and the burst counter is
    back at 0.  The next call, at 1453 ms, 151 ms after the third shot,
    fires a fourth shot and leaves the cooldown at 0.15: no 0.5 s pause
    separates the bursts. *)
Theorem burst_fire_has_no_pause_between_bursts :
  let s3 := burstFireAt (rt := taxicab) [1000; 1151; 1302]
              (soldierWithTarget (rt := taxicab)) in
  let s4 := SoldierAI.performBurstFire (rt := taxicab) 1453 s3 in
  shotCount (log (SoldierAI.base s3)) = 3%nat
  /\ SoldierAI.burstCount s3 = 0%Z
  /\ lastAttackTime (SoldierAI.base s3) = 1302
  /\ shotCount (log (SoldierAI.base s4)) = 4%nat
  /\ lastAttackTime (SoldierAI.base s4) = 1453
  /\ attackCooldown (SoldierAI.base s4) = 15#100
  /\ 1453 - 1302 < 500.
Proof.
  vm_compute. repeat split.
Qed.

(** ** The tactical soldier: cover *)

Section SoldierFacts.

Import SoldierAI.

Context {rt : Runtime}.

Lemma sameStance_refl s : sameStance s s.
Proof. repeat split. Qed.

Lemma sameStance_trans s1 s2 s3 :
  sameStance s1 s2 -> sameStance s2 s3 -> sameStance s1 s3.
Proof.
  intros (A1 & A2 & A3 & A4 & A5 & A6 & A7) (B1 & B2 & B3 & B4 & B5 & B6 & B7).
  repeat split; congruence.
Qed.

Lemma random_stance s : sameStance s (snd (random s)).
Proof. repeat split. Qed.

Lemma turnAndMove_stance direction speed s :
  sameStance s (on_base (turnAndMove direction speed) s).
Proof. repeat split. Qed.

Lemma moveToCover_stance p s : sameStance s (moveToCover p s).
Proof.
  unfold moveToCover. destruct (gtb _ _); repeat split.
Qed.

Lemma searchForCover_stance s : sameStance s (snd (searchForCover s)).
Proof. repeat split. Qed.

Lemma selectBestCover_stance s : sameStance s (snd (selectBestCover s)).
Proof.
  unfold selectBestCover.
  destruct (target (base s)) as [t |]; [| apply sameStance_refl].
  match goal with
  | |- context [fold_left ?F _ _] => set (step := F)
  end.
  assert (H : forall l acc,
             sameStance s (snd acc) ->
             sameStance s (snd (fold_left step l acc))).
  { induction l as [| c l IH]; intros [[bestCover bestScore] s1] Hacc;
      [exact Hacc |].
    cbn [fold_left]. apply IH. unfold step. cbn.
    destruct bestScore as [b |]; [destruct (gtb _ b) |];
      (eapply sameStance_trans; [exact Hacc | repeat split]). }
  specialize (H (coverSpots (base s)) (None, None, s) (sameStance_refl s)).
  destruct (fold_left step (coverSpots (base s)) (None, None, s))
    as [[bestCover bestScore] s1].
  exact H.
Qed.

(** [findAndMoveToCover] sets the state to Cover and otherwise leaves the
    stance as [setState] leaves it. *)
Lemma findAndMoveToCover_stance s :
  sameStance (on_base (setState COVER) s) (findAndMoveToCover s).
Proof.
  unfold findAndMoveToCover.
  set (s1 := on_base (setState COVER) s).
  assert (H : sameStance s1
                (snd (match coverSpots (base s1) with
                      | [] => searchForCover s1
                      | _ :: _ => selectBestCover s1
                      end))).
  { destruct (coverSpots (base s1));
      [apply searchForCover_stance | apply selectBestCover_stance]. }
  destruct (match coverSpots (base s1) with
            | [] => searchForCover s1
            | _ :: _ => selectBestCover s1
            end) as [c s2].
  cbn [snd] in H. cbn [coverState set_coverState].
  destruct c as [c |].
  - eapply sameStance_trans; [exact H |].
    eapply sameStance_trans; [| apply moveToCover_stance]. repeat split.
  - eapply sameStance_trans; [exact H | repeat split].
Qed.

Lemma findAndMoveToCover_state s : state (base (findAndMoveToCover s)) = COVER.
Proof.
  destruct (findAndMoveToCover_stance s) as (H & _). rewrite H.
  cbn. apply setState_state.
Qed.


Lemma findAndMoveToCover_health s :
  health (base (findAndMoveToCover s)) = health (base s)
  /\ maxHealth (base (findAndMoveToCover s)) = maxHealth (base s).
Proof.
  destruct (findAndMoveToCover_stance s) as (_ & H1 & H2 & _).
  rewrite H1, H2. cbn. rewrite setState_health, setState_maxHealth.
  split; reflexivity.
Qed.







End SoldierFacts.

Section CoverSeeking.

Import SoldierAI.

Context {rt : Runtime}.




Lemma takeDamage_low_health_cover amount source s :
  health (base (SoldierAI.takeDamage amount source s))
  < maxHealth (base (SoldierAI.takeDamage amount source s)) * (1#2) ->
  state (base (SoldierAI.takeDamage amount source s)) = COVER.
Proof.
  unfold SoldierAI.takeDamage.
  set (s2 := set_suppressTimer
               (suppressTimer (on_base (AI.takeDamage amount source) s) + 1)
               (on_base (AI.takeDamage amount source) s)).
  destruct (ltb (health (base s2)) (maxHealth (base s2) * (1#2))) eqn:E1.
  - destruct (AIState_beq (state (base s2)) COVER) eqn:E2; cbn [andb negb].
    + intros _. apply AIState_beq_eq. exact E2.
    + intros _. apply findAndMoveToCover_state.
  - cbn [andb]. intros H. apply ltb_ge in E1. lra.
Qed.








End CoverSeeking.



(** ** Death callbacks, for every kind of entity *)

Section DeathOnceEverywhere.

Context {rt : Runtime}.

Lemma takeDamage_via_deathCount d amount source e :
  (forall x, deathCount (log (d x)) = S (deathCount (log x))) ->
  (forall x, isAlive (d x) = false) ->
  isAlive e = true ->
  deathCount (log (takeDamage_via d amount source e))
  = (deathCount (log e)
     + if isAlive (takeDamage_via d amount source e) then 0 else 1)%nat.
Proof.
  intros Hcount Hdead Halive.
  rewrite takeDamage_via_stages by exact Halive.
  rewrite deathCount_coverIfArmoredSoldier, coverIfArmoredSoldier_isAlive.
  destruct (leb _ 0).
  - rewrite Hcount, Hdead, deathCount_struck. lia.
  - rewrite deathCount_struck, struck_isAlive, Halive. lia.
Qed.

Lemma die_entity_deathCount e :
  deathCount (log (Boss.die_entity e)) = S (deathCount (log e)).
Proof.
  unfold Boss.die_entity. cbv zeta. rewrite fire_log.
  cbn [deathCount]. apply deathCount_die.
Qed.

Lemma die_entity_isAlive e : isAlive (Boss.die_entity e) = false.
Proof.
  unfold Boss.die_entity. cbv zeta. rewrite fire_isAlive. apply die_isAlive.
Qed.

Lemma advanceToNextPhase_deathCount b :
  deathCount (log (Boss.base (Boss.advanceToNextPhase b)))
  = deathCount (log (Boss.base b)).
Proof.
  unfold Boss.advanceToNextPhase.
  destruct (Boss.atLastPhase b); [reflexivity |].
  destruct (nth_error _ (Boss.currentPhaseIndex b)) as [oldPhase |];
    [| reflexivity].
  destruct (nth_error _ (S _)) as [newPhase |]; [| reflexivity].
  destruct (Boss.onExit oldPhase), (Boss.onEnter newPhase); reflexivity.
Qed.

Lemma checkPhaseTransition_deathCount b :
  deathCount (log (Boss.base (Boss.checkPhaseTransition b)))
  = deathCount (log (Boss.base b)).
Proof.
  unfold Boss.checkPhaseTransition.
  destruct (Boss.atLastPhase b); [reflexivity |].
  destruct (nth_error _ _); [| reflexivity].
  destruct (leb _ _); [apply advanceToNextPhase_deathCount | reflexivity].
Qed.

Lemma checkEnrage_deathCount b :
  deathCount (log (Boss.base (Boss.checkEnrage b)))
  = deathCount (log (Boss.base b)).
Proof.
  unfold Boss.checkEnrage, Boss.enterEnrage.
  destruct (Boss.isEnraged b); [reflexivity |].
  destruct (leb _ _); reflexivity.
Qed.

Lemma boss_takeDamage_dead amount source b :
  isAlive (Boss.base b) = false -> Boss.takeDamage amount source b = b.
Proof. intros H. unfold Boss.takeDamage. rewrite H. reflexivity. Qed.

Lemma boss_takeDamage_deathCount amount source b :
  isAlive (Boss.base b) = true ->
  deathCount (log (Boss.base (Boss.takeDamage amount source b)))
  = (deathCount (log (Boss.base b))
     + if isAlive (Boss.base (Boss.takeDamage amount source b))
       then 0 else 1)%nat.
Proof.
  intros Halive. unfold Boss.takeDamage. rewrite Halive. cbn [negb].
  set (b2 := Boss.on_base (takeDamage_via Boss.die_entity amount source)
               (Boss.set_hitCount (Boss.hitCount b + 1)%Z b)).
  rewrite checkEnrage_deathCount, checkPhaseTransition_deathCount.
  destruct (checkEnrage_frame (Boss.checkPhaseTransition b2))
    as (_ & _ & Ha1 & _).
  destruct (checkPhaseTransition_frame b2) as (_ & _ & Ha2 & _).
  rewrite Ha1, Ha2.
  apply (takeDamage_via_deathCount Boss.die_entity amount source (Boss.base b)
           die_entity_deathCount die_entity_isAlive Halive).
Qed.

Lemma bossHits_dead l b : isAlive (Boss.base b) = false -> bossHits l b = b.
Proof.
  induction l as [| [amount source] l IH]; intros H; [reflexivity |].
  cbn [bossHits fold_left fst snd].
  rewrite boss_takeDamage_dead by exact H. apply IH, H.
Qed.

Lemma bossHits_deathCount l :
  forall b,
    isAlive (Boss.base b) = true ->
    deathCount (log (Boss.base (bossHits l b)))
    = (deathCount (log (Boss.base b))
       + if isAlive (Boss.base (bossHits l b)) then 0 else 1)%nat.
Proof.
  induction l as [| [amount source] l IH]; intros b Halive.
  - cbn. rewrite Halive. lia.
  - cbn [bossHits fold_left fst snd].
    fold (bossHits l (Boss.takeDamage amount source b)).
    pose proof (boss_takeDamage_deathCount amount source b Halive) as Hstep.
    destruct (isAlive (Boss.base (Boss.takeDamage amount source b))) eqn:E.
    + rewrite IH by exact E. rewrite Hstep. lia.
    + rewrite bossHits_dead by exact E. rewrite E. exact Hstep.
Qed.

(** A soldier's [takeDamage] after the entity's: nothing that follows
    fires the death callbacks or revives the soldier. *)
Lemma soldier_takeDamage_after amount source s :
  deathCount (log (SoldierAI.base (SoldierAI.takeDamage amount source s)))
  = deathCount (log (takeDamage amount source (SoldierAI.base s)))
  /\ isAlive (SoldierAI.base (SoldierAI.takeDamage amount source s))
     = isAlive (takeDamage amount source (SoldierAI.base s)).
Proof.
  unfold SoldierAI.takeDamage.
  set (s2 := SoldierAI.set_suppressTimer _ _).
  destruct (_ && _); [| split; reflexivity].
  destruct (findAndMoveToCover_stance s2) as (_ & _ & _ & Ha & _ & _ & Hd).
  rewrite Ha, Hd. cbn.
  rewrite deathCount_setState, setState_isAlive. split; reflexivity.
Qed.

Lemma soldierHits_deathCount l :
  forall s,
    deathCount (log (SoldierAI.base (soldierHits l s)))
    = (deathCount (log (SoldierAI.base s))
       + if isAlive (SoldierAI.base s)
            && negb (isAlive (SoldierAI.base (soldierHits l s)))
         then 1 else 0)%nat
    /\ (isAlive (SoldierAI.base s) = false ->
        isAlive (SoldierAI.base (soldierHits l s)) = false).
Proof.
  induction l as [| [amount source] l IH]; intros s.
  - cbn. destruct (isAlive (SoldierAI.base s)); cbn; split; auto; lia.
  - cbn [soldierHits fold_left fst snd].
    fold (soldierHits l (SoldierAI.takeDamage amount source s)).
    destruct (IH (SoldierAI.takeDamage amount source s)) as [IHc IHd].
    destruct (soldier_takeDamage_after amount source s) as [Hc Ha].
    rewrite Hc in IHc. rewrite Ha in IHc, IHd. rewrite IHc. clear IHc Hc Ha.
    destruct (isAlive (SoldierAI.base s)) eqn:Halive.
    + rewrite (takeDamage_deathCount amount source _ Halive).
      destruct (isAlive (takeDamage amount source (SoldierAI.base s))) eqn:E.
      * cbn [andb]. split; [lia | discriminate].
      * rewrite (IHd eq_refl). cbn. split; [lia | discriminate].
    + rewrite takeDamage_dead in * by exact Halive.
      rewrite Halive in *. rewrite (IHd eq_refl). cbn.
      split; [lia | reflexivity].
Qed.

(** What holds of the death callbacks for every kind of entity.  Over
    any run of [takeDamage] calls on a living entity the on-death
    callbacks are fired once if the entity is dead at the end and not at
    all otherwise.  A call kills exactly when health, less what the
    armour leaves of the hit, is at or below 0; [die] then runs, its
    observers see alive=false, state=Dead, zero velocity and health 0, and
    the callbacks are fired once.  Any later call, whatever the amount,
    returns the entity unchanged.  The count is the same for a boss, whose
    [takeDamage] has the same guard, and for a soldier, whose [takeDamage]
    has none: a later call on a dead soldier fires no callback, but it
    is not a no-op. *)
Theorem death_callbacks_fire_once :
  forall (l : list (Q * option Object3D)) (e : AICharacter),
    isAlive e = true ->
    deathCount (log (hits l e))
    = (deathCount (log e) + if isAlive (hits l e) then 0 else 1)%nat
    /\ (forall amount source,
          health e - remainder e amount <= 0 ->
          isAlive (takeDamage amount source e) = false
          /\ health (takeDamage amount source e) = 0
          /\ velocity (takeDamage amount source e) = zero3
          /\ deathCount (log (takeDamage amount source e))
             = S (deathCount (log e))
          /\ exists seen,
               In (DeathCallbacks seen) (log (takeDamage amount source e))
               /\ seen_isAlive seen = false
               /\ seen_state seen = DEAD
               /\ seen_velocity seen = zero3
               /\ seen_health seen = 0)
    /\ (forall amount source,
          0 < health e - remainder e amount ->
          isAlive (takeDamage amount source e) = true
          /\ deathCount (log (takeDamage amount source e))
             = deathCount (log e))
    /\ (forall amount source later,
          isAlive (takeDamage amount source e) = false ->
          hits later (takeDamage amount source e)
          = takeDamage amount source e)
    /\ (forall (b : Boss.BossBase),
          isAlive (Boss.base b) = true ->
          deathCount (log (Boss.base (bossHits l b)))
          = (deathCount (log (Boss.base b))
             + if isAlive (Boss.base (bossHits l b)) then 0 else 1)%nat
          /\ (forall amount source later,
                isAlive (Boss.base (Boss.takeDamage amount source b)) = false ->
                bossHits later (Boss.takeDamage amount source b)
                = Boss.takeDamage amount source b))
    /\ (forall (s : SoldierAI.Soldier),
          isAlive (SoldierAI.base s) = true ->
          deathCount (log (SoldierAI.base (soldierHits l s)))
          = (deathCount (log (SoldierAI.base s))
             + if isAlive (SoldierAI.base (soldierHits l s)) then 0 else 1)%nat).
Proof.
  intros l e Halive.
  destruct (entity_death_once l e Halive) as (H1 & H2 & H3 & H4).
  split; [exact H1 | split; [exact H2 | split; [exact H3 | split; [exact H4 |]]]].
  split.
  - intros b Hb. split.
    + apply bossHits_deathCount, Hb.
    + intros amount source later Hdead. apply bossHits_dead, Hdead.
  - intros s Hs.
    destruct (soldierHits_deathCount l s) as [Hc _].
    rewrite Hc, Hs. cbn [andb].
    destruct (isAlive (SoldierAI.base (soldierHits l s))); reflexivity.
Qed.

End DeathOnceEverywhere.

(** On an entity with health 100 and no armour: the second hit kills,
    and hits of 0 and of -5 follow. *)
Lemma death_callbacks_fire_once_witness :
  deathCount
    (log (hits (rt := taxicab)
            [(60, None); (60, None); (0, None); (-5, None)]
            (AI.new (rt := taxicab) "e1" "entity" (plainConfig GRUNT 100 0))))
  = 1%nat.
Proof.
  rewrite (proj1 (death_callbacks_fire_once (rt := taxicab)
                    [(60, None); (60, None); (0, None); (-5, None)]
                    (AI.new (rt := taxicab) "e1" "entity"
                       (plainConfig GRUNT 100 0))
                    eq_refl)).
  reflexivity.
Defined.

(** * Further properties *)

(** ** Composite nodes *)

Section CompositeFacts.

Import BT TreeShape.

Context {W : Type}.

Lemma sequence_cons name (c : BTNode W) cs w :
  execute (BTSequence name (c :: cs)) w
  = match snd (execute c w) with
    | SUCCESS => execute (BTSequence name cs) (fst (execute c w))
    | other => (fst (execute c w), other)
    end.
Proof.
  cbn [execute]. destruct (execute c w) as [w' r]. destruct r; reflexivity.
Qed.

Lemma selector_cons name (c : BTNode W) cs w :
  execute (BTSelector name (c :: cs)) w
  = match snd (execute c w) with
    | FAILURE => execute (BTSelector name cs) (fst (execute c w))
    | other => (fst (execute c w), other)
    end.
Proof.
  cbn [execute]. destruct (execute c w) as [w' r]. destruct r; reflexivity.
Qed.

Lemma sequence_name n1 n2 (cs : list (BTNode W)) w :
  execute (BTSequence n1 cs) w = execute (BTSequence n2 cs) w.
Proof. reflexivity. Qed.

Lemma selector_name n1 n2 (cs : list (BTNode W)) w :
  execute (BTSelector n1 cs) w = execute (BTSelector n2 cs) w.
Proof. reflexivity. Qed.

(** X1.  A Sequence runs its children in order on the world the previous
    one left.  With no child it succeeds at once and with one it is that
    child.  When a prefix of the children succeeds the Sequence goes on
    with the rest from the world the prefix left; when a prefix does not
    succeed (a child failed or is running) the Sequence stops there with
    that status and that world: the children after it are not run. *)
Theorem sequence_runs_until_a_child_does_not_succeed :
  forall (name : string) (pre post : list (BTNode W)) (c : BTNode W) (w : W),
    execute (BTSequence name []) w = (w, SUCCESS)
    /\ execute (BTSequence name [c]) w = execute c w
    /\ (snd (execute (BTSequence name pre) w) = SUCCESS ->
        execute (BTSequence name (pre ++ post)) w
        = execute (BTSequence name post)
            (fst (execute (BTSequence name pre) w)))
    /\ (snd (execute (BTSequence name pre) w) <> SUCCESS ->
        execute (BTSequence name (pre ++ post)) w
        = execute (BTSequence name pre) w).
Proof.
  intros name pre post c w. split; [reflexivity | split].
  { rewrite sequence_cons. destruct (execute c w) as [w' r].
    destruct r; reflexivity. }
  revert w. induction pre as [| p pre IH]; intros w.
  - split; [reflexivity | intros H; exfalso; apply H; reflexivity].
  - change ((p :: pre) ++ post) with (p :: (pre ++ post)).
    rewrite !sequence_cons.
    destruct (execute p w) as [w' r]. cbn [fst snd].
    destruct r; try (split; [discriminate | reflexivity]).
    apply IH.
Qed.

(** X2.  A Selector is the mirror image: with no child it fails at once,
    while a prefix of the children fails it goes on with the rest, and
    the first child that succeeds or is running ends it with that status;
    the children after it are not run. *)
Theorem selector_runs_until_a_child_does_not_fail :
  forall (name : string) (pre post : list (BTNode W)) (c : BTNode W) (w : W),
    execute (BTSelector name []) w = (w, FAILURE)
    /\ execute (BTSelector name [c]) w = execute c w
    /\ (snd (execute (BTSelector name pre) w) = FAILURE ->
        execute (BTSelector name (pre ++ post)) w
        = execute (BTSelector name post)
            (fst (execute (BTSelector name pre) w)))
    /\ (snd (execute (BTSelector name pre) w) <> FAILURE ->
        execute (BTSelector name (pre ++ post)) w
        = execute (BTSelector name pre) w).
Proof.
  intros name pre post c w. split; [reflexivity | split].
  { rewrite selector_cons. destruct (execute c w) as [w' r].
    destruct r; reflexivity. }
  revert w. induction pre as [| p pre IH]; intros w.
  - split; [reflexivity | intros H; exfalso; apply H; reflexivity].
  - change ((p :: pre) ++ post) with (p :: (pre ++ post)).
    rewrite !selector_cons.
    destruct (execute p w) as [w' r]. cbn [fst snd].
    destruct r; try (split; [discriminate | reflexivity]).
    apply IH.
Qed.

Lemma inverter_execute name (c : BTNode W) params w :
  execute (BTDecorator name INVERTER c params) w
  = (fst (execute c w),
     match snd (execute c w) with
     | SUCCESS => FAILURE
     | FAILURE => SUCCESS
     | RUNNING => RUNNING
     end).
Proof.
  cbn [execute]. destruct (execute c w) as [w' r]. destruct r; reflexivity.
Qed.

(** X3.  Inverting twice is running the child, and an Inverter moves
    through the composites as negation does through "and" and "or": an
    inverted Sequence does what the Selector of the inverted children
    does, and an inverted Selector what the Sequence of the inverted
    children does, status and world alike. *)
Theorem inverter_swaps_sequence_and_selector :
  forall (n1 n2 n3 : string) (params : list (string * Q))
         (c : BTNode W) (cs : list (BTNode W)) (w : W),
    execute (BTDecorator n1 INVERTER (BTDecorator n2 INVERTER c params) params) w
    = execute c w
    /\ execute (BTDecorator n1 INVERTER (BTSequence n2 cs) params) w
       = execute (BTSelector n3 (inverted cs)) w
    /\ execute (BTDecorator n1 INVERTER (BTSelector n2 cs) params) w
       = execute (BTSequence n3 (inverted cs)) w.
Proof.
  intros n1 n2 n3 params c cs w. split; [| split].
  - rewrite !inverter_execute. cbn [fst snd].
    destruct (execute c w) as [w' r]. destruct r; reflexivity.
  - revert w. induction cs as [| k cs IH]; intros w; [reflexivity |].
    rewrite inverter_execute in *.
    change (inverted (k :: cs))
      with (BTDecorator "not" INVERTER k [] :: inverted cs).
    rewrite sequence_cons, selector_cons, inverter_execute. cbn [fst snd].
    destruct (execute k w) as [w' r]. cbn [fst snd].
    destruct r; try reflexivity.
    rewrite <- IH, inverter_execute. reflexivity.
  - revert w. induction cs as [| k cs IH]; intros w; [reflexivity |].
    rewrite inverter_execute in *.
    change (inverted (k :: cs))
      with (BTDecorator "not" INVERTER k [] :: inverted cs).
    rewrite sequence_cons, selector_cons, inverter_execute. cbn [fst snd].
    destruct (execute k w) as [w' r]. cbn [fst snd].
    destruct r; try reflexivity.
    rewrite <- IH, inverter_execute. reflexivity.
Qed.

End CompositeFacts.

(** X1 on call-counting stubs: the stub after the failing one is not
    called. *)
Lemma sequence_runs_until_a_child_does_not_succeed_witness :
  BT.execute
    (BT.BTSequence "s"
       ([BT.countingStub BT.SUCCESS; BT.countingStub BT.FAILURE]
        ++ [BT.countingStub BT.SUCCESS])) O
  = (2%nat, BT.FAILURE).
Proof.
  rewrite (proj2 (proj2 (proj2
             (sequence_runs_until_a_child_does_not_succeed "s"
                [BT.countingStub BT.SUCCESS; BT.countingStub BT.FAILURE]
                [BT.countingStub BT.SUCCESS] (BT.countingStub BT.SUCCESS) O)))).
  - reflexivity.
  - cbn. discriminate.
Defined.

(** X2 on call-counting stubs: the stub after the succeeding one is not
    called. *)
Lemma selector_runs_until_a_child_does_not_fail_witness :
  BT.execute
    (BT.BTSelector "s"
       ([BT.countingStub BT.FAILURE; BT.countingStub BT.SUCCESS]
        ++ [BT.countingStub BT.FAILURE])) O
  = (2%nat, BT.SUCCESS).
Proof.
  rewrite (proj2 (proj2 (proj2
             (selector_runs_until_a_child_does_not_fail "s"
                [BT.countingStub BT.FAILURE; BT.countingStub BT.SUCCESS]
                [BT.countingStub BT.FAILURE] (BT.countingStub BT.FAILURE) O)))).
  - reflexivity.
  - cbn. discriminate.
Defined.

Section PureTrees.

Import BT TreeShape.

Context {W : Type}.

Variable R : W -> W -> Prop.
Hypothesis R_refl : forall w, R w w.
Hypothesis R_trans : forall w1 w2 w3, R w1 w2 -> R w2 w3 -> R w1 w3.

(** X4.  Composite and decorator nodes write nothing of their own: the
    world a tree ends in is reached from the world it started in through
    the writes of its leaves alone.  So whatever relation between the
    world before and the world after every leaf of the tree keeps, if it
    is reflexive and transitive, evaluating the tree keeps it.  A
    condition is a leaf like an action here: nothing in [BTCondition]
    stops its function from writing to the context. *)
Theorem tree_keeps_what_its_leaves_keep :
  forall (n : BTNode W) (w : W),
    leavesKeep R n -> R w (fst (execute n w)).
Proof.
  fix IH 1. intros n w.
  destruct n as [name cs | name cs | name cond | name act | name dt child params].
  - cbn [leavesKeep]. revert w.
    induction cs as [| c cs IHcs]; intros w H; [apply R_refl |].
    destruct H as [Hc Hcs].
    rewrite sequence_cons. specialize (IH c w Hc).
    destruct (execute c w) as [w' r]. cbn [fst snd] in *.
    destruct r; try exact IH.
    apply (R_trans w w'); [exact IH | apply IHcs, Hcs].
  - cbn [leavesKeep]. revert w.
    induction cs as [| c cs IHcs]; intros w H; [apply R_refl |].
    destruct H as [Hc Hcs].
    rewrite selector_cons. specialize (IH c w Hc).
    destruct (execute c w) as [w' r]. cbn [fst snd] in *.
    destruct r; try exact IH.
    apply (R_trans w w'); [exact IH | apply IHcs, Hcs].
  - cbn [leavesKeep execute]. intros H. specialize (H w).
    destruct (cond w) as [w' holds]. exact H.
  - cbn [leavesKeep execute]. intros H. apply H.
  - cbn [leavesKeep]. intros H. specialize (IH child w H).
    cbn [execute]. destruct (execute child w) as [w' r].
    cbn [fst] in IH. destruct dt; exact IH.
Qed.

End PureTrees.

(** X4 on a counter that its leaves only raise: a condition that counts
    its own calls, a call-counting stub and an Inverter under a Selector
    leave the counter at 7 or above. *)
Lemma tree_keeps_what_its_leaves_keep_witness :
  (7 <= fst (BT.execute
               (BT.BTSelector "root"
                  [BT.BTDecorator "not" BT.INVERTER
                     (BT.BTCondition "counted"
                        (fun n => (S n, Nat.ltb 0 n))) [];
                   BT.BTSequence "both"
                     [BT.BTCondition "small" (fun n => (n, Nat.ltb n 10));
                      BT.countingStub BT.SUCCESS]])
               7%nat))%nat.
Proof.
  apply (tree_keeps_what_its_leaves_keep le Nat.le_refl Nat.le_trans).
  cbn. repeat split; intros w; lia.
Defined.

(** ** The entity's tick *)

Section TickNeverAttacks.

Import EntityShape.

Context {rt : Runtime}.

Lemma holdsFire_refl e : holdsFire e e.
Proof. split; reflexivity. Qed.

Lemma holdsFire_trans e1 e2 e3 :
  holdsFire e1 e2 -> holdsFire e2 e3 -> holdsFire e1 e3.
Proof. intros [A1 A2] [B1 B2]. split; congruence. Qed.

Lemma setState_lastAttackTime s e :
  lastAttackTime (setState s e) = lastAttackTime e.
Proof.
  unfold setState. destruct (AIState_beq (state e) s); [reflexivity |].
  unfold onExitState, onEnterState, fire. destruct (state e), s; reflexivity.
Qed.

Lemma holdsFire_setState s e : holdsFire e (setState s e).
Proof.
  split; [apply setState_lastAttackTime |].
  destruct (setState_log s e) as [H | (x & H & _)]; rewrite H; reflexivity.
Qed.

Lemma holdsFire_moveToward p speed dt e : holdsFire e (moveToward p speed dt e).
Proof. unfold moveToward. destruct (gtb _ _); split; reflexivity. Qed.

Lemma holdsFire_onApproachTarget t e : holdsFire e (onApproachTarget t e).
Proof.
  unfold onApproachTarget. destruct (gtb _ _).
  - eapply holdsFire_trans; [apply holdsFire_setState | apply holdsFire_moveToward].
  - destruct (ltb _ _); [apply holdsFire_moveToward | apply holdsFire_setState].
Qed.

Lemma holdsFire_onPatrol e : holdsFire e (onPatrol e).
Proof.
  unfold onPatrol.
  eapply holdsFire_trans; [apply (holdsFire_setState PATROL) |].
  generalize (setState PATROL e) as e1. intros e1.
  destruct (patrolPoints e1); [apply holdsFire_setState |].
  destruct (gtb (patrolWaitTime e1) 0); [split; reflexivity |].
  destruct (patrolPointAt e1); [| apply holdsFire_refl].
  destruct (ltb _ 1); [| apply holdsFire_moveToward].
  cbn.
  repeat match goal with
         | |- context [if ?c then _ else _] => destruct c
         end; split; reflexivity.
Qed.

Lemma holdsFire_updatePerception dt now e :
  holdsFire e (updatePerception dt now e).
Proof.
  unfold updatePerception.
  destruct (target e); [| split; reflexivity].
  destruct (negb (isAlive e)); [split; reflexivity |].
  cbn. destruct (checkLineOfSight _); split; reflexivity.
Qed.

Lemma holdsFire_applyMovement dt e : holdsFire e (applyMovement dt e).
Proof. unfold applyMovement. destruct (mesh e); split; reflexivity. Qed.

Lemma holdsFire_updateStun dt e : holdsFire e (updateStun dt e).
Proof.
  unfold updateStun. cbn. destruct (leb _ 0); [| split; reflexivity].
  eapply holdsFire_trans; [| apply holdsFire_setState]. split; reflexivity.
Qed.

(** One evaluation of the entity's tree: what it reports, and that it
    holds fire. *)
Lemma enemy_tree_evaluation now c e :
  snd (BT.execute (createEnemyBehaviorTree now) {| ctx := c; self := e |})
  = (if ltb (ctx_health c) (ctx_maxHealth c * (3#10)) then BT.SUCCESS
     else if ctx_hasLineOfSight c then BT.RUNNING
     else BT.SUCCESS)
  /\ holdsFire e
       (self (fst (BT.execute (createEnemyBehaviorTree now)
                     {| ctx := c; self := e |}))).
Proof.
  unfold createEnemyBehaviorTree. cbn.
  destruct (ltb _ _); cbn.
  { split; [reflexivity | apply holdsFire_setState]. }
  destruct (ctx_hasLineOfSight c); cbn.
  { destruct (ctx_target c); cbn;
      (split; [reflexivity |]);
      [apply holdsFire_onApproachTarget | apply holdsFire_refl]. }
  split; [reflexivity | apply holdsFire_onPatrol].
Qed.

(** X5.  The tree every entity is given never fails and never attacks.
    It reports Success when health is below 30% of maxHealth (it
    retreats), Running when the target is in sight (the approach leaf
    always reports Running, so the attack leaf after it in the Sequence
    is never reached), and Success otherwise (it patrols).  Hence no
    [update] of an entity announces an attack or moves the time of the
    last attack. *)
Theorem entity_update_never_attacks :
  forall (dt now : Q) (c : BTContext) (e : AICharacter),
    snd (BT.execute (createEnemyBehaviorTree now) {| ctx := c; self := e |})
    = (if ltb (ctx_health c) (ctx_maxHealth c * (3#10)) then BT.SUCCESS
       else if ctx_hasLineOfSight c then BT.RUNNING
       else BT.SUCCESS)
    /\ snd (BT.execute (createEnemyBehaviorTree now) {| ctx := c; self := e |})
       <> BT.FAILURE
    /\ lastAttackTime (update dt now e) = lastAttackTime e
    /\ shotCount (log (update dt now e)) = shotCount (log e).
Proof.
  intros dt now c e.
  destruct (enemy_tree_evaluation now c e) as [Hst _].
  split; [exact Hst | split].
  { rewrite Hst. destruct (ltb _ _); [discriminate |].
    destruct (ctx_hasLineOfSight c); discriminate. }
  change (holdsFire e (update dt now e)).
  unfold update.
  destruct (negb (isAlive e)); [apply holdsFire_refl |].
  destruct (isStunned e); [apply holdsFire_updateStun |].
  eapply holdsFire_trans; [apply (holdsFire_updatePerception dt now) |].
  eapply holdsFire_trans; [| apply holdsFire_applyMovement].
  unfold BT.update. destruct (negb _); [apply holdsFire_refl |].
  apply enemy_tree_evaluation.
Qed.

End TickNeverAttacks.

(** ** State changes *)

Section StateChanges.

Import EntityShape.

Context {rt : Runtime}.

Lemma AIState_beq_neq a b : AIState_beq a b = false <-> a <> b.
Proof.
  split.
  - intros H E. apply AIState_beq_eq in E. congruence.
  - intros H. destruct (AIState_beq a b) eqn:E; [| reflexivity].
    apply AIState_beq_eq in E. contradiction.
Qed.

Lemma setState_same s e : state e = s -> setState s e = e.
Proof.
  intros H. unfold setState.
  assert (E : AIState_beq (state e) s = true) by (apply AIState_beq_eq, H).
  rewrite E. reflexivity.
Qed.

Lemma setState_changed s e :
  state e <> s ->
  setState s e
  = fire (StateChangeCallbacks s (state e)
            (see (onEnterState s
                    (onExitState (state e)
                       (set_state s (set_previousState (state e) e))))))
      (onEnterState s
         (onExitState (state e) (set_state s (set_previousState (state e) e)))).
Proof.
  intros H. unfold setState. apply AIState_beq_neq in H. rewrite H. reflexivity.
Qed.

(** X6.  [setState] to the current state changes nothing and notifies
    nobody.  To another state it records the old state as the previous
    one, runs the exit hook of the old state and the enter hook of the new
    one, and then calls the observers once, which see the new state.  The
    hooks: leaving Cover forgets the cover spot, entering Patrol zeroes
    the velocity, entering Cover zeroes the cover timer.  Setting the same
    state twice is setting it once. *)
Theorem setState_notifies_once_per_change :
  forall (s : AIState) (e : AICharacter),
    (state e = s -> setState s e = e)
    /\ (state e <> s ->
        state (setState s e) = s
        /\ previousState (setState s e) = state e
        /\ (exists seen,
              log (setState s e)
              = StateChangeCallbacks s (state e) seen :: log e
              /\ seen_state seen = s)
        /\ (state e = COVER -> currentCoverSpot (setState s e) = None)
        /\ (s = PATROL -> velocity (setState s e) = zero3)
        /\ (s = COVER -> coverTimer (setState s e) = 0))
    /\ setState s (setState s e) = setState s e
    /\ stateChangeCount (log (setState s e))
       = (stateChangeCount (log e)
          + if AIState_beq (state e) s then 0 else 1)%nat.
Proof.
  intros s e. split; [apply setState_same | split; [| split]].
  - intros Hne. rewrite (setState_changed s e Hne).
    split; [destruct (state e), s; reflexivity |].
    split; [destruct (state e), s; reflexivity |].
    split; [destruct (state e), s; eexists; split; reflexivity |].
    split; [intros Hc; rewrite Hc in *; destruct s; try reflexivity;
            exfalso; apply Hne; reflexivity |].
    split; [intros ->; destruct (state e); reflexivity |].
    intros ->. destruct (state e) eqn:E; try reflexivity.
  - apply setState_same, setState_state.
  - destruct (AIState_beq (state e) s) eqn:E.
    + apply AIState_beq_eq in E. rewrite setState_same by exact E. lia.
    + apply AIState_beq_neq in E. rewrite (setState_changed s e E).
      rewrite fire_log.
      change (S (stateChangeCount
                   (log (onEnterState s
                           (onExitState (state e)
                              (set_state s (set_previousState (state e) e))))))
              = (stateChangeCount (log e) + 1)%nat).
      replace (log (onEnterState s
                      (onExitState (state e)
                         (set_state s (set_previousState (state e) e)))))
        with (log e) by (destruct (state e), s; reflexivity).
      lia.
Qed.

End StateChanges.

(** X6 on a fresh entity sent to Cover, then on patrol. *)
Lemma setState_notifies_once_per_change_witness :
  currentCoverSpot
    (setState PATROL
       (set_currentCoverSpot (Some zero3)
          (setState COVER
             (AI.new (rt := taxicab) "e1" "entity" (plainConfig GRUNT 100 0)))))
  = None.
Proof.
  apply (proj2 (proj2 (proj2 (proj1 (proj2
           (setState_notifies_once_per_change PATROL
              (set_currentCoverSpot (Some zero3)
                 (setState COVER
                    (AI.new (rt := taxicab) "e1" "entity"
                       (plainConfig GRUNT 100 0))))))
           ltac:(discriminate))))).
  reflexivity.
Defined.

(** ** The nearest cover spot *)

Section NearestCover.

Context {rt : Runtime}.

(** The loop of [findNearestCover] over [l], started from a state that is
    right for the spots [seen] so far, ends in a state that is right for
    [seen ++ l]. *)
Lemma nearest_loop (pos : Vector3) (l seen : list Vector3)
  (acc : option Vector3 * QInf) :
  match acc with
  | (None, Infinity) => seen = []
  | (Some c, Finite d) =>
      d = v3_distanceTo pos c /\ In c seen
      /\ forall c', In c' seen -> v3_distanceTo pos c <= v3_distanceTo pos c'
  | _ => False
  end ->
  match fold_left
          (fun (acc : option Vector3 * QInf) (cover : Vector3) =>
             let (nearest, nearestDist) := acc in
             let dist := v3_distanceTo pos cover in
             if inf_ltb (Finite dist) nearestDist
             then (Some cover, Finite dist)
             else (nearest, nearestDist))
          l acc with
  | (None, Infinity) => seen ++ l = []
  | (Some c, Finite d) =>
      d = v3_distanceTo pos c /\ In c (seen ++ l)
      /\ forall c', In c' (seen ++ l) ->
                    v3_distanceTo pos c <= v3_distanceTo pos c'
  | _ => False
  end.
Proof.
  revert seen acc. induction l as [| x l IH]; intros seen acc Hinv.
  - rewrite app_nil_r. exact Hinv.
  - cbn [fold_left].
    replace (seen ++ x :: l) with ((seen ++ [x]) ++ l)
      by (rewrite <- app_assoc; reflexivity).
    apply IH.
    destruct acc as [[c |] [d |]]; try contradiction.
    + destruct Hinv as (Hd & Hin & Hmin). subst d.
      change (inf_ltb (Finite (v3_distanceTo pos x))
                (Finite (v3_distanceTo pos c)))
        with (ltb (v3_distanceTo pos x) (v3_distanceTo pos c)).
      destruct (ltb (v3_distanceTo pos x) (v3_distanceTo pos c)) eqn:E.
      * apply ltb_lt in E. split; [reflexivity |].
        split; [apply in_or_app; right; left; reflexivity |].
        intros c' Hc'. apply in_app_or in Hc' as [Hc' | [<- | []]].
        -- specialize (Hmin c' Hc'). lra.
        -- lra.
      * apply ltb_ge in E. split; [reflexivity |].
        split; [apply in_or_app; left; exact Hin |].
        intros c' Hc'. apply in_app_or in Hc' as [Hc' | [<- | []]].
        -- apply Hmin, Hc'.
        -- exact E.
    + subst seen. cbn. split; [reflexivity |].
      split; [left; reflexivity |].
      intros c' [<- | []]. lra.
Qed.

Lemma findNearestCover_none e :
  findNearestCover e = None <-> coverSpots e = [].
Proof.
  unfold findNearestCover. split.
  - destruct (coverSpots e) as [| x l] eqn:E; [reflexivity |].
    pose proof (nearest_loop (position e) (x :: l) [] (None, Infinity)
                  eq_refl) as H.
    intros Hn.
    destruct (fold_left _ (x :: l) (None, Infinity)) as [[c |] [d |]];
      try contradiction; discriminate.
  - intros ->. reflexivity.
Qed.

Lemma findNearestCover_some e c :
  findNearestCover e = Some c ->
  In c (coverSpots e)
  /\ forall c', In c' (coverSpots e) ->
       v3_distanceTo (position e) c <= v3_distanceTo (position e) c'.
Proof.
  unfold findNearestCover.
  destruct (coverSpots e) as [| x l] eqn:E; [discriminate |].
  pose proof (nearest_loop (position e) (x :: l) [] (None, Infinity)
                eq_refl) as H.
  intros Hs.
  destruct (fold_left _ (x :: l) (None, Infinity)) as [[c0 |] [d |]];
    try contradiction; try discriminate.
  cbn in Hs. injection Hs as ->. destruct H as (_ & Hin & Hmin).
  split; [exact Hin | exact Hmin].
Qed.

(** X7.  [findNearestCover] returns [null] exactly when the entity knows
    no cover spot.  Otherwise it returns one of the entity's cover spots,
    and no cover spot is closer to the entity than the one returned. *)
Theorem findNearestCover_is_a_nearest_cover_spot :
  forall (e : AICharacter),
    (findNearestCover e = None <-> coverSpots e = [])
    /\ (forall c, findNearestCover e = Some c ->
          In c (coverSpots e)
          /\ forall c', In c' (coverSpots e) ->
               v3_distanceTo (position e) c
               <= v3_distanceTo (position e) c').
Proof.
  intros e. split; [apply findNearestCover_none |].
  intros c. apply findNearestCover_some.
Qed.

End NearestCover.

(** X7 for an entity at the origin with three cover spots. *)
Lemma findNearestCover_is_a_nearest_cover_spot_witness :
  v3_distanceTo (Runtime := taxicab) zero3 (vec3 1 0 1)
  <= v3_distanceTo (Runtime := taxicab) zero3 (vec3 5 0 0).
Proof.
  apply (proj2 (proj2 (findNearestCover_is_a_nearest_cover_spot (rt := taxicab)
                  (set_coverSpots [vec3 5 0 0; vec3 1 0 1; vec3 0 0 3]
                     (AI.new (rt := taxicab) "e1" "entity"
                        (plainConfig SOLDIER 100 10))))
                 (vec3 1 0 1) ltac:(vm_compute; reflexivity))).
  left. reflexivity.
Defined.

(** ** What every public call of an entity keeps *)

Section Closure.

Context {rt : Runtime}.

Variable R : AICharacter -> AICharacter -> Prop.

Hypothesis R_refl : forall e, R e e.
Hypothesis R_trans : forall e1 e2 e3, R e1 e2 -> R e2 e3 -> R e1 e3.
Hypothesis R_setState : forall s e, R e (setState s e).
Hypothesis R_moveToward : forall p speed dt e, R e (moveToward p speed dt e).
Hypothesis R_onPatrol : forall e, R e (onPatrol e).
Hypothesis R_updatePerception :
  forall dt now e, R e (updatePerception dt now e).
Hypothesis R_applyMovement : forall dt e, R e (applyMovement dt e).
Hypothesis R_updateStun : forall dt e, R e (updateStun dt e).

Lemma onApproachTarget_closure t e : R e (onApproachTarget t e).
Proof.
  unfold onApproachTarget. destruct (gtb _ _).
  - eapply R_trans; [apply (R_setState CHASE) | apply R_moveToward].
  - destruct (ltb _ _); [apply R_moveToward | apply R_setState].
Qed.

Lemma tree_closure now c e :
  R e (self (fst (BT.execute (createEnemyBehaviorTree now)
                    {| ctx := c; self := e |}))).
Proof.
  unfold createEnemyBehaviorTree. cbn.
  destruct (ltb _ _); cbn; [apply R_setState |].
  destruct (ctx_hasLineOfSight c); cbn; [| apply R_onPatrol].
  destruct (ctx_target c); cbn; [apply onApproachTarget_closure | apply R_refl].
Qed.

Lemma update_closure dt now e : R e (update dt now e).
Proof.
  unfold update.
  destruct (negb (isAlive e)); [apply R_refl |].
  destruct (isStunned e); [apply R_updateStun |].
  eapply R_trans; [apply (R_updatePerception dt now) |].
  eapply R_trans; [| apply R_applyMovement].
  unfold BT.update. destruct (negb _); [apply R_refl |].
  apply tree_closure.
Qed.

Hypothesis R_stun : forall d e, R e (stun d e).
Hypothesis R_die : forall e, R e (die e).
Hypothesis R_struck : forall amount source e, R e (struck amount source e).
Hypothesis R_set_currentCoverSpot :
  forall c e, R e (set_currentCoverSpot c e).

Lemma takeDamage_closure amount source e : R e (takeDamage amount source e).
Proof.
  unfold takeDamage.
  destruct (isAlive e) eqn:Ha;
    [| rewrite takeDamage_via_dead by exact Ha; apply R_refl].
  rewrite takeDamage_via_stages by exact Ha.
  eapply R_trans; [apply (R_struck amount source) |].
  eapply R_trans with
    (e2 := if leb (health (struck amount source e)) 0
           then die (struck amount source e) else struck amount source e).
  { destruct (leb _ 0); [apply R_die | apply R_refl]. }
  generalize (if leb (health (struck amount source e)) 0
              then die (struck amount source e)
              else struck amount source e) as e1.
  intros e1. unfold coverIfArmoredSoldier.
  destruct (_ && _); [| apply R_refl].
  destruct (findNearestCover e1); [| apply R_refl].
  eapply R_trans; [apply R_set_currentCoverSpot | apply R_setState].
Qed.

Lemma call_closure c e : R e (call c e).
Proof.
  destruct c; cbn.
  - apply takeDamage_closure.
  - apply update_closure.
  - apply R_stun.
  - apply R_die.
Qed.

Lemma run_closure cs e : R e (run cs e).
Proof.
  revert e. induction cs as [| c cs IH]; intros e; [apply R_refl |].
  cbn. eapply R_trans; [apply (call_closure c) | apply IH].
Qed.

End Closure.

(** ** The patrol route *)

Ltac by_cases :=
  repeat match goal with
         | |- context [if ?c then _ else _] => destruct c
         | |- context [match ?x with Some _ => _ | None => _ end] => destruct x
         end.

Ltac through_setState :=
  unfold setState, onExitState, onEnterState, fire;
  match goal with
  | |- context [AIState_beq (state ?e) ?s] =>
      destruct (AIState_beq (state e) s); [reflexivity |];
      destruct (state e), s; reflexivity
  end.

Section PatrolRoute.

Import EntityShape.

Context {rt : Runtime}.

Lemma onRoute_refl e : onRoute e e.
Proof. split; [reflexivity | trivial]. Qed.

Lemma onRoute_trans e1 e2 e3 : onRoute e1 e2 -> onRoute e2 e3 -> onRoute e1 e3.
Proof. intros [A1 A2] [B1 B2]. split; [congruence | auto]. Qed.

Lemma onRoute_same e e' :
  patrolPoints e' = patrolPoints e ->
  currentPatrolIndex e' = currentPatrolIndex e ->
  patrolDirection e' = patrolDirection e ->
  onRoute e e'.
Proof.
  intros Hp Hi Hd. split; [exact Hp |].
  unfold patrolInBounds. rewrite Hp, Hi, Hd. trivial.
Qed.

Lemma patrolInBounds_same e e' :
  patrolPoints e' = patrolPoints e ->
  currentPatrolIndex e' = currentPatrolIndex e ->
  patrolDirection e' = patrolDirection e ->
  patrolInBounds e -> patrolInBounds e'.
Proof. intros Hp Hi Hd. apply (onRoute_same e e' Hp Hi Hd). Qed.

Lemma setState_patrolPoints s e : patrolPoints (setState s e) = patrolPoints e.
Proof. through_setState. Qed.

Lemma setState_currentPatrolIndex s e :
  currentPatrolIndex (setState s e) = currentPatrolIndex e.
Proof. through_setState. Qed.

Lemma setState_patrolDirection s e :
  patrolDirection (setState s e) = patrolDirection e.
Proof. through_setState. Qed.

Lemma setState_patrolWaitTime s e :
  patrolWaitTime (setState s e) = patrolWaitTime e.
Proof. through_setState. Qed.

Lemma setState_position s e : position (setState s e) = position e.
Proof. through_setState. Qed.

Lemma onRoute_setState s e : onRoute e (setState s e).
Proof.
  apply onRoute_same;
    [apply setState_patrolPoints | apply setState_currentPatrolIndex
     | apply setState_patrolDirection].
Qed.

Lemma onRoute_moveToward p speed dt e : onRoute e (moveToward p speed dt e).
Proof. unfold moveToward. destruct (gtb _ _); apply onRoute_same; reflexivity. Qed.

Lemma onRoute_updatePerception dt now e : onRoute e (updatePerception dt now e).
Proof.
  unfold updatePerception.
  destruct (target e); [| apply onRoute_same; reflexivity].
  destruct (negb (isAlive e)); [apply onRoute_same; reflexivity |].
  cbn. destruct (checkLineOfSight _); apply onRoute_same; reflexivity.
Qed.

Lemma onRoute_applyMovement dt e : onRoute e (applyMovement dt e).
Proof. unfold applyMovement. destruct (mesh e); apply onRoute_same; reflexivity. Qed.

Lemma onRoute_updateStun dt e : onRoute e (updateStun dt e).
Proof.
  unfold updateStun. cbn. destruct (leb _ 0); [| apply onRoute_same; reflexivity].
  eapply onRoute_trans; [| apply onRoute_setState]. apply onRoute_same; reflexivity.
Qed.

Lemma onRoute_stun d e : onRoute e (stun d e).
Proof.
  unfold stun, stop. cbv zeta.
  eapply onRoute_trans with (e2 := set_stunTime d (set_isStunned true e));
    [apply onRoute_same; reflexivity |].
  eapply onRoute_trans; [apply (onRoute_setState STUNNED) |].
  apply onRoute_same; reflexivity.
Qed.

Lemma onRoute_die e : onRoute e (die e).
Proof.
  unfold die, stop, fire. cbv zeta.
  eapply onRoute_trans with (e2 := set_health 0 (set_isAlive false e));
    [apply onRoute_same; reflexivity |].
  eapply onRoute_trans; [apply (onRoute_setState DEAD) |].
  apply onRoute_same; reflexivity.
Qed.

Lemma onRoute_struck amount source e : onRoute e (struck amount source e).
Proof. unfold struck. destruct (gtb _ 0); apply onRoute_same; reflexivity. Qed.

(** The arithmetic of the turn-around: a cursor on the route, moved one
    step and clamped as [onPatrol] does, is on the route. *)
Lemma patrolPointAt_in_bounds e :
  patrolInBounds e ->
  exists p, patrolPointAt e = Some p /\ In p (patrolPoints e).
Proof.
  intros [[H0 Hlen] _]. unfold patrolPointAt.
  destruct (currentPatrolIndex e <? 0)%Z eqn:E; [apply Z.ltb_lt in E; lia |].
  destruct (nth_error (patrolPoints e) (Z.to_nat (currentPatrolIndex e)))
    as [p |] eqn:En.
  - exists p. split; [reflexivity | eapply nth_error_In, En].
  - apply nth_error_None in En. lia.
Qed.

Lemma onPatrol_arrived e p :
  patrolPoints e <> [] ->
  gtb (patrolWaitTime e) 0 = false ->
  patrolPointAt e = Some p ->
  ltb (v3_distanceTo (position e) p) 1 = true ->
  let len := Z.of_nat (List.length (patrolPoints e)) in
  let next := (currentPatrolIndex e + patrolDirection e)%Z in
  patrolPoints (onPatrol e) = patrolPoints e
  /\ patrolWaitTime (onPatrol e) = 2
  /\ currentPatrolIndex (onPatrol e)
     = (if (len <=? next)%Z then len - 1
        else if (next <? 0)%Z then 0 else next)%Z
  /\ patrolDirection (onPatrol e)
     = (if (len <=? next)%Z then -1
        else if (next <? 0)%Z then 1 else patrolDirection e)%Z.
Proof.
  intros Hne Hw Hp Hd len next. unfold onPatrol.
  assert (Hpp : patrolPointAt (setState PATROL e) = Some p).
  { unfold patrolPointAt in *.
    rewrite setState_currentPatrolIndex, setState_patrolPoints. exact Hp. }
  pose proof (setState_patrolPoints PATROL e) as E1.
  pose proof (setState_currentPatrolIndex PATROL e) as E2.
  pose proof (setState_patrolDirection PATROL e) as E3.
  pose proof (setState_patrolWaitTime PATROL e) as E4.
  pose proof (setState_position PATROL e) as E5.
  revert Hpp E1 E2 E3 E4 E5. generalize (setState PATROL e) as e1.
  intros e1 Hpp E1 E2 E3 E4 E5.
  rewrite E1. destruct (patrolPoints e) as [| x l] eqn:El; [contradiction |].
  rewrite E4, Hw, Hpp, E5, Hd.
  cbn [currentPatrolIndex set_currentPatrolIndex patrolDirection patrolPoints].
  rewrite E1, E2, E3. fold len next.
  destruct (len <=? next)%Z; [repeat split; assumption |].
  destruct (next <? 0)%Z; repeat split; assumption.
Qed.

Lemma onPatrol_waiting e :
  patrolPoints e <> [] ->
  gtb (patrolWaitTime e) 0 = true ->
  onPatrol e
  = set_patrolWaitTime (patrolWaitTime e - 1/60) (setState PATROL e).
Proof.
  intros Hne Hw. unfold onPatrol.
  rewrite setState_patrolPoints, setState_patrolWaitTime, Hw.
  destruct (patrolPoints e); [contradiction | reflexivity].
Qed.

Lemma onPatrol_walking e p :
  patrolPoints e <> [] ->
  gtb (patrolWaitTime e) 0 = false ->
  patrolPointAt e = Some p ->
  ltb (v3_distanceTo (position e) p) 1 = false ->
  onPatrol e
  = moveToward p (patrolSpeed (movementConfig (setState PATROL e))) (1/60)
      (setState PATROL e).
Proof.
  intros Hne Hw Hp Hd. unfold onPatrol.
  assert (Hpp : patrolPointAt (setState PATROL e) = Some p).
  { unfold patrolPointAt in *.
    rewrite setState_currentPatrolIndex, setState_patrolPoints. exact Hp. }
  rewrite setState_patrolPoints, setState_patrolWaitTime, Hw, Hpp,
    setState_position, Hd.
  destruct (patrolPoints e); [contradiction | reflexivity].
Qed.

Lemma onRoute_onPatrol e : onRoute e (onPatrol e).
Proof.
  assert (Hpts : patrolPoints (onPatrol e) = patrolPoints e).
  { unfold onPatrol.
    pose proof (setState_patrolPoints PATROL e) as E1.
    revert E1. generalize (setState PATROL e) as e1. intros e1 E1.
    destruct (patrolPoints e1) eqn:El;
      [rewrite setState_patrolPoints; congruence |].
    destruct (gtb _ 0); [cbn; congruence |].
    destruct (patrolPointAt e1); [| congruence].
    destruct (ltb _ 1).
    - cbn. by_cases; cbn; congruence.
    - unfold moveToward. destruct (gtb _ _); cbn; congruence. }
  split; [exact Hpts |].
  intros Hb.
  destruct (patrolPointAt_in_bounds e Hb) as (p & Hp & _).
  assert (Hne : patrolPoints e <> []).
  { destruct Hb as [[H0 Hl] _]. destruct (patrolPoints e); [cbn in Hl; lia |].
    discriminate. }
  destruct (gtb (patrolWaitTime e) 0) eqn:Hw.
  { apply (patrolInBounds_same e); [exact Hpts | | | exact Hb];
      rewrite (onPatrol_waiting e Hne Hw);
      [apply setState_currentPatrolIndex | apply setState_patrolDirection]. }
  destruct (ltb (v3_distanceTo (position e) p) 1) eqn:Hd.
  - destruct (onPatrol_arrived e p Hne Hw Hp Hd) as (_ & _ & Hi & Hdir).
    destruct Hb as [[H0 Hl] Hdr].
    unfold patrolInBounds. rewrite Hpts, Hi, Hdir.
    destruct (Z.leb_spec (Z.of_nat (List.length (patrolPoints e)))
                (currentPatrolIndex e + patrolDirection e)); [lia |].
    destruct (Z.ltb_spec (currentPatrolIndex e + patrolDirection e) 0); lia.
  - rewrite (onPatrol_walking e p Hne Hw Hp Hd).
    apply (onRoute_trans e (setState PATROL e));
      [apply onRoute_setState | apply onRoute_moveToward | exact Hb].
Qed.

Lemma onRoute_run cs e : onRoute e (run cs e).
Proof.
  apply run_closure.
  - apply onRoute_refl.
  - apply onRoute_trans.
  - apply onRoute_setState.
  - apply onRoute_moveToward.
  - apply onRoute_onPatrol.
  - apply onRoute_updatePerception.
  - apply onRoute_applyMovement.
  - apply onRoute_updateStun.
  - apply onRoute_stun.
  - apply onRoute_die.
  - apply onRoute_struck.
  - intros c e0. apply onRoute_same; reflexivity.
Qed.

(** X8.  The patrol cursor never leaves the route.  An entity whose
    cursor is an index of its patrol points and whose patrol direction
    is +1 or -1 stays so through every sequence of public calls, with
    the same patrol points; so the point [onPatrol] reads next is always
    one of them.  A freshly built entity with patrol points is in that
    condition. *)
Theorem patrol_cursor_stays_on_route :
  forall (calls : list EntityCall) (e : AICharacter),
    patrolInBounds e ->
    patrolPoints (run calls e) = patrolPoints e
    /\ patrolInBounds (run calls e)
    /\ (exists p, patrolPointAt (run calls e) = Some p
                  /\ In p (patrolPoints e))
    /\ forall id name config,
         orDefault (cfg_patrolPoints config) [] <> [] ->
         patrolInBounds (AI.new id name config).
Proof.
  intros calls e Hb.
  destruct (onRoute_run calls e) as [Hp Hk].
  split; [exact Hp |]. split; [exact (Hk Hb) |]. split.
  - destruct (patrolPointAt_in_bounds _ (Hk Hb)) as (p & H1 & H2).
    exists p. split; [exact H1 | rewrite <- Hp; exact H2].
  - intros id name config Hne. unfold patrolInBounds. cbn.
    destruct (orDefault (cfg_patrolPoints config) []);
      [contradiction | cbn; split; [lia | left; reflexivity]].
Qed.


End PatrolRoute.

(** X8 on a patroller that is ticked, hit and ticked again. *)
Lemma patrol_cursor_stays_on_route_witness :
  EntityShape.patrolInBounds
    (run (rt := taxicab)
       [Update (1/60) 0; TakeDamage 10 None; Update (1/60) 16]
       Samples.patroller).
Proof.
  apply (patrol_cursor_stays_on_route (rt := taxicab)
           [Update (1/60) 0; TakeDamage 10 None; Update (1/60) 16]
           Samples.patroller).
  split; [cbn; lia | left; reflexivity].
Defined.


(** ** The state a killing hit leaves *)

Section LethalHit.

Context {rt : Runtime}.

Lemma struck_characterType amount source e :
  characterType (struck amount source e) = characterType e.
Proof. unfold struck. destruct (gtb (armor e) 0); reflexivity. Qed.

Lemma struck_coverSpots amount source e :
  coverSpots (struck amount source e) = coverSpots e.
Proof. unfold struck. destruct (gtb (armor e) 0); reflexivity. Qed.

Lemma setState_coverSpots s e : coverSpots (setState s e) = coverSpots e.
Proof. through_setState. Qed.

Lemma die_coverSpots e : coverSpots (die e) = coverSpots e.
Proof.
  unfold die, stop, fire. cbn.
  rewrite (setState_coverSpots DEAD (set_health 0 (set_isAlive false e))).
  reflexivity.
Qed.

Lemma AICharacterType_beq_eq a b : AICharacterType_beq a b = true <-> a = b.
Proof. destruct a, b; cbn; split; intros H; congruence. Qed.

(** The state after the closing search for cover. *)
Lemma coverIfArmoredSoldier_state e :
  state (coverIfArmoredSoldier e)
  = if gtb (armor e) 0 && AICharacterType_beq (characterType e) SOLDIER
    then match coverSpots e with [] => state e | _ => COVER end
    else state e.
Proof.
  unfold coverIfArmoredSoldier. destruct (_ && _); [| reflexivity].
  destruct (findNearestCover e) as [c |] eqn:E.
  - rewrite setState_state.
    destruct (coverSpots e) eqn:Ec; [| reflexivity].
    apply findNearestCover_none in Ec. congruence.
  - apply findNearestCover_none in E. rewrite E. reflexivity.
Qed.

Lemma update_dead dt now e : isAlive e = false -> update dt now e = e.
Proof. intros H. unfold update. rewrite H. reflexivity. Qed.

(** X10.  A hit that takes a living entity's health to 0 or below leaves
    it not alive, with health 0 and no velocity, and deaf to further
    [update] and [takeDamage] calls.  Its state is Dead, except for an
    entity of type Soldier that has armour left after the hit and knows a
    cover spot: the search for cover that closes [takeDamage] runs after
    [die] and leaves that entity in state Cover. *)
Theorem lethal_hit_leaves_dead_or_in_cover :
  forall (amount : Q) (source : option Object3D) (e : AICharacter),
    isAlive e = true ->
    health e - remainder e amount <= 0 ->
    let e' := takeDamage amount source e in
    isAlive e' = false
    /\ health e' = 0
    /\ velocity e' = zero3
    /\ (state e' = COVER \/ state e' = DEAD)
    /\ (state e' = COVER <->
        0 < armor e - absorbed e amount
        /\ characterType e = SOLDIER
        /\ coverSpots e <> [])
    /\ (forall dt now, update dt now e' = e')
    /\ (forall amount' source', takeDamage amount' source' e' = e').
Proof.
  intros amount source e Halive Hle e'.
  assert (He' : e' = coverIfArmoredSoldier (die (struck amount source e)))
    by (apply takeDamage_lethal; assumption).
  assert (Hdead : isAlive e' = false).
  { rewrite He', coverIfArmoredSoldier_isAlive. apply die_isAlive. }
  assert (Hstate :
            state e'
            = if gtb (armor (struck amount source e)) 0
                 && AICharacterType_beq (characterType e) SOLDIER
              then match coverSpots e with [] => DEAD | _ => COVER end
              else DEAD).
  { rewrite He', coverIfArmoredSoldier_state.
    rewrite die_armor, die_characterType, die_coverSpots, die_state.
    rewrite struck_characterType, struck_coverSpots. reflexivity. }
  split; [exact Hdead |].
  split; [rewrite He', coverIfArmoredSoldier_health; apply die_health |].
  split; [rewrite He', coverIfArmoredSoldier_velocity; apply die_velocity |].
  split; [| split; [| split]].
  - rewrite Hstate. destruct (_ && _); [| right; reflexivity].
    destruct (coverSpots e); [right | left]; reflexivity.
  - rewrite Hstate.
    destruct (gtb (armor (struck amount source e)) 0) eqn:Eg;
      [apply gtb_gt in Eg | apply gtb_le in Eg];
      rewrite struck_armor in Eg.
    + destruct (AICharacterType_beq (characterType e) SOLDIER) eqn:Et;
        cbn [andb].
      * apply AICharacterType_beq_eq in Et.
        destruct (coverSpots e); split.
        -- discriminate.
        -- intros (_ & _ & H). contradiction.
        -- intros _. repeat split; [exact Eg | exact Et | discriminate].
        -- reflexivity.
      * split; [discriminate |]. intros (_ & H & _).
        apply AICharacterType_beq_eq in H. congruence.
    + cbn [andb]. split; [discriminate |]. intros (H & _). lra.
  - intros dt now. apply update_dead, Hdead.
  - intros amount' source'. apply takeDamage_dead, Hdead.
Qed.

Lemma soldier_update_dead dt now s :
  isAlive (SoldierAI.base s) = false ->
  SoldierAI.update dt now s = SoldierAI.Returned s.
Proof. intros H. unfold SoldierAI.update. rewrite H. reflexivity. Qed.

(** What [Soldier.takeDamage] adds after the inherited call keeps
    health, maxHealth and liveness. *)
Lemma soldier_takeDamage_vitals amount source s :
  health (SoldierAI.base (SoldierAI.takeDamage amount source s))
  = health (takeDamage amount source (SoldierAI.base s))
  /\ maxHealth (SoldierAI.base (SoldierAI.takeDamage amount source s))
     = maxHealth (takeDamage amount source (SoldierAI.base s))
  /\ isAlive (SoldierAI.base (SoldierAI.takeDamage amount source s))
     = isAlive (takeDamage amount source (SoldierAI.base s)).
Proof.
  unfold SoldierAI.takeDamage.
  set (s2 := SoldierAI.set_suppressTimer _ _).
  destruct (_ && _); [| repeat split; reflexivity].
  destruct (findAndMoveToCover_stance s2) as (_ & Hh & Hm & Ha & _).
  rewrite Hh, Hm, Ha. cbn.
  rewrite setState_health, setState_maxHealth, setState_isAlive.
  repeat split; reflexivity.
Qed.

(** X11.  A soldier killed by a hit is never left in state Dead.
    [Soldier.takeDamage] looks for cover after the inherited call
    whenever health is below half of maxHealth and the state is not
    Cover, alive or not; so a soldier with positive maxHealth whose
    health a hit takes to 0 or below ends not alive, with health 0, in
    state Cover, and no later [update] changes that. *)
Theorem killed_soldier_is_left_in_cover :
  forall (amount : Q) (source : option Object3D) (s : SoldierAI.Soldier),
    isAlive (SoldierAI.base s) = true ->
    0 < maxHealth (SoldierAI.base s) ->
    health (SoldierAI.base s) - remainder (SoldierAI.base s) amount <= 0 ->
    let s' := SoldierAI.takeDamage amount source s in
    isAlive (SoldierAI.base s') = false
    /\ health (SoldierAI.base s') = 0
    /\ state (SoldierAI.base s') = COVER
    /\ forall dt now, SoldierAI.update dt now s' = SoldierAI.Returned s'.
Proof.
  intros amount source s Halive Hmax Hle s'.
  destruct (soldier_takeDamage_vitals amount source s) as (Hh & Hm & Ha).
  fold s' in Hh, Hm, Ha.
  assert (E : takeDamage amount source (SoldierAI.base s)
              = coverIfArmoredSoldier
                  (die (struck amount source (SoldierAI.base s))))
    by (apply takeDamage_lethal; assumption).
  rewrite E in Hh, Hm, Ha.
  rewrite coverIfArmoredSoldier_health, die_health in Hh.
  rewrite coverIfArmoredSoldier_maxHealth, die_maxHealth, struck_maxHealth
    in Hm.
  rewrite coverIfArmoredSoldier_isAlive, die_isAlive in Ha.
  split; [exact Ha |]. split; [exact Hh |]. split.
  - apply takeDamage_low_health_cover. fold s'. rewrite Hh, Hm. lra.
  - intros dt now. apply soldier_update_dead, Ha.
Qed.

End LethalHit.

(** X10 on an armoured entity of type Soldier that knows a cover spot. *)
Lemma lethal_hit_leaves_dead_or_in_cover_witness :
  state
    (takeDamage (rt := taxicab) 300 None
       (set_coverSpots [vec3 3 0 0]
          (AI.new (rt := taxicab) "e1" "entity" (plainConfig SOLDIER 100 200))))
  = COVER.
Proof.
  apply (proj2 (proj1 (proj2 (proj2 (proj2 (proj2
           (lethal_hit_leaves_dead_or_in_cover (rt := taxicab) 300 None
              (set_coverSpots [vec3 3 0 0]
                 (AI.new (rt := taxicab) "e1" "entity"
                    (plainConfig SOLDIER 100 200)))
              eq_refl ltac:(vm_compute; discriminate)))))))).
  split; [vm_compute; reflexivity | split; [reflexivity | discriminate]].
Defined.

(** X11 on a fresh soldier hit for more than its health and armour. *)
Lemma killed_soldier_is_left_in_cover_witness :
  state
    (SoldierAI.base
       (SoldierAI.takeDamage (rt := taxicab) 400 None
          (SoldierAI.new (rt := taxicab) "s1" "soldier" None None)))
  = COVER.
Proof.
  apply (killed_soldier_is_left_in_cover (rt := taxicab) 400 None
           (SoldierAI.new (rt := taxicab) "s1" "soldier" None None)
           eq_refl ltac:(vm_compute; reflexivity)
           ltac:(vm_compute; discriminate)).
Defined.

(** ** A hit on a dead soldier *)

Section DeadSoldier.

Context {rt : Runtime}.

(** [Soldier.takeDamage] on a dead soldier: the inherited call returns
    at once, and the rest of the method runs all the same. *)
Lemma soldier_takeDamage_dead amount source s :
  isAlive (SoldierAI.base s) = false ->
  SoldierAI.takeDamage amount source s
  = (let s' := SoldierAI.set_suppressTimer (SoldierAI.suppressTimer s + 1) s in
     if ltb (health (SoldierAI.base s)) (maxHealth (SoldierAI.base s) * (1#2))
        && negb (AIState_beq (state (SoldierAI.base s)) COVER)
     then SoldierAI.findAndMoveToCover s'
     else s').
Proof.
  intros Hdead. unfold SoldierAI.takeDamage, SoldierAI.on_base.
  rewrite (takeDamage_dead amount source (SoldierAI.base s) Hdead).
  destruct s; reflexivity.
Qed.

(** Dead or alive, a soldier's suppression timer gains 1 with every
    hit. *)
Lemma soldier_takeDamage_suppressTimer amount source s :
  SoldierAI.suppressTimer (SoldierAI.takeDamage amount source s)
  = SoldierAI.suppressTimer s + 1.
Proof.
  unfold SoldierAI.takeDamage.
  set (s' := SoldierAI.set_suppressTimer _ _).
  assert (Hs' : SoldierAI.suppressTimer s' = SoldierAI.suppressTimer s + 1)
    by reflexivity.
  destruct (_ && _); [| exact Hs'].
  destruct (findAndMoveToCover_stance s') as (_ & _ & _ & _ & _ & Ht & _).
  rewrite Ht. exact Hs'.
Qed.

(** A soldier killed by a hit, and hit once more. *)
Lemma killed_soldier_hit_again amount source amount' source' s0 :
  isAlive (SoldierAI.base s0) = true ->
  health (SoldierAI.base s0) - remainder (SoldierAI.base s0) amount <= 0 ->
  0 < maxHealth (SoldierAI.base s0) * (1#2) ->
  let s1 := SoldierAI.takeDamage amount source s0 in
  let s2 := SoldierAI.takeDamage amount' source' s1 in
  (isAlive (SoldierAI.base s1) = false
   /\ health (SoldierAI.base s1) = 0
   /\ deathCount (log (SoldierAI.base s1))
      = S (deathCount (log (SoldierAI.base s0)))
   /\ state (SoldierAI.base s1) = COVER
   /\ SoldierAI.suppressTimer s1 = SoldierAI.suppressTimer s0 + 1)
  /\ s2 = SoldierAI.set_suppressTimer (SoldierAI.suppressTimer s1 + 1) s1.
Proof.
  intros Halive0 Hlethal Hmax0 s1 s2.
  destruct (soldier_takeDamage_vitals amount source s0) as (Hh & Hm & Ha).
  fold s1 in Hh, Hm, Ha.
  assert (E : takeDamage amount source (SoldierAI.base s0)
              = coverIfArmoredSoldier
                  (die (struck amount source (SoldierAI.base s0))))
    by (apply takeDamage_lethal; assumption).
  rewrite E in Hh, Hm, Ha.
  rewrite coverIfArmoredSoldier_health, die_health in Hh.
  rewrite coverIfArmoredSoldier_maxHealth, die_maxHealth, struck_maxHealth
    in Hm.
  rewrite coverIfArmoredSoldier_isAlive, die_isAlive in Ha.
  assert (Hstate1 : state (SoldierAI.base s1) = COVER).
  { apply takeDamage_low_health_cover. fold s1. rewrite Hh, Hm.
    exact Hmax0. }
  assert (Hcount1 : deathCount (log (SoldierAI.base s1))
                    = S (deathCount (log (SoldierAI.base s0)))).
  { destruct (soldierHits_deathCount [(amount, source)] s0) as [Hc _].
    change (soldierHits [(amount, source)] s0) with s1 in Hc.
    rewrite Hc, Halive0, Ha. cbn. lia. }
  pose proof (soldier_takeDamage_suppressTimer amount source s0) as Htimer1.
  fold s1 in Htimer1.
  pose proof (soldier_takeDamage_dead amount' source' s1 Ha) as Hd.
  fold s2 in Hd. cbv zeta in Hd. rewrite Hstate1 in Hd.
  cbn [AIState_beq negb] in Hd. rewrite andb_false_r in Hd.
  repeat split; assumption.
Qed.

End DeadSoldier.

(** C3, where the code departs from it.  [AICharacter.takeDamage] and
    [BossBase.takeDamage] return at once for a dead entity;
    [Soldier.takeDamage] calls the inherited method and then goes on
    without looking at the alive flag.  A fresh soldier (health 120,
    armour 30) hit for 400 dies, and the on-death callbacks are fired
    once; but the rest of the method then puts the dead soldier in state
    Cover and, there being no cover spots, sends it toward a spot 3 units
    away at run speed.  A later hit of 0 is not ignored: it adds 1 to the
    suppression timer, as a hit on any dead soldier does.  It fires no
    callback.  (The velocity is evaluated with the vector functions of
    [taxicab], which at the vector (3, 0, 0) take the values of the real
    ones.) *)
Theorem dead_soldier_still_takes_hits :
  (forall rt : Runtime,
     let s0 := SoldierAI.new "s1" "soldier" None None in
     let s1 := SoldierAI.takeDamage 400 None s0 in
     let s2 := SoldierAI.takeDamage 0 None s1 in
     (isAlive (SoldierAI.base s1) = false
      /\ health (SoldierAI.base s1) = 0
      /\ deathCount (log (SoldierAI.base s1)) = 1%nat
      /\ state (SoldierAI.base s1) = COVER
      /\ SoldierAI.suppressTimer s1 == 1)
     /\ (SoldierAI.suppressTimer s2 == 2
         /\ s2 <> s1
         /\ isAlive (SoldierAI.base s2) = false
         /\ state (SoldierAI.base s2) = COVER
         /\ deathCount (log (SoldierAI.base s2)) = 1%nat)
     /\ (forall amount source (s : SoldierAI.Soldier),
           isAlive (SoldierAI.base s) = false ->
           SoldierAI.suppressTimer (SoldierAI.takeDamage amount source s)
           = SoldierAI.suppressTimer s + 1
           /\ SoldierAI.takeDamage amount source s <> s))
  /\ (let s1 := SoldierAI.takeDamage (rt := taxicab) 400 None
                  (SoldierAI.new (rt := taxicab) "s1" "soldier" None None) in
      v_x (velocity (SoldierAI.base s1)) == 4
      /\ v_y (velocity (SoldierAI.base s1)) == 0
      /\ v_z (velocity (SoldierAI.base s1)) == 0).
Proof.
  split; [| vm_compute; repeat split].
  intros rt s0.
  pose proof (killed_soldier_hit_again 400 None 0 None s0 eq_refl
                ltac:(vm_compute; discriminate)
                ltac:(vm_compute; reflexivity)) as H.
  assert (Htimer0 : SoldierAI.suppressTimer s0 = 0) by reflexivity.
  assert (Hcount0 : deathCount (log (SoldierAI.base s0)) = O) by reflexivity.
  clearbody s0. cbv zeta in H. intros s1 s2.
  fold s1 in H. fold s2 in H. clearbody s2. clearbody s1.
  destruct H as ((Ha & Hh & Hcount1 & Hstate1 & Htimer1) & Es2).
  rewrite Htimer0 in Htimer1. rewrite Hcount0 in Hcount1.
  assert (Hgen : forall amount source (s : SoldierAI.Soldier),
            isAlive (SoldierAI.base s) = false ->
            SoldierAI.suppressTimer (SoldierAI.takeDamage amount source s)
            = SoldierAI.suppressTimer s + 1
            /\ SoldierAI.takeDamage amount source s <> s).
  { intros amount source s _.
    pose proof (soldier_takeDamage_suppressTimer amount source s) as Ht.
    split; [exact Ht |]. intros E. rewrite E in Ht.
    assert (Hq : SoldierAI.suppressTimer s == SoldierAI.suppressTimer s + 1)
      by (rewrite <- Ht; reflexivity).
    lra. }
  split; [| split; [| exact Hgen]].
  - split; [exact Ha | split; [exact Hh | split; [exact Hcount1 |]]].
    split; [exact Hstate1 |]. rewrite Htimer1. reflexivity.
  - assert (Hneq : s2 <> s1).
    { intros E. rewrite Es2 in E.
      assert (Ht : SoldierAI.suppressTimer s1 + 1 = SoldierAI.suppressTimer s1)
        by (rewrite <- E at 2; reflexivity).
      rewrite Htimer1 in Ht. discriminate Ht. }
    subst s2. cbn [SoldierAI.suppressTimer SoldierAI.set_suppressTimer
                   SoldierAI.base].
    split; [rewrite Htimer1; reflexivity |].
    split; [exact Hneq |].
    split; [exact Ha | split; [exact Hstate1 | exact Hcount1]].
Qed.

(** ** A stun on top of a stun *)

Section StunAgain.

Context {rt : Runtime}.



End StunAgain.


(** ** Perception *)

Section Perception.

Context {rt : Runtime}.

(** X13.  What [updatePerception] reports.  Line of sight is reported
    only for a living entity with a target that is no farther than
    [viewDistance] and no more than half of [viewAngle] off the facing
    direction; then the distance is the one to the target and the last
    known position and the time last seen are refreshed.  Without line
    of sight the last known position and the time last seen are kept.
    With no target, or for a dead entity, there is no line of sight and
    the distance is Infinity.  The tuning of the senses and everything
    outside [perception] and [lastKnownTargetPosition] is never
    changed. *)
Theorem perception_sees_only_a_target_in_view :
  forall (dt now : Q) (e : AICharacter),
    let e' := updatePerception dt now e in
    (hasLineOfSight (perception e') = true ->
     isAlive e = true
     /\ exists t,
          target e = Some t
          /\ distanceToTarget (perception e')
             = Finite (v3_distanceTo (position e) (obj_position t))
          /\ v3_length (subVectors (obj_position t) (position e))
             <= viewDistance (perception e)
          /\ v3_angleTo (v3_applyEuler (vec3 0 0 1) (rotation e))
               (v3_normalize (subVectors (obj_position t) (position e)))
             <= viewAngle (perception e) / 2
          /\ lastKnownTargetPosition e' = obj_position t
          /\ lastSeenTime (perception e') = now)
    /\ (hasLineOfSight (perception e') = false ->
        lastKnownTargetPosition e' = lastKnownTargetPosition e
        /\ lastSeenTime (perception e') = lastSeenTime (perception e))
    /\ (target e = None \/ isAlive e = false ->
        hasLineOfSight (perception e') = false
        /\ distanceToTarget (perception e') = Infinity)
    /\ hearingRange (perception e') = hearingRange (perception e)
    /\ viewAngle (perception e') = viewAngle (perception e)
    /\ viewDistance (perception e') = viewDistance (perception e)
    /\ set_lastKnownTargetPosition (lastKnownTargetPosition e)
         (set_perception (perception e) e')
       = e.
Proof.
  intros dt now e e'. subst e'. unfold updatePerception.
  assert (Hback : forall p q v,
             set_lastKnownTargetPosition (lastKnownTargetPosition e)
               (set_perception (perception e)
                  (set_perception p
                     (set_lastKnownTargetPosition v (set_perception q e))))
             = e) by (intros; destruct e; reflexivity).
  assert (Hback' : forall p q,
             set_lastKnownTargetPosition (lastKnownTargetPosition e)
               (set_perception (perception e)
                  (set_perception p (set_perception q e)))
             = e) by (intros; destruct e; reflexivity).
  assert (Hback'' : forall p,
             set_lastKnownTargetPosition (lastKnownTargetPosition e)
               (set_perception (perception e) (set_perception p e))
             = e) by (intros; destruct e; reflexivity).
  destruct (target e) as [t |] eqn:Et.
  - destruct (isAlive e) eqn:Ea; cbn [negb].
    + cbn [perception set_perception hasLineOfSight set_hasLineOfSight].
      unfold checkLineOfSight.
      cbn [target set_perception position rotation perception
           set_distanceToTarget viewDistance viewAngle].
      rewrite Et.
      destruct (gtb (v3_length (subVectors (obj_position t) (position e)))
                  (viewDistance (perception e))) eqn:Ed.
      { cbn. repeat split; try discriminate; try reflexivity;
          try apply Hback'.
        destruct H; discriminate. }
      destruct (gtb (v3_angleTo _ _) (viewAngle (perception e) / 2)) eqn:Eg.
      { cbn. repeat split; try discriminate; try reflexivity;
          try apply Hback'.
        destruct H; discriminate. }
      apply gtb_le in Ed, Eg. cbn.
      split; [| repeat split; try discriminate; try reflexivity;
                try apply Hback; destruct H; discriminate].
      intros _. split; [reflexivity |]. exists t.
      repeat split; assumption || reflexivity.
    + cbn. repeat split; try discriminate; try reflexivity.
      apply Hback''.
  - cbn. repeat split; try discriminate; try reflexivity.
    apply Hback''.
Qed.

End Perception.

(** X13 on a fresh entity, which has no target. *)
Lemma perception_sees_only_a_target_in_view_witness :
  hasLineOfSight
    (perception
       (updatePerception (rt := taxicab) (1/60) 0
          (AI.new (rt := taxicab) "e1" "entity" (plainConfig GRUNT 100 0))))
  = false.
Proof.
  apply (proj1 (proj2 (proj2
           (perception_sees_only_a_target_in_view (rt := taxicab) (1/60) 0
              (AI.new (rt := taxicab) "e1" "entity"
                 (plainConfig GRUNT 100 0)))))).
  left. reflexivity.
Defined.

(** ** Burst fire: the rate limit *)

Section BurstRate.

Import SoldierShape.

Context {rt : Runtime}.

Lemma performAttack_shots s :
  shotCount (log (SoldierAI.base (SoldierAI.performAttack s)))
  = (shotCount (log (SoldierAI.base s)) + if hasShot s then 1 else 0)%nat
  /\ lastAttackTime (SoldierAI.base (SoldierAI.performAttack s))
     = lastAttackTime (SoldierAI.base s)
  /\ SoldierAI.burstCount (SoldierAI.performAttack s) = SoldierAI.burstCount s
  /\ SoldierAI.burstSize (SoldierAI.performAttack s) = SoldierAI.burstSize s.
Proof.
  unfold SoldierAI.performAttack, hasShot.
  destruct (target (SoldierAI.base s)); [| repeat split; lia].
  destruct (isAlive (SoldierAI.base s)); cbn [negb andb];
    [| repeat split; lia].
  destruct (gtb _ _); cbn [negb]; repeat split; cbn; lia.
Qed.

(** One call of [performBurstFire] of a soldier with a positive burst
    size, by the time since the last shot. *)
Lemma performBurstFire_step now s :
  (0 < SoldierAI.burstSize s)%Z ->
  let s' := SoldierAI.performBurstFire now s in
  SoldierAI.burstSize s' = SoldierAI.burstSize s
  /\ (now - lastAttackTime (SoldierAI.base s) <= 150 ->
      lastAttackTime (SoldierAI.base s') = lastAttackTime (SoldierAI.base s)
      /\ shotCount (log (SoldierAI.base s'))
         = shotCount (log (SoldierAI.base s))
      /\ SoldierAI.burstCount s' = refilled s)
  /\ (150 < now - lastAttackTime (SoldierAI.base s) ->
      lastAttackTime (SoldierAI.base s') = now
      /\ shotCount (log (SoldierAI.base s'))
         = (shotCount (log (SoldierAI.base s))
            + if hasShot s then 1 else 0)%nat
      /\ SoldierAI.burstCount s' = (refilled s - 1)%Z).
Proof.
  intros Hsize s'. subst s'. unfold SoldierAI.performBurstFire, refilled.
  set (s1 := if (SoldierAI.burstCount s <=? 0)%Z
             then SoldierAI.set_burstCount (SoldierAI.burstSize s) s else s).
  assert (H1 : SoldierAI.base s1 = SoldierAI.base s
               /\ SoldierAI.burstSize s1 = SoldierAI.burstSize s
               /\ SoldierAI.burstCount s1
                  = (if (SoldierAI.burstCount s <=? 0)%Z
                     then SoldierAI.burstSize s else SoldierAI.burstCount s)
               /\ hasShot s1 = hasShot s).
  { subst s1. destruct (_ <=? _)%Z; repeat split. }
  destruct H1 as (Hb & Hz & Hc & Hs).
  assert (Hpos : (0 <? SoldierAI.burstCount s1)%Z = true).
  { apply Z.ltb_lt. rewrite Hc.
    destruct (Z.leb_spec (SoldierAI.burstCount s) 0); lia. }
  rewrite Hpos.
  set (s2 := SoldierAI.on_base (set_attackCooldown (15#100)) s1).
  assert (H2 : lastAttackTime (SoldierAI.base s2)
               = lastAttackTime (SoldierAI.base s)
               /\ log (SoldierAI.base s2) = log (SoldierAI.base s)
               /\ SoldierAI.burstSize s2 = SoldierAI.burstSize s
               /\ SoldierAI.burstCount s2 = SoldierAI.burstCount s1
               /\ hasShot s2 = hasShot s
               /\ attackCooldown (SoldierAI.base s2) = 15#100).
  { subst s2. unfold hasShot in *. cbn. rewrite Hb. repeat split; assumption. }
  destruct H2 as (Hl2 & Hg2 & Hz2 & Hc2 & Hs2 & Ha2).
  rewrite Ha2, Hl2.
  destruct (gtb (now - lastAttackTime (SoldierAI.base s)) ((15#100) * 1000))
    eqn:Eg; [apply gtb_gt in Eg | apply gtb_le in Eg].
  - destruct (performAttack_shots s2) as (Hp1 & Hp2 & Hp3 & Hp4).
    split; [cbn; congruence |]. split; [intros Hle; lra |].
    intros _. cbn. rewrite Hp1, Hp3, Hg2, Hs2, Hc2, Hc.
    repeat split.
  - split; [exact Hz2 |]. split; [| intros Hlt; lra].
    intros _. rewrite Hl2, Hg2, Hc2, Hc. repeat split.
Qed.

(** X14.  Burst fire is rate-limited by the clock alone.  For a soldier
    with a positive burst size, a call of [performBurstFire] no later
    than 150 ms after the last attack time announces nothing and keeps
    that time; a later call sets the last attack time to now and takes
    one round off the burst counter whether or not a shot is announced
    (none is when the soldier is dead, has no target or the target is
    beyond maxDistance).  So two calls at most 150 ms apart announce at
    most one shot, and a counter not above the burst size stays within
    0 and the burst size. *)
Theorem burst_fire_is_rate_limited :
  forall (now : Q) (s : SoldierAI.Soldier),
    (0 < SoldierAI.burstSize s)%Z ->
    let s' := SoldierAI.performBurstFire now s in
    (now - lastAttackTime (SoldierAI.base s) <= 150 ->
     lastAttackTime (SoldierAI.base s') = lastAttackTime (SoldierAI.base s)
     /\ shotCount (log (SoldierAI.base s'))
        = shotCount (log (SoldierAI.base s)))
    /\ (150 < now - lastAttackTime (SoldierAI.base s) ->
        lastAttackTime (SoldierAI.base s') = now
        /\ shotCount (log (SoldierAI.base s'))
           = (shotCount (log (SoldierAI.base s))
              + if hasShot s then 1 else 0)%nat
        /\ SoldierAI.burstCount s' = (refilled s - 1)%Z)
    /\ (forall later,
          later - now <= 150 ->
          (shotCount (log (SoldierAI.base
                             (SoldierAI.performBurstFire later s')))
           <= shotCount (log (SoldierAI.base s)) + 1)%nat)
    /\ ((SoldierAI.burstCount s <= SoldierAI.burstSize s)%Z ->
        (0 <= SoldierAI.burstCount s' <= SoldierAI.burstSize s')%Z).
Proof.
  intros now s Hsize s'.
  destruct (performBurstFire_step now s Hsize) as (Hz & Hheld & Hfired).
  fold s' in Hz, Hheld, Hfired.
  split; [intros H; destruct (Hheld H) as (A & B & _); split; assumption |].
  split; [exact Hfired |]. split.
  - intros later Hlater.
    assert (Hsize' : (0 < SoldierAI.burstSize s')%Z) by (rewrite Hz; exact Hsize).
    destruct (performBurstFire_step later s' Hsize') as (_ & Hheld2 & Hfired2).
    destruct (Qlt_le_dec 150 (now - lastAttackTime (SoldierAI.base s)))
      as [Hlt | Hle].
    + destruct (Hfired Hlt) as (Hl & Hn & _).
      destruct Hheld2 as (_ & Hn2 & _); [rewrite Hl; lra |].
      rewrite Hn2, Hn. destruct (hasShot s); lia.
    + destruct (Hheld Hle) as (Hl & Hn & _).
      destruct (Qlt_le_dec 150 (later - lastAttackTime (SoldierAI.base s')))
        as [Hlt2 | Hle2].
      * destruct (Hfired2 Hlt2) as (_ & Hn2 & _).
        rewrite Hn2, Hn. destruct (hasShot s'); lia.
      * destruct (Hheld2 Hle2) as (_ & Hn2 & _). rewrite Hn2, Hn. lia.
  - intros Hle. rewrite Hz.
    assert (Hr : (0 < refilled s <= SoldierAI.burstSize s)%Z).
    { unfold refilled. destruct (Z.leb_spec (SoldierAI.burstCount s) 0); lia. }
    destruct (Qlt_le_dec 150 (now - lastAttackTime (SoldierAI.base s)))
      as [Hlt | Hle'].
    + destruct (Hfired Hlt) as (_ & _ & Hc). rewrite Hc. lia.
    + destruct (Hheld Hle') as (_ & _ & Hc). rewrite Hc. lia.
Qed.

End BurstRate.

(** X14 on a soldier with a target in range at 1000 ms, then 100 ms
    later. *)
Lemma burst_fire_is_rate_limited_witness :
  (shotCount
     (log (SoldierAI.base
             (SoldierAI.performBurstFire (rt := taxicab) 1100
                (SoldierAI.performBurstFire (rt := taxicab) 1000
                   (soldierWithTarget (rt := taxicab))))))
   <= shotCount (log (SoldierAI.base (soldierWithTarget (rt := taxicab)))) + 1)%nat.
Proof.
  apply (proj1 (proj2 (proj2
           (burst_fire_is_rate_limited (rt := taxicab) 1000
              (soldierWithTarget (rt := taxicab)) ltac:(reflexivity))))).
  vm_compute. discriminate.
Defined.

(** ** Grenades *)

Section Grenades.

Context {rt : Runtime}.


End Grenades.


(** ** The choice of cover *)

Section BestCover.

Import SoldierShape.

Context {rt : Runtime}.

Variable s : SoldierAI.Soldier.
Variable t : Object3D.

(** The loop of [selectBestCover] over [l], started from a state that is
    right for the spots [seen] so far, ends in a state that is right for
    [seen ++ l]. *)
Lemma best_loop (l seen : list Vector3)
  (acc : option SoldierAI.CoverState * option Q * SoldierAI.Soldier) :
  (let '(best, bs, sk) := acc in
   SoldierAI.base sk = SoldierAI.base s
   /\ SoldierAI.draws sk = (SoldierAI.draws s + List.length seen)%nat
   /\ match best, bs with
      | None, None => seen = []
      | Some c, Some b =>
          exists i,
            nth_error seen i = Some (SoldierAI.cover_position c)
            /\ b == coverScore s t i (SoldierAI.cover_position c)
            /\ SoldierAI.cover_quality c = coverQuality s i
            /\ SoldierAI.cover_direction c
               = v3_normalize
                   (subVectors (obj_position t) (SoldierAI.cover_position c))
            /\ (forall j p, nth_error seen j = Some p ->
                            coverScore s t j p <= b)
            /\ (forall j p, (j < i)%nat -> nth_error seen j = Some p ->
                            coverScore s t j p < b)
      | _, _ => False
      end) ->
  let '(best, bs, sk) :=
    fold_left
      (fun (acc : option SoldierAI.CoverState * option Q * SoldierAI.Soldier)
           (coverPos : Vector3) =>
         let '(bestCover, bestScore, s) := acc in
         let distToCover :=
           v3_distanceTo (position (SoldierAI.base s)) coverPos in
         let distToEnemy := v3_distanceTo coverPos (obj_position t) in
         let distScore := 10 - distToCover in
         let enemyDistScore :=
           distToEnemy - maxDistance (movementConfig (SoldierAI.base s)) in
         let (r, s) := SoldierAI.random s in
         let quality := (1#2) + r * (1#2) in
         let totalScore :=
           distScore * (3#10) + enemyDistScore * (1#2) + quality * (2#10) in
         let better :=
           match bestScore with
           | None => true
           | Some b => gtb totalScore b
           end in
         if better then
           (Some {| SoldierAI.cover_position := coverPos;
                    SoldierAI.cover_quality := quality;
                    SoldierAI.cover_direction :=
                      v3_normalize (subVectors (obj_position t) coverPos) |},
            Some totalScore, s)
         else (bestCover, bestScore, s))
      l acc in
  SoldierAI.base sk = SoldierAI.base s
  /\ SoldierAI.draws sk = (SoldierAI.draws s + List.length (seen ++ l))%nat
  /\ match best, bs with
     | None, None => seen ++ l = []
     | Some c, Some b =>
         exists i,
           nth_error (seen ++ l) i = Some (SoldierAI.cover_position c)
           /\ b == coverScore s t i (SoldierAI.cover_position c)
           /\ SoldierAI.cover_quality c = coverQuality s i
           /\ SoldierAI.cover_direction c
              = v3_normalize
                  (subVectors (obj_position t) (SoldierAI.cover_position c))
           /\ (forall j p, nth_error (seen ++ l) j = Some p ->
                           coverScore s t j p <= b)
           /\ (forall j p, (j < i)%nat -> nth_error (seen ++ l) j = Some p ->
                           coverScore s t j p < b)
     | _, _ => False
     end.
Proof.
  revert seen acc. induction l as [| x l IH]; intros seen acc Hinv.
  - rewrite app_nil_r. exact Hinv.
  - cbn [fold_left].
    replace (seen ++ x :: l) with ((seen ++ [x]) ++ l)
      by (rewrite <- app_assoc; reflexivity).
    apply IH. clear IH.
    destruct acc as [[best bs] sk]. destruct Hinv as (Hb & Hd & Hinv).
    unfold SoldierAI.random. cbn [fst snd].
    rewrite Hb, Hd.
    assert (Hlen : List.length (seen ++ [x]) = S (List.length seen))
      by (rewrite length_app; cbn; lia).
    assert (Hx : nth_error (seen ++ [x]) (List.length seen) = Some x).
    { rewrite nth_error_app2 by lia. rewrite Nat.sub_diag. reflexivity. }
    assert (Hcases : forall j p, nth_error (seen ++ [x]) j = Some p ->
              nth_error seen j = Some p
              \/ (j = List.length seen /\ p = x)).
    { intros j p Hj.
      destruct (Nat.lt_ge_cases j (List.length seen)) as [Hlt | Hge].
      - left. rewrite nth_error_app1 in Hj by exact Hlt. exact Hj.
      - right. rewrite nth_error_app2 in Hj by exact Hge.
        destruct (j - List.length seen)%nat as [| m] eqn:Em.
        + cbn in Hj. split; [lia | congruence].
        + cbn in Hj. destruct m; discriminate. }
    assert (Hold : forall j p, nth_error seen j = Some p ->
              nth_error (seen ++ [x]) j = Some p).
    { intros j p Hj. rewrite nth_error_app1; [exact Hj |].
      apply nth_error_Some. congruence. }
    assert (Hin : forall j p, nth_error seen j = Some p ->
              (j < List.length seen)%nat).
    { intros j p Hj. apply nth_error_Some. congruence. }
    fold (coverQuality s (List.length seen)).
    fold (coverScore s t (List.length seen) x).
    destruct best as [c |], bs as [b |]; try contradiction.
    + destruct Hinv as (i & Hi & Hs & Hq & Hdir & Hmax & Hfirst).
      destruct (gtb (coverScore s t (List.length seen) x) b) eqn:Eg;
        [apply gtb_gt in Eg | apply gtb_le in Eg].
      * cbn [SoldierAI.base SoldierAI.set_draws SoldierAI.draws].
        split; [exact Hb |]. split; [rewrite ?Hd, ?Hlen; lia |].
        exists (List.length seen). cbn.
        split; [exact Hx |]. split; [reflexivity |].
        split; [reflexivity |]. split; [reflexivity |]. split.
        -- intros j p Hj. destruct (Hcases j p Hj) as [H | [-> ->]].
           ++ specialize (Hmax j p H). lra.
           ++ lra.
        -- intros j p Hlt Hj. destruct (Hcases j p Hj) as [H | [-> ->]].
           ++ specialize (Hmax j p H). lra.
           ++ lia.
      * cbn [SoldierAI.base SoldierAI.set_draws SoldierAI.draws].
        split; [exact Hb |]. split; [rewrite ?Hd, ?Hlen; lia |].
        exists i.
        split; [apply Hold, Hi |]. split; [exact Hs |].
        split; [exact Hq |]. split; [exact Hdir |]. split.
        -- intros j p Hj. destruct (Hcases j p Hj) as [H | [-> ->]].
           ++ apply Hmax, H.
           ++ exact Eg.
        -- intros j p Hlt Hj. destruct (Hcases j p Hj) as [H | [-> ->]].
           ++ apply (Hfirst j p Hlt H).
           ++ specialize (Hin i _ Hi). lia.
    + subst seen.
      cbn [SoldierAI.base SoldierAI.set_draws SoldierAI.draws].
      split; [exact Hb |]. split; [cbn in *; lia |].
      exists O. cbn.
      split; [reflexivity |]. split; [reflexivity |].
      split; [reflexivity |]. split; [reflexivity |]. split.
      * intros [| [| j]] p Hj; cbn in Hj; try discriminate.
        injection Hj as <-. lra.
      * intros j p Hlt. lia.
Qed.

End BestCover.

Section BestCoverChoice.

Import SoldierShape.

Context {rt : Runtime}.

(** X16.  [selectBestCover] returns the first cover spot of highest
    score.  Without a target it returns [null] and draws nothing.  With
    a target it draws one random number per cover spot and changes
    nothing else of the soldier; it returns [null] exactly when there is
    no cover spot; otherwise the cover returned is the spot at some
    index [i], with the quality drawn for that spot and the direction
    from the spot to the target, no spot scores higher than it, and
    every spot before it scores strictly lower. *)
Theorem selectBestCover_returns_the_first_best_scoring_spot :
  forall (s : SoldierAI.Soldier),
    (target (SoldierAI.base s) = None ->
     SoldierAI.selectBestCover s = (None, s))
    /\ forall t,
         target (SoldierAI.base s) = Some t ->
         let r := SoldierAI.selectBestCover s in
         SoldierAI.base (snd r) = SoldierAI.base s
         /\ SoldierAI.draws (snd r)
            = (SoldierAI.draws s
               + List.length (coverSpots (SoldierAI.base s)))%nat
         /\ (fst r = None <-> coverSpots (SoldierAI.base s) = [])
         /\ forall c,
              fst r = Some c ->
              exists i,
                nth_error (coverSpots (SoldierAI.base s)) i
                = Some (SoldierAI.cover_position c)
                /\ SoldierAI.cover_quality c = coverQuality s i
                /\ SoldierAI.cover_direction c
                   = v3_normalize
                       (subVectors (obj_position t)
                          (SoldierAI.cover_position c))
                /\ (forall j p,
                      nth_error (coverSpots (SoldierAI.base s)) j = Some p ->
                      coverScore s t j p
                      <= coverScore s t i (SoldierAI.cover_position c))
                /\ (forall j p,
                      (j < i)%nat ->
                      nth_error (coverSpots (SoldierAI.base s)) j = Some p ->
                      coverScore s t j p
                      < coverScore s t i (SoldierAI.cover_position c)).
Proof.
  intros s. split.
  - intros Hn. unfold SoldierAI.selectBestCover. rewrite Hn. reflexivity.
  - intros t Ht r. subst r. unfold SoldierAI.selectBestCover. rewrite Ht.
    pose proof (best_loop s t (coverSpots (SoldierAI.base s)) []
                  (None, None, s)) as H.
    cbv beta iota zeta in H.
    specialize (H (conj eq_refl (conj (eq_sym (Nat.add_0_r _)) eq_refl))).
    destruct (fold_left _ (coverSpots (SoldierAI.base s)) (None, None, s))
      as [[best bs] sk].
    cbn [app] in H. destruct H as (Hb & Hd & H). cbn [fst snd].
    split; [exact Hb |]. split; [exact Hd |].
    destruct best as [c |], bs as [b |]; try contradiction.
    + destruct H as (i & Hi & Hs & Hq & Hdir & Hmax & Hfirst). split.
      * split; [discriminate |]. intros E. rewrite E in Hi.
        destruct i; discriminate.
      * intros c' Hc. injection Hc as <-. exists i.
        split; [exact Hi |]. split; [exact Hq |]. split; [exact Hdir |].
        split.
        -- intros j p Hj. rewrite <- Hs. apply (Hmax j p Hj).
        -- intros j p Hlt Hj. rewrite <- Hs. apply (Hfirst j p Hlt Hj).
    + split; [split; [intros _; exact H | reflexivity] | discriminate].
Qed.

End BestCoverChoice.

(** X16 on a soldier with a target and two cover spots. *)
Lemma selectBestCover_returns_the_first_best_scoring_spot_witness :
  SoldierAI.draws
    (snd (SoldierAI.selectBestCover (rt := taxicab)
            (SoldierAI.on_base (set_coverSpots [vec3 2 0 0; vec3 0 0 (-4)])
               (soldierWithTarget (rt := taxicab)))))
  = 2%nat.
Proof.
  apply (proj2
           (selectBestCover_returns_the_first_best_scoring_spot (rt := taxicab)
              (SoldierAI.on_base (set_coverSpots [vec3 2 0 0; vec3 0 0 (-4)])
                 (soldierWithTarget (rt := taxicab))))
           {| obj_name := "player"; obj_position := vec3 0 0 10 |} eq_refl).
Defined.

(** ** The soldier's patrol *)

Section SoldierPatrol.

Context {rt : Runtime}.

Lemma updateTimers_base dt s :
  SoldierAI.base (SoldierAI.updateTimers dt s) = SoldierAI.base s.
Proof.
  unfold SoldierAI.updateTimers.
  repeat match goal with
         | |- context [if ?c then _ else _] => destruct c
         end; reflexivity.
Qed.

Lemma updatePerception_keeps dt now e :
  target (updatePerception dt now e) = target e
  /\ patrolPoints (updatePerception dt now e) = patrolPoints e
  /\ state (updatePerception dt now e) = state e
  /\ position (updatePerception dt now e) = position e.
Proof.
  unfold updatePerception.
  destruct (target e) eqn:Et; [| repeat split; cbn; congruence].
  destruct (negb (isAlive e)); [repeat split; cbn; congruence |].
  cbn.
  match goal with |- context [if ?c then _ else _] => destruct c end;
    repeat split; cbn; congruence.
Qed.

Lemma updatePerception_sight_has_target dt now e :
  hasLineOfSight (perception (updatePerception dt now e)) = true ->
  target e <> None.
Proof.
  unfold updatePerception.
  destruct (target e); [intros _; discriminate | cbn; discriminate].
Qed.

(** X17.  [Soldier.update] throws exactly on patrol.  The call ends in
    the [TypeError] of [super.executePatrol], a method [AICharacter]
    does not have, exactly when the soldier is alive, not stunned, has
    patrol points and, after the perception is refreshed, has no target
    in sight.  By then the timers have run and the state is Patrol; the
    movement is not applied, so the position is where it was. *)
Theorem soldier_update_throws_exactly_on_patrol :
  forall (dt now : Q) (s : SoldierAI.Soldier),
    ((exists s', SoldierAI.update dt now s = SoldierAI.Threw s')
     <-> isAlive (SoldierAI.base s) = true
         /\ isStunned (SoldierAI.base s) = false
         /\ patrolPoints (SoldierAI.base s) <> []
         /\ hasLineOfSight
              (perception (updatePerception dt now (SoldierAI.base s)))
            = false)
    /\ forall s',
         SoldierAI.update dt now s = SoldierAI.Threw s' ->
         s' = SoldierAI.on_base (setState PATROL)
                (SoldierAI.on_base (updatePerception dt now)
                   (SoldierAI.updateTimers dt s))
         /\ state (SoldierAI.base s') = PATROL
         /\ position (SoldierAI.base s') = position (SoldierAI.base s).
Proof.
  intros dt now s.
  assert (Hthrown : forall s',
            SoldierAI.update dt now s = SoldierAI.Threw s' ->
            (isAlive (SoldierAI.base s) = true
             /\ isStunned (SoldierAI.base s) = false
             /\ patrolPoints (SoldierAI.base s) <> []
             /\ hasLineOfSight
                  (perception (updatePerception dt now (SoldierAI.base s)))
                = false)
            /\ s' = SoldierAI.on_base (setState PATROL)
                      (SoldierAI.on_base (updatePerception dt now)
                         (SoldierAI.updateTimers dt s))).
  { intros s'. unfold SoldierAI.update.
    destruct (isAlive (SoldierAI.base s)); cbn [negb]; [| discriminate].
    destruct (isStunned (SoldierAI.base s)); [discriminate |].
    set (s2 := SoldierAI.on_base (updatePerception dt now)
                 (SoldierAI.updateTimers dt s)).
    assert (Hb : SoldierAI.base s2
                 = updatePerception dt now (SoldierAI.base s)).
    { subst s2. cbn. rewrite updateTimers_base. reflexivity. }
    destruct (updatePerception_keeps dt now (SoldierAI.base s))
      as (Ht & Hp & _).
    rewrite Hb, Ht, Hp.
    destruct (hasLineOfSight
                (perception (updatePerception dt now (SoldierAI.base s))))
      eqn:El.
    - pose proof (updatePerception_sight_has_target _ _ _ El) as Hne.
      destruct (target (SoldierAI.base s)); [| contradiction].
      cbn [andb]. discriminate.
    - rewrite andb_false_r.
      destruct (patrolPoints (SoldierAI.base s)); [discriminate |].
      unfold SoldierAI.executePatrol. intros E. injection E as <-.
      repeat split. discriminate. }
  split; [split |].
  - intros [s' E]. apply (Hthrown s' E).
  - intros (Ha & Hs & Hp & Hl). unfold SoldierAI.update.
    rewrite Ha, Hs. cbn [negb].
    set (s2 := SoldierAI.on_base (updatePerception dt now)
                 (SoldierAI.updateTimers dt s)).
    assert (Hb : SoldierAI.base s2
                 = updatePerception dt now (SoldierAI.base s)).
    { subst s2. cbn. rewrite updateTimers_base. reflexivity. }
    destruct (updatePerception_keeps dt now (SoldierAI.base s))
      as (Ht & Hpp & _).
    rewrite Hb, Hl, andb_false_r, Hpp.
    destruct (patrolPoints (SoldierAI.base s)); [contradiction |].
    eexists. reflexivity.
  - intros s' E. destruct (Hthrown s' E) as (_ & ->).
    split; [reflexivity |]. cbn.
    split; [apply setState_state |].
    rewrite setState_position, updateTimers_base.
    apply updatePerception_keeps.
Qed.

End SoldierPatrol.

(** X17 on a soldier with patrol points and no target. *)
Lemma soldier_update_throws_exactly_on_patrol_witness :
  state
    (SoldierAI.base
       (SoldierAI.on_base (setState PATROL)
          (SoldierAI.on_base (updatePerception (rt := taxicab) (1/60) 0)
             (SoldierAI.updateTimers (1/60) Samples.patrollingSoldier))))
  = PATROL.
Proof.
  apply (proj2 (soldier_update_throws_exactly_on_patrol (rt := taxicab)
                  (1/60) 0 Samples.patrollingSoldier)
           (SoldierAI.on_base (setState PATROL)
              (SoldierAI.on_base (updatePerception (rt := taxicab) (1/60) 0)
                 (SoldierAI.updateTimers (1/60) Samples.patrollingSoldier)))).
  vm_compute. reflexivity.
Defined.

(** ** Boss tuning: damage and speed by phase *)

Section BossTuning.

Import BossShape.

Context {rt : Runtime}.

Lemma sameGear_refl e : sameGear e e.
Proof. split; reflexivity. Qed.

Lemma sameGear_trans e1 e2 e3 : sameGear e1 e2 -> sameGear e2 e3 -> sameGear e1 e3.
Proof. intros [A1 A2] [B1 B2]. split; congruence. Qed.

Lemma setState_damage s e : damage (setState s e) = damage e.
Proof. through_setState. Qed.

Lemma setState_movementConfig s e :
  movementConfig (setState s e) = movementConfig e.
Proof. through_setState. Qed.

Lemma sameGear_setState s e : sameGear e (setState s e).
Proof. split; [apply setState_damage | apply setState_movementConfig]. Qed.






Lemma sameGear_updateStun dt e : sameGear e (updateStun dt e).
Proof.
  unfold updateStun. cbn. destruct (leb _ 0); [| split; reflexivity].
  eapply sameGear_trans; [| apply sameGear_setState]. split; reflexivity.
Qed.

Lemma sameGear_updatePerception dt now e :
  sameGear e (updatePerception dt now e).
Proof.
  unfold updatePerception.
  destruct (target e); [| split; reflexivity].
  destruct (negb (isAlive e)); [split; reflexivity |].
  cbn.
  match goal with |- context [if ?c then _ else _] => destruct c end;
    split; reflexivity.
Qed.

Lemma sameGear_applyMovement dt e : sameGear e (applyMovement dt e).
Proof. unfold applyMovement. destruct (mesh e); split; reflexivity. Qed.














End BossTuning.


Section BossReset.

Import BossShape.

Context {rt : Runtime}.


End BossReset.


(** ** Boss events and boss state *)

Section BossEvents.

Import BossShape.

Context {rt : Runtime}.

Lemma quiet_refl e : quiet e e.
Proof. exists []. split; [reflexivity | constructor]. Qed.

Lemma quiet_trans e1 e2 e3 : quiet e1 e2 -> quiet e2 e3 -> quiet e1 e3.
Proof.
  intros (l1 & H1 & F1) (l2 & H2 & F2). exists (l2 ++ l1). split.
  - rewrite H2, H1, app_assoc. reflexivity.
  - apply Forall_app. split; assumption.
Qed.

Lemma quiet_same e e' : log e' = log e -> quiet e e'.
Proof. intros H. exists []. split; [exact H | constructor]. Qed.

Lemma quiet_one ev e e' : log e' = ev :: log e -> isEntityEvent ev -> quiet e e'.
Proof.
  intros H Hev. exists [ev]. split; [exact H |]. constructor; [exact Hev | constructor].
Qed.

Lemma quiet_setState s e : quiet e (setState s e).
Proof.
  destruct (setState_log s e) as [H | (x & H & _)].
  - apply quiet_same, H.
  - eapply quiet_one; [exact H | exact I].
Qed.

Lemma quiet_struck amount source e : quiet e (struck amount source e).
Proof.
  destruct (struck_log amount source e) as (x & H & _).
  eapply quiet_one; [exact H | exact I].
Qed.

Lemma quiet_die e : quiet e (die e).
Proof.
  unfold die, stop. cbv zeta.
  eapply quiet_trans with (e2 := set_health 0 (set_isAlive false e));
    [apply quiet_same; reflexivity |].
  eapply quiet_trans; [apply (quiet_setState DEAD) |].
  eapply quiet_trans with
    (e2 := set_velocity zero3
             (setState DEAD (set_health 0 (set_isAlive false e))));
    [apply quiet_same; reflexivity |].
  eapply quiet_one; [apply fire_log | exact I].
Qed.

Lemma quiet_die_entity e : quiet e (Boss.die_entity e).
Proof.
  unfold Boss.die_entity. cbv zeta.
  eapply quiet_trans; [apply quiet_die |].
  eapply quiet_one; [apply fire_log | exact I].
Qed.

Lemma quiet_coverIfArmoredSoldier e : quiet e (coverIfArmoredSoldier e).
Proof.
  unfold coverIfArmoredSoldier. destruct (_ && _); [| apply quiet_refl].
  destruct (findNearestCover e); [| apply quiet_refl].
  eapply quiet_trans; [| apply quiet_setState]. apply quiet_same. reflexivity.
Qed.

Lemma quiet_takeDamage_via d amount source e :
  (forall x, quiet x (d x)) -> quiet e (takeDamage_via d amount source e).
Proof.
  intros Hd. destruct (isAlive e) eqn:Ha;
    [| rewrite takeDamage_via_dead by exact Ha; apply quiet_refl].
  rewrite takeDamage_via_stages by exact Ha.
  eapply quiet_trans; [apply (quiet_struck amount source) |].
  eapply quiet_trans; [| apply quiet_coverIfArmoredSoldier].
  destruct (leb _ 0); [apply Hd | apply quiet_refl].
Qed.

Lemma quiet_updateStun dt e : quiet e (updateStun dt e).
Proof.
  unfold updateStun. cbn. destruct (leb _ 0); [| apply quiet_same; reflexivity].
  eapply quiet_trans; [| apply quiet_setState]. apply quiet_same. reflexivity.
Qed.

Lemma quiet_updatePerception dt now e : quiet e (updatePerception dt now e).
Proof.
  apply quiet_same. unfold updatePerception.
  destruct (target e); [| reflexivity].
  destruct (negb (isAlive e)); [reflexivity |].
  cbn.
  match goal with |- context [if ?c then _ else _] => destruct c end;
    reflexivity.
Qed.

Lemma quiet_applyMovement dt e : quiet e (applyMovement dt e).
Proof. apply quiet_same. unfold applyMovement. destruct (mesh e); reflexivity. Qed.

Lemma quiet_stun d e : quiet e (stun d e).
Proof.
  unfold stun, stop. cbv zeta.
  eapply quiet_trans with (e2 := set_stunTime d (set_isStunned true e));
    [apply quiet_same; reflexivity |].
  eapply quiet_trans; [apply (quiet_setState STUNNED) |].
  apply quiet_same. reflexivity.
Qed.

Lemma quiet_counts e e' :
  quiet e e' ->
  enrageCount (log e') = enrageCount (log e)
  /\ phaseChangeCount (log e') = phaseChangeCount (log e).
Proof.
  intros (l & H & F). rewrite H. clear H.
  induction F as [| ev l Hev F IH]; [split; reflexivity |].
  destruct ev; try contradiction; exact IH.
Qed.

Lemma logMatchesState_on_base f b :
  quiet (Boss.base b) (f (Boss.base b)) ->
  logMatchesState b -> logMatchesState (Boss.on_base f b).
Proof.
  intros Hq [H1 H2]. destruct (quiet_counts _ _ Hq) as [Q1 Q2].
  split; cbn; [rewrite Q1; exact H1 | rewrite Q2; exact H2].
Qed.

Lemma logMatchesState_advanceToNextPhase b :
  logMatchesState b -> logMatchesState (Boss.advanceToNextPhase b).
Proof.
  intros [H1 H2]. unfold Boss.advanceToNextPhase.
  destruct (Boss.atLastPhase b); [split; assumption |].
  destruct (nth_error _ (Boss.currentPhaseIndex b)) as [oldPhase |];
    [| split; assumption].
  destruct (nth_error _ (S (Boss.currentPhaseIndex b))) as [newPhase |];
    [| split; assumption].
  unfold logMatchesState.
  destruct (Boss.onExit oldPhase), (Boss.onEnter newPhase); cbn;
    rewrite H1, H2; split; reflexivity.
Qed.

Lemma logMatchesState_checkPhaseTransition b :
  logMatchesState b -> logMatchesState (Boss.checkPhaseTransition b).
Proof.
  intros H. unfold Boss.checkPhaseTransition.
  destruct (Boss.atLastPhase b); [exact H |].
  destruct (nth_error _ _); [| exact H].
  destruct (leb _ _); [apply logMatchesState_advanceToNextPhase, H | exact H].
Qed.

Lemma logMatchesState_checkEnrage b :
  logMatchesState b -> logMatchesState (Boss.checkEnrage b).
Proof.
  intros [H1 H2]. unfold Boss.checkEnrage.
  destruct (Boss.isEnraged b) eqn:He; [split; [rewrite He |]; assumption |].
  destruct (leb _ _); [| split; [rewrite He |]; assumption].
  unfold Boss.enterEnrage. rewrite He. unfold logMatchesState. cbn.
  rewrite H1, H2. split; reflexivity.
Qed.

Lemma logMatchesState_bossCall c b :
  isReset c = false -> logMatchesState b -> logMatchesState (bossCall c b).
Proof.
  intros Hc H.
  destruct c as [amount source | dt now | d | | attackName |];
    cbn [bossCall]; try discriminate.
  - unfold Boss.takeDamage.
    destruct (negb (isAlive (Boss.base b))); [exact H |].
    apply logMatchesState_checkEnrage, logMatchesState_checkPhaseTransition.
    apply logMatchesState_on_base;
      [apply quiet_takeDamage_via, quiet_die_entity | exact H].
  - unfold Boss.update.
    destruct (negb (isAlive (Boss.base b))); [exact H |].
    destruct (isStunned (Boss.base b));
      [apply logMatchesState_on_base; [apply quiet_updateStun | exact H] |].
    apply logMatchesState_on_base; [apply quiet_applyMovement |].
    apply logMatchesState_on_base; [apply quiet_updatePerception |].
    destruct (gtb _ 0); exact H.
  - apply logMatchesState_on_base; [apply quiet_stun | exact H].
  - apply logMatchesState_on_base; [apply quiet_die_entity | exact H].
  - unfold Boss.performSpecialAttack.
    destruct (Boss.isPerformingSpecial b); [exact H |].
    destruct H as [H1 H2]. split; cbn; assumption.
Qed.

Lemma enraged_stays c b :
  isReset c = false -> Boss.isEnraged b = true ->
  Boss.isEnraged (bossCall c b) = true.
Proof.
  intros Hc He.
  destruct c as [amount source | dt now | d | | attackName |];
    cbn [bossCall]; try discriminate.
  - unfold Boss.takeDamage.
    destruct (negb (isAlive (Boss.base b))); [exact He |].
    set (b1 := Boss.on_base _ _).
    assert (H1 : Boss.isEnraged b1 = true) by exact He.
    destruct (checkPhaseTransition_frame b1) as (_ & _ & _ & H2 & _).
    unfold Boss.checkEnrage. rewrite H2, H1. rewrite H2. exact H1.
  - unfold Boss.update.
    destruct (negb (isAlive (Boss.base b))); [exact He |].
    destruct (isStunned (Boss.base b)); [exact He |].
    destruct (gtb _ 0); exact He.
  - exact He.
  - exact He.
  - unfold Boss.performSpecialAttack.
    destruct (Boss.isPerformingSpecial b); exact He.
Qed.

(** X20.  The events a boss fires match its state.  For a boss as the
    constructor built it and any sequence of calls without [reset]: the
    enrage event has been fired once if the boss is enraged and never
    otherwise, and the number of phase-change events fired is the index
    of the current phase.  Enrage is one-way: no call other than [reset]
    ends it. *)
Theorem boss_events_match_phase_and_enrage :
  forall (id name : string) (config : Boss.BossConfig) (b : Boss.BossBase)
         (cs : list BossCall),
    Boss.new id name config = Some b ->
    noReset cs ->
    let b' := bossRun cs b in
    enrageCount (log (Boss.base b'))
    = (if Boss.isEnraged b' then 1 else 0)%nat
    /\ phaseChangeCount (log (Boss.base b')) = Boss.currentPhaseIndex b'
    /\ forall c, isReset c = false -> Boss.isEnraged b' = true ->
                 Boss.isEnraged (bossCall c b') = true.
Proof.
  intros id name config b cs Hnew Hcs b'.
  assert (H0 : logMatchesState b).
  { unfold Boss.new in Hnew.
    destruct (Boss.cfg_phases config); [discriminate |].
    injection Hnew as <-. split; reflexivity. }
  assert (H : logMatchesState b').
  { subst b'. clear Hnew. revert b H0 Hcs.
    induction cs as [| c cs IH]; intros b H0 Hcs; [exact H0 |].
    unfold noReset in Hcs. cbn in Hcs. apply andb_true_iff in Hcs.
    destruct Hcs as [Hc Hcs]. apply negb_true_iff in Hc.
    change (bossRun (c :: cs) b) with (bossRun cs (bossCall c b)).
    apply IH; [apply logMatchesState_bossCall; assumption | exact Hcs]. }
  destruct H as [H1 H2].
  split; [exact H1 |]. split; [exact H2 |].
  intros c. apply enraged_stays.
Qed.

End BossEvents.

(** X20 on the trainer, taken below its enrage threshold. *)
Lemma boss_events_match_phase_and_enrage_witness :
  BossShape.phaseChangeCount
    (log (Boss.base
            (bossRun (rt := taxicab)
               [BossTakeDamage 300 None; BossTakeDamage 400 None]
               (trainer (rt := taxicab)))))
  = Boss.currentPhaseIndex
      (bossRun (rt := taxicab)
         [BossTakeDamage 300 None; BossTakeDamage 400 None]
         (trainer (rt := taxicab))).
Proof.
  apply (boss_events_match_phase_and_enrage (rt := taxicab)
           "boss1" "trainer" (Trainer.TRAINER_CONFIG (rt := taxicab))
           (trainer (rt := taxicab))
           [BossTakeDamage 300 None; BossTakeDamage 400 None]).
  - reflexivity.
  - reflexivity.
Defined.

(** ** Phase thresholds: range and closed form *)

Section ThresholdRange.

Context {rt : Runtime}.










End ThresholdRange.


(** ** A boss killed before its last phase *)

Section BossLastHit.

Import BossShape.

Context {rt : Runtime}.





End BossLastHit.


(** ** Special attacks of the base boss *)

Section SpecialAttack.

Import BossShape.

Context {rt : Runtime}.

Lemma quiet_specialAttackCount e e' :
  quiet e e' -> specialAttackCount (log e') = specialAttackCount (log e).
Proof.
  intros (l & H & F). rewrite H. clear H.
  induction F as [| ev l Hev F IH]; [reflexivity |].
  destruct ev; try contradiction; exact IH.
Qed.

Lemma specialKept_refl b : specialKept b b.
Proof. repeat split. Qed.

Lemma specialKept_trans b1 b2 b3 :
  specialKept b1 b2 -> specialKept b2 b3 -> specialKept b1 b3.
Proof. intros (A1 & A2 & A3) (B1 & B2 & B3). repeat split; congruence. Qed.

Lemma specialKept_on_base f b :
  quiet (Boss.base b) (f (Boss.base b)) -> specialKept b (Boss.on_base f b).
Proof.
  intros H. split; [reflexivity |]. split; [reflexivity |].
  apply (quiet_specialAttackCount _ _ H).
Qed.

Lemma specialKept_checkPhaseTransition b :
  specialKept b (Boss.checkPhaseTransition b).
Proof.
  unfold Boss.checkPhaseTransition, Boss.advanceToNextPhase.
  destruct (Boss.atLastPhase b); [apply specialKept_refl |].
  destruct (nth_error (Boss.phaseHealthThresholds b) _);
    [| apply specialKept_refl].
  destruct (leb _ _); [| apply specialKept_refl].
  destruct (nth_error (Boss.phases b) (Boss.currentPhaseIndex b))
    as [oldPhase |]; [| apply specialKept_refl].
  destruct (nth_error (Boss.phases b) (S (Boss.currentPhaseIndex b)))
    as [newPhase |]; [| apply specialKept_refl].
  destruct (Boss.onExit oldPhase), (Boss.onEnter newPhase); repeat split.
Qed.

Lemma specialKept_checkEnrage b : specialKept b (Boss.checkEnrage b).
Proof.
  unfold Boss.checkEnrage, Boss.enterEnrage.
  destruct (Boss.isEnraged b); [apply specialKept_refl |].
  destruct (leb _ _); repeat split.
Qed.

Lemma specialKept_bossCall c b :
  isReset c = false -> Boss.isPerformingSpecial b = true ->
  specialKept b (bossCall c b).
Proof.
  intros Hc Hs.
  destruct c as [amount source | dt now | d | | attackName |];
    cbn [bossCall]; try discriminate.
  - unfold Boss.takeDamage.
    destruct (negb (isAlive (Boss.base b))); [apply specialKept_refl |].
    eapply specialKept_trans; [| apply specialKept_checkEnrage].
    eapply specialKept_trans; [| apply specialKept_checkPhaseTransition].
    eapply specialKept_trans with
      (b2 := Boss.set_hitCount (Boss.hitCount b + 1)%Z b);
      [repeat split |].
    apply specialKept_on_base, quiet_takeDamage_via, quiet_die_entity.
  - unfold Boss.update.
    destruct (negb (isAlive (Boss.base b))); [apply specialKept_refl |].
    destruct (isStunned (Boss.base b));
      [apply specialKept_on_base, quiet_updateStun |].
    eapply specialKept_trans; [| apply specialKept_on_base, quiet_applyMovement].
    eapply specialKept_trans;
      [| apply specialKept_on_base, quiet_updatePerception].
    destruct (gtb _ 0); repeat split.
  - apply specialKept_on_base, quiet_stun.
  - apply specialKept_on_base, quiet_die_entity.
  - unfold Boss.performSpecialAttack. rewrite Hs. apply specialKept_refl.
Qed.

(** X23.  A special attack of the base boss, once started, never ends
    and shuts out every other.  [performSpecialAttack] on a boss that is
    not performing one starts the attack and announces it once, whether
    or not the boss is alive and whatever its cooldown; after any further
    calls without [reset], the boss is still performing that same
    attack, and no other special attack has been announced: later
    [performSpecialAttack] calls are ignored, and nothing in this class
    calls [endSpecialAttack]. *)
Theorem special_attack_never_ends_in_the_base_boss :
  forall (attackName : string) (b : Boss.BossBase) (cs : list BossCall),
    Boss.isPerformingSpecial b = false ->
    noReset cs ->
    let b' := bossRun cs (Boss.performSpecialAttack attackName b) in
    Boss.isPerformingSpecial b' = true
    /\ Boss.currentSpecialAttack b' = Some attackName
    /\ specialAttackCount (log (Boss.base b'))
       = S (specialAttackCount (log (Boss.base b))).
Proof.
  intros attackName b cs Hfree Hcs b'.
  set (b1 := Boss.performSpecialAttack attackName b).
  assert (H1 : Boss.isPerformingSpecial b1 = true
               /\ Boss.currentSpecialAttack b1 = Some attackName
               /\ specialAttackCount (log (Boss.base b1))
                  = S (specialAttackCount (log (Boss.base b)))).
  { subst b1. unfold Boss.performSpecialAttack. rewrite Hfree.
    repeat split. }
  assert (Hrun : forall cs b0,
            noReset cs -> Boss.isPerformingSpecial b0 = true ->
            specialKept b0 (bossRun cs b0)).
  { clear. induction cs as [| c cs IH]; intros b0 Hcs Hs;
      [apply specialKept_refl |].
    unfold noReset in Hcs. cbn in Hcs. apply andb_true_iff in Hcs.
    destruct Hcs as [Hc Hcs]. apply negb_true_iff in Hc.
    change (bossRun (c :: cs) b0) with (bossRun cs (bossCall c b0)).
    pose proof (specialKept_bossCall c b0 Hc Hs) as Hk.
    eapply specialKept_trans; [exact Hk |].
    apply IH; [exact Hcs |]. destruct Hk as (Hk & _). rewrite Hk. exact Hs. }
  destruct H1 as (A1 & A2 & A3).
  destruct (Hrun cs b1 Hcs A1) as (K1 & K2 & K3).
  subst b'. fold b1. rewrite K1, K2, K3. repeat split; assumption.
Qed.

End SpecialAttack.

(** X23 on the trainer, killed and then told to attack twice. *)
Lemma special_attack_never_ends_in_the_base_boss_witness :
  Boss.currentSpecialAttack
    (bossRun (rt := taxicab)
       [BossUpdate 5 0; BossPerformSpecialAttack "flashbang"]
       (Boss.performSpecialAttack "combo"
          (Boss.takeDamage (rt := taxicab) 2000 None
             (trainer (rt := taxicab)))))
  = Some "combo"%string.
Proof.
  apply (special_attack_never_ends_in_the_base_boss (rt := taxicab) "combo"
           (Boss.takeDamage (rt := taxicab) 2000 None
              (trainer (rt := taxicab)))
           [BossUpdate 5 0; BossPerformSpecialAttack "flashbang"]).
  - reflexivity.
  - reflexivity.
Defined.

(** ** The grunt: patrol *)

Section GruntPatrol.

Import GruntShape.

Context {rt : Runtime}.

Lemma sameCursor_refl e : sameCursor e e.
Proof. split; reflexivity. Qed.

Lemma sameCursor_trans e1 e2 e3 :
  sameCursor e1 e2 -> sameCursor e2 e3 -> sameCursor e1 e3.
Proof. intros [A1 A2] [B1 B2]. split; congruence. Qed.

Lemma sameCursor_setState s e : sameCursor e (setState s e).
Proof. split; [apply setState_patrolPoints | apply setState_currentPatrolIndex]. Qed.

Lemma sameCursor_updatePerception dt now e :
  sameCursor e (updatePerception dt now e).
Proof.
  unfold updatePerception.
  destruct (target e); [| split; reflexivity].
  destruct (negb (isAlive e)); [split; reflexivity |].
  cbn.
  match goal with |- context [if ?c then _ else _] => destruct c end;
    split; reflexivity.
Qed.

Lemma sameCursor_applyMovement dt e : sameCursor e (applyMovement dt e).
Proof. unfold applyMovement. destruct (mesh e); split; reflexivity. Qed.

Lemma sameCursor_updateStun dt e : sameCursor e (updateStun dt e).
Proof.
  unfold updateStun. cbn. destruct (leb _ 0); [| split; reflexivity].
  eapply sameCursor_trans; [| apply sameCursor_setState]. split; reflexivity.
Qed.

Lemma sameCursor_stun d e : sameCursor e (stun d e).
Proof.
  unfold stun, stop. cbv zeta.
  eapply sameCursor_trans with (e2 := set_stunTime d (set_isStunned true e));
    [split; reflexivity |].
  eapply sameCursor_trans; [apply (sameCursor_setState STUNNED) |].
  split; reflexivity.
Qed.

Lemma sameCursor_die e : sameCursor e (die e).
Proof.
  unfold die, stop, fire. cbv zeta.
  eapply sameCursor_trans with (e2 := set_health 0 (set_isAlive false e));
    [split; reflexivity |].
  eapply sameCursor_trans; [apply (sameCursor_setState DEAD) |].
  split; reflexivity.
Qed.

Lemma sameCursor_struck amount source e :
  sameCursor e (struck amount source e).
Proof. unfold struck. destruct (gtb _ 0); split; reflexivity. Qed.

Lemma sameCursor_takeDamage amount source e :
  sameCursor e (takeDamage amount source e).
Proof.
  apply takeDamage_closure.
  - apply sameCursor_refl.
  - apply sameCursor_trans.
  - apply sameCursor_setState.
  - apply sameCursor_die.
  - apply sameCursor_struck.
  - intros c e0. split; reflexivity.
Qed.

Lemma onCycle_sameCursor e e' : sameCursor e e' -> onCycle e -> onCycle e'.
Proof. intros [Hp Hi]. unfold onCycle. rewrite Hp, Hi. trivial. Qed.

Lemma sameCursor_chase dt g :
  sameCursor (GruntAI.base g) (GruntAI.base (GruntAI.chase dt g)).
Proof.
  unfold GruntAI.chase. destruct (target (GruntAI.base g));
    [| apply sameCursor_refl].
  split; reflexivity.
Qed.

Lemma performAttack_base g :
  GruntAI.base (GruntAI.performAttack g) = GruntAI.base g.
Proof.
  unfold GruntAI.performAttack.
  destruct (target (GruntAI.base g)); [| reflexivity].
  destruct (negb _); [reflexivity |].
  destruct (gtb _ _); [reflexivity |].
  cbn. destruct (_ && _); reflexivity.
Qed.

Lemma sameCursor_attack dt now g :
  sameCursor (GruntAI.base g) (GruntAI.base (GruntAI.attack dt now g)).
Proof.
  unfold GruntAI.attack. cbv zeta.
  eapply sameCursor_trans with
    (e2 := GruntAI.base (GruntAI.on_base (setState ATTACK) g));
    [apply sameCursor_setState |].
  destruct (gtb _ _); [| apply sameCursor_refl].
  cbn [GruntAI.base GruntAI.on_base GruntAI.set_base].
  rewrite performAttack_base. split; reflexivity.
Qed.

Lemma sameCursor_executeGruntAI dt now g :
  sameCursor (GruntAI.base g) (GruntAI.base (GruntAI.executeGruntAI dt now g)).
Proof.
  unfold GruntAI.executeGruntAI. cbv zeta.
  destruct (inf_ltb _ _).
  { eapply sameCursor_trans; [| apply sameCursor_attack].
    apply sameCursor_setState. }
  destruct (inf_gtb _ _).
  { eapply sameCursor_trans; [| apply sameCursor_chase].
    apply sameCursor_setState. }
  destruct (inf_ltb _ _).
  - eapply sameCursor_trans; [| apply sameCursor_attack].
    eapply sameCursor_trans; [| apply sameCursor_chase].
    apply sameCursor_setState.
  - eapply sameCursor_trans; [| apply sameCursor_chase].
    apply sameCursor_setState.
Qed.

(** One patrol step of a grunt whose cursor is on its route. *)
Lemma executePatrol_onCycle dt g :
  onCycle (GruntAI.base g) ->
  exists g',
    GruntAI.executePatrol dt g = SoldierAI.Returned g'
    /\ patrolPoints (GruntAI.base g') = patrolPoints (GruntAI.base g)
    /\ onCycle (GruntAI.base g')
    /\ GruntAI.isEnraged g' = GruntAI.isEnraged g
    /\ GruntAI.console g' = GruntAI.console g
    /\ GruntAI.screechCooldown g' = GruntAI.screechCooldown g.
Proof.
  intros Hc. unfold GruntAI.executePatrol. cbv zeta.
  set (g1 := GruntAI.on_base (setState PATROL) g).
  assert (H1 : sameCursor (GruntAI.base g) (GruntAI.base g1))
    by apply sameCursor_setState.
  pose proof (onCycle_sameCursor _ _ H1 Hc) as Hc1.
  destruct H1 as [Hp1 Hi1].
  destruct (patrolPoints (GruntAI.base g1)) as [| x l] eqn:El.
  { exists g1. repeat split; try assumption. congruence. }
  destruct Hc1 as [Hnil | Hin]; [congruence |].
  unfold GruntAI.patrolPointAt.
  destruct (Z.ltb_spec (currentPatrolIndex (GruntAI.base g1)) 0); [lia |].
  destruct (nth_error (patrolPoints (GruntAI.base g1))
              (Z.to_nat (currentPatrolIndex (GruntAI.base g1))))
    as [p |] eqn:En;
    [| apply nth_error_None in En; lia].
  destruct (ltb _ 1).
  - eexists. split; [reflexivity |].
    cbn [GruntAI.base GruntAI.on_base GruntAI.set_base GruntAI.isEnraged
         GruntAI.console GruntAI.screechCooldown patrolPoints
         set_currentPatrolIndex currentPatrolIndex].
    split; [congruence |]. split; [| repeat split].
    right. cbn [patrolPoints set_currentPatrolIndex currentPatrolIndex].
    rewrite El in *.
    pose proof (Z.rem_bound_pos (currentPatrolIndex (GruntAI.base g1) + 1)
                  (Z.of_nat (List.length (x :: l)))) as Hb.
    apply Hb; lia.
  - eexists. split; [reflexivity |].
    cbn [GruntAI.base GruntAI.on_base GruntAI.set_base GruntAI.isEnraged
         GruntAI.console GruntAI.screechCooldown].
    unfold onCycle, GruntAI.turn, GruntAI.push.
    cbn [patrolPoints set_rotation set_velocity currentPatrolIndex].
    split; [congruence |]. split; [| repeat split].
    right. exact Hin.
Qed.

Lemma grunt_update_onCycle dt now g :
  onCycle (GruntAI.base g) ->
  exists g',
    GruntAI.update dt now g = SoldierAI.Returned g'
    /\ patrolPoints (GruntAI.base g') = patrolPoints (GruntAI.base g)
    /\ onCycle (GruntAI.base g').
Proof.
  intros Hc. unfold GruntAI.update.
  destruct (negb (isAlive (GruntAI.base g)));
    [exists g; repeat split; assumption |].
  destruct (isStunned (GruntAI.base g)).
  { eexists. split; [reflexivity |].
    pose proof (sameCursor_updateStun dt (GruntAI.base g)) as Hs.
    split; [apply Hs | apply (onCycle_sameCursor _ _ Hs Hc)]. }
  set (g1 := if gtb (GruntAI.screechCooldown g) 0
             then GruntAI.set_screechCooldown
                    (GruntAI.screechCooldown g - dt) g
             else g).
  assert (B1 : GruntAI.base g1 = GruntAI.base g)
    by (subst g1; destruct (gtb _ 0); reflexivity).
  set (g2 := if negb (GruntAI.isEnraged g1)
                && ltb (health (GruntAI.base g1))
                     (maxHealth (GruntAI.base g1) * (3#10))
             then GruntAI.enterEnraged g1 else g1).
  assert (B2 : GruntAI.base g2 = GruntAI.base g)
    by (subst g2; destruct (_ && _); exact B1).
  set (g3 := GruntAI.on_base (updatePerception dt now) g2).
  assert (H3 : sameCursor (GruntAI.base g) (GruntAI.base g3)).
  { subst g3. cbn. rewrite B2. apply sameCursor_updatePerception. }
  pose proof (onCycle_sameCursor _ _ H3 Hc) as Hc3.
  destruct (match target (GruntAI.base g3) with
            | Some _ => true
            | None => false
            end && hasLineOfSight (perception (GruntAI.base g3))).
  - eexists. split; [reflexivity |].
    assert (H4 : sameCursor (GruntAI.base g)
                   (GruntAI.base
                      (GruntAI.on_base (applyMovement dt)
                         (GruntAI.executeGruntAI dt now g3)))).
    { eapply sameCursor_trans; [exact H3 |].
      eapply sameCursor_trans; [apply sameCursor_executeGruntAI |].
      apply sameCursor_applyMovement. }
    split; [apply H4 | apply (onCycle_sameCursor _ _ H4 Hc)].
  - destruct (patrolPoints (GruntAI.base g3)) eqn:El.
    + eexists. split; [reflexivity |].
      assert (H4 : sameCursor (GruntAI.base g)
                     (GruntAI.base
                        (GruntAI.on_base (applyMovement dt)
                           (GruntAI.on_base (setState IDLE) g3)))).
      { eapply sameCursor_trans; [exact H3 |].
        eapply sameCursor_trans; [apply (sameCursor_setState IDLE) |].
        apply sameCursor_applyMovement. }
      split; [apply H4 | apply (onCycle_sameCursor _ _ H4 Hc)].
    + destruct (executePatrol_onCycle dt g3 Hc3) as (g4 & E & Hp & Hc4 & _).
      rewrite E. eexists. split; [reflexivity |].
      pose proof (sameCursor_applyMovement dt (GruntAI.base g4)) as H5.
      split.
      * cbn. destruct H5 as [H5 _]. rewrite H5, Hp. apply H3.
      * apply (onCycle_sameCursor _ _ H5 Hc4).
Qed.

(** X24.  A grunt on patrol goes round its route and never falls off
    it.  If the patrol cursor is an index of the patrol points (or there
    are none), then every sequence of [takeDamage], [update], [stun] and
    [die] calls returns without throwing, with the same patrol points and
    the cursor still an index.  A patrol step within 1 unit of the
    current point moves the cursor to the next point, and from the last
    point to the first. *)
Theorem grunt_patrol_goes_round_and_never_throws :
  forall (cs : list GruntCall) (g : GruntAI.Grunt),
    onCycle (GruntAI.base g) ->
    (exists g',
       gruntRun cs g = SoldierAI.Returned g'
       /\ patrolPoints (GruntAI.base g') = patrolPoints (GruntAI.base g)
       /\ onCycle (GruntAI.base g'))
    /\ forall dt p,
         GruntAI.patrolPointAt (GruntAI.base g) = Some p ->
         ltb (v3_distanceTo (position (GruntAI.base g)) p) 1 = true ->
         exists g',
           GruntAI.executePatrol dt g = SoldierAI.Returned g'
           /\ currentPatrolIndex (GruntAI.base g')
              = (if (currentPatrolIndex (GruntAI.base g) + 1
                     =? Z.of_nat (List.length (patrolPoints (GruntAI.base g))))%Z
                 then 0
                 else currentPatrolIndex (GruntAI.base g) + 1)%Z.
Proof.
  intros cs g Hc. split.
  - revert g Hc. induction cs as [| c cs IH]; intros g Hc.
    + exists g. repeat split; assumption.
    + cbn [gruntRun].
      assert (Hstep : exists g1,
                gruntCall c g = SoldierAI.Returned g1
                /\ patrolPoints (GruntAI.base g1)
                   = patrolPoints (GruntAI.base g)
                /\ onCycle (GruntAI.base g1)).
      { destruct c as [amount source | dt now | d |]; cbn [gruntCall].
        - eexists. split; [reflexivity |].
          pose proof (sameCursor_takeDamage amount source (GruntAI.base g))
            as Hs.
          split; [apply Hs | apply (onCycle_sameCursor _ _ Hs Hc)].
        - apply grunt_update_onCycle, Hc.
        - eexists. split; [reflexivity |].
          pose proof (sameCursor_stun d (GruntAI.base g)) as Hs.
          split; [apply Hs | apply (onCycle_sameCursor _ _ Hs Hc)].
        - eexists. split; [reflexivity |].
          pose proof (sameCursor_die (GruntAI.base g)) as Hs.
          split; [apply Hs | apply (onCycle_sameCursor _ _ Hs Hc)]. }
      destruct Hstep as (g1 & E & Hp & Hc1). rewrite E.
      destruct (IH g1 Hc1) as (g' & E' & Hp' & Hc').
      exists g'. split; [exact E' |]. split; [congruence | exact Hc'].
  - intros dt p Hp Hd. unfold GruntAI.executePatrol. cbv zeta.
    set (g1 := GruntAI.on_base (setState PATROL) g).
    assert (H1 : sameCursor (GruntAI.base g) (GruntAI.base g1))
      by apply sameCursor_setState.
    destruct H1 as [Hp1 Hi1].
    assert (Hpos : position (GruntAI.base g1) = position (GruntAI.base g))
      by apply setState_position.
    assert (Hat : GruntAI.patrolPointAt (GruntAI.base g1) = Some p).
    { unfold GruntAI.patrolPointAt in *. rewrite Hp1, Hi1. exact Hp. }
    assert (Hin : (0 <= currentPatrolIndex (GruntAI.base g)
                   < Z.of_nat (List.length (patrolPoints (GruntAI.base g))))%Z).
    { unfold GruntAI.patrolPointAt in Hp.
      destruct (Z.ltb_spec (currentPatrolIndex (GruntAI.base g)) 0);
        [discriminate |].
      assert (Hn : nth_error (patrolPoints (GruntAI.base g))
                     (Z.to_nat (currentPatrolIndex (GruntAI.base g)))
                   <> None) by congruence.
      apply nth_error_Some in Hn. lia. }
    destruct (patrolPoints (GruntAI.base g1)) as [| x l] eqn:El.
    { rewrite <- Hp1 in Hin. cbn in Hin. lia. }
    rewrite Hat, Hpos, Hd. eexists. split; [reflexivity |].
    cbn [GruntAI.base GruntAI.on_base GruntAI.set_base
         set_currentPatrolIndex currentPatrolIndex].
    rewrite El, Hi1. rewrite <- Hp1. rewrite <- Hp1 in Hin.
    destruct (Z.eqb_spec (currentPatrolIndex (GruntAI.base g) + 1)
                (Z.of_nat (List.length (x :: l)))) as [E | E].
    + rewrite E. apply Z.rem_same. lia.
    + apply Z.rem_small. lia.
Qed.

End GruntPatrol.

(** X24 on a grunt with two patrol points, ticked three times. *)
Lemma grunt_patrol_goes_round_and_never_throws_witness :
  exists g',
    GruntShape.gruntRun (rt := taxicab)
      [GruntShape.GruntUpdate (1/60) 0; GruntShape.GruntUpdate (1/60) 16;
       GruntShape.GruntUpdate (1/60) 33]
      GruntSamples.patrollingGrunt
    = SoldierAI.Returned g'
    /\ patrolPoints (GruntAI.base g')
       = patrolPoints (GruntAI.base GruntSamples.patrollingGrunt)
    /\ GruntShape.onCycle (GruntAI.base g').
Proof.
  apply (proj1 (grunt_patrol_goes_round_and_never_throws (rt := taxicab)
                  [GruntShape.GruntUpdate (1/60) 0;
                   GruntShape.GruntUpdate (1/60) 16;
                   GruntShape.GruntUpdate (1/60) 33]
                  GruntSamples.patrollingGrunt
                  ltac:(right; cbn; lia))).
Defined.

(** ** The grunt: enrage *)

Section GruntEnrage.

Import GruntShape.

Context {rt : Runtime}.

Lemma sameMood_refl g : sameMood g g.
Proof. split; reflexivity. Qed.

Lemma sameMood_trans g1 g2 g3 : sameMood g1 g2 -> sameMood g2 g3 -> sameMood g1 g3.
Proof. intros [A1 A2] [B1 B2]. split; congruence. Qed.

Lemma sameMood_on_base f g : sameMood g (GruntAI.on_base f g).
Proof. split; reflexivity. Qed.

Lemma sameMood_performAttack g : sameMood g (GruntAI.performAttack g).
Proof.
  unfold GruntAI.performAttack.
  destruct (target (GruntAI.base g)); [| apply sameMood_refl].
  destruct (negb _); [apply sameMood_refl |].
  destruct (gtb _ _); [apply sameMood_refl |].
  cbn. destruct (_ && _); split; reflexivity.
Qed.

Lemma sameMood_attack dt now g : sameMood g (GruntAI.attack dt now g).
Proof.
  unfold GruntAI.attack. cbv zeta.
  eapply sameMood_trans; [apply (sameMood_on_base (setState ATTACK)) |].
  destruct (gtb _ _); [| apply sameMood_refl].
  eapply sameMood_trans; [apply sameMood_performAttack |].
  apply sameMood_on_base.
Qed.

Lemma sameMood_chase dt g : sameMood g (GruntAI.chase dt g).
Proof.
  unfold GruntAI.chase.
  destruct (target (GruntAI.base g)); [| apply sameMood_refl].
  split; reflexivity.
Qed.

Lemma sameMood_executeGruntAI dt now g :
  sameMood g (GruntAI.executeGruntAI dt now g).
Proof.
  unfold GruntAI.executeGruntAI. cbv zeta.
  destruct (inf_ltb _ _).
  { eapply sameMood_trans; [| apply sameMood_attack]. apply sameMood_on_base. }
  destruct (inf_gtb _ _).
  { eapply sameMood_trans; [| apply sameMood_chase]. apply sameMood_on_base. }
  destruct (inf_ltb _ _).
  - eapply sameMood_trans; [| apply sameMood_attack].
    eapply sameMood_trans; [| apply sameMood_chase]. apply sameMood_on_base.
  - eapply sameMood_trans; [| apply sameMood_chase]. apply sameMood_on_base.
Qed.

Lemma sameMood_executePatrol dt g :
  sameMood g (SoldierAI.stateOf (GruntAI.executePatrol dt g)).
Proof.
  unfold GruntAI.executePatrol. cbv zeta.
  destruct (patrolPoints _); [apply sameMood_on_base |].
  destruct (GruntAI.patrolPointAt _); [| apply sameMood_on_base].
  destruct (ltb _ 1); split; reflexivity.
Qed.

(** What one tick does to the mood of a living grunt that is not
    stunned: it enrages a grunt that is not enraged and is below 30% of
    its health. *)
Lemma grunt_update_mood dt now g :
  isAlive (GruntAI.base g) = true -> isStunned (GruntAI.base g) = false ->
  GruntAI.isEnraged (SoldierAI.stateOf (GruntAI.update dt now g))
  = GruntAI.isEnraged g
    || ltb (health (GruntAI.base g)) (maxHealth (GruntAI.base g) * (3#10))
  /\ enragedCount (GruntAI.console (SoldierAI.stateOf (GruntAI.update dt now g)))
     = (enragedCount (GruntAI.console g)
        + if negb (GruntAI.isEnraged g)
             && ltb (health (GruntAI.base g))
                  (maxHealth (GruntAI.base g) * (3#10))
          then 1 else 0)%nat.
Proof.
  intros Ha Hs. unfold GruntAI.update. rewrite Ha, Hs. cbn [negb].
  set (g1 := if gtb (GruntAI.screechCooldown g) 0
             then GruntAI.set_screechCooldown
                    (GruntAI.screechCooldown g - dt) g
             else g).
  assert (H1 : GruntAI.base g1 = GruntAI.base g
               /\ GruntAI.isEnraged g1 = GruntAI.isEnraged g
               /\ GruntAI.console g1 = GruntAI.console g)
    by (subst g1; destruct (gtb _ 0); repeat split).
  destruct H1 as (B1 & E1 & C1). rewrite B1, E1.
  set (low := ltb (health (GruntAI.base g))
                (maxHealth (GruntAI.base g) * (3#10))).
  set (g2 := if negb (GruntAI.isEnraged g) && low
             then GruntAI.enterEnraged g1 else g1).
  assert (H2 : GruntAI.isEnraged g2 = GruntAI.isEnraged g || low
               /\ enragedCount (GruntAI.console g2)
                  = (enragedCount (GruntAI.console g)
                     + if negb (GruntAI.isEnraged g) && low then 1 else 0)%nat).
  { subst g2. destruct (GruntAI.isEnraged g) eqn:Ee; cbn [negb andb orb].
    - rewrite E1, C1. split; [reflexivity | lia].
    - destruct low; cbn.
      + rewrite C1. split; [reflexivity | lia].
      + rewrite E1, C1. split; [reflexivity | lia]. }
  destruct H2 as [H2a H2b]. rewrite <- H2a, <- H2b.
  set (g3 := GruntAI.on_base (updatePerception dt now) g2).
  assert (H3 : sameMood g2 g3) by apply sameMood_on_base.
  assert (Hend : sameMood g2
            (SoldierAI.stateOf
               (if match target (GruntAI.base g3) with
                   | Some _ => true
                   | None => false
                   end && hasLineOfSight (perception (GruntAI.base g3))
                then SoldierAI.Returned
                       (GruntAI.on_base (applyMovement dt)
                          (GruntAI.executeGruntAI dt now g3))
                else match patrolPoints (GruntAI.base g3) with
                     | [] => SoldierAI.Returned
                               (GruntAI.on_base (applyMovement dt)
                                  (GruntAI.on_base (setState IDLE) g3))
                     | _ :: _ =>
                         match GruntAI.executePatrol dt g3 with
                         | SoldierAI.Returned g0 =>
                             SoldierAI.Returned
                               (GruntAI.on_base (applyMovement dt) g0)
                         | SoldierAI.Threw g0 => SoldierAI.Threw g0
                         end
                     end))).
  { eapply sameMood_trans; [exact H3 |].
    destruct (_ && hasLineOfSight _).
    - cbn [SoldierAI.stateOf].
      eapply sameMood_trans; [apply sameMood_executeGruntAI |].
      apply sameMood_on_base.
    - destruct (patrolPoints (GruntAI.base g3)).
      + cbn [SoldierAI.stateOf].
        eapply sameMood_trans; [apply (sameMood_on_base (setState IDLE)) |].
        apply sameMood_on_base.
      + pose proof (sameMood_executePatrol dt g3) as Hp.
        destruct (GruntAI.executePatrol dt g3); cbn [SoldierAI.stateOf] in *;
          [eapply sameMood_trans; [exact Hp | apply sameMood_on_base]
          | exact Hp]. }
  exact Hend.
Qed.

Lemma grunt_update_idle dt now g :
  isAlive (GruntAI.base g) = false \/ isStunned (GruntAI.base g) = true ->
  sameMood g (SoldierAI.stateOf (GruntAI.update dt now g)).
Proof.
  intros H. unfold GruntAI.update.
  destruct (isAlive (GruntAI.base g)); cbn [negb];
    [| apply sameMood_refl].
  destruct H as [H | H]; [discriminate |]. rewrite H.
  apply sameMood_on_base.
Qed.

Lemma enraged_grunt_stays c g :
  GruntAI.isEnraged g = true ->
  GruntAI.isEnraged (SoldierAI.stateOf (gruntCall c g)) = true.
Proof.
  intros He.
  destruct c as [amount source | dt now | d |]; cbn [gruntCall];
    try exact He.
  destruct (isAlive (GruntAI.base g)) eqn:Ha.
  - destruct (isStunned (GruntAI.base g)) eqn:Hs.
    + destruct (grunt_update_idle dt now g (or_intror Hs)) as [H _].
      rewrite H. exact He.
    + destruct (grunt_update_mood dt now g Ha Hs) as [H _].
      rewrite H, He. reflexivity.
  - destruct (grunt_update_idle dt now g (or_introl Ha)) as [H _].
    rewrite H. exact He.
Qed.

Lemma grunt_mood_call c g :
  enragedCount (GruntAI.console g)
  = (if GruntAI.isEnraged g then 1 else 0)%nat ->
  enragedCount (GruntAI.console (SoldierAI.stateOf (gruntCall c g)))
  = (if GruntAI.isEnraged (SoldierAI.stateOf (gruntCall c g))
     then 1 else 0)%nat.
Proof.
  intros HJ.
  destruct c as [amount source | dt now | d |]; cbn [gruntCall];
    try exact HJ.
  destruct (isAlive (GruntAI.base g)) eqn:Ha.
  - destruct (isStunned (GruntAI.base g)) eqn:Hs.
    + destruct (grunt_update_idle dt now g (or_intror Hs)) as [H1 H2].
      rewrite H1, H2. exact HJ.
    + destruct (grunt_update_mood dt now g Ha Hs) as [H1 H2].
      rewrite H1, H2, HJ.
      destruct (GruntAI.isEnraged g); cbn; [reflexivity |].
      destruct (ltb _ _); reflexivity.
  - destruct (grunt_update_idle dt now g (or_introl Ha)) as [H1 H2].
    rewrite H1, H2. exact HJ.
Qed.

(** X25.  A grunt becomes enraged on a tick and stays so.  [takeDamage]
    alone never enrages; a tick of a living grunt that is not stunned
    enrages it when its health is below 30% of maxHealth, and the tick of
    a dead or stunned grunt does not, so a grunt killed by the hit that
    took it below 30% never enrages.  No call ends the enrage, and over
    any run of calls on a freshly built grunt the notice of enrage has
    been written once if the grunt is enraged and never otherwise. *)
Theorem grunt_enrages_on_a_tick_and_stays_enraged :
  forall (g : GruntAI.Grunt),
    (forall amount source,
       GruntAI.isEnraged (GruntAI.takeDamage amount source g)
       = GruntAI.isEnraged g)
    /\ (forall dt now,
          isAlive (GruntAI.base g) = true ->
          isStunned (GruntAI.base g) = false ->
          GruntAI.isEnraged (SoldierAI.stateOf (GruntAI.update dt now g))
          = GruntAI.isEnraged g
            || ltb (health (GruntAI.base g))
                 (maxHealth (GruntAI.base g) * (3#10)))
    /\ (forall dt now,
          isAlive (GruntAI.base g) = false
          \/ isStunned (GruntAI.base g) = true ->
          GruntAI.isEnraged (SoldierAI.stateOf (GruntAI.update dt now g))
          = GruntAI.isEnraged g)
    /\ (forall c,
          GruntAI.isEnraged g = true ->
          GruntAI.isEnraged (SoldierAI.stateOf (gruntCall c g)) = true)
    /\ (forall cs id name position,
          let g' := SoldierAI.stateOf
                      (gruntRun cs (GruntAI.new id name position)) in
          enragedCount (GruntAI.console g')
          = (if GruntAI.isEnraged g' then 1 else 0)%nat).
Proof.
  intros g. split; [reflexivity |].
  split; [intros dt now Ha Hs; apply (grunt_update_mood dt now g Ha Hs) |].
  split; [intros dt now H; apply (grunt_update_idle dt now g H) |].
  split; [intros c; apply enraged_grunt_stays |].
  intros cs id name position.
  assert (H0 : enragedCount (GruntAI.console (GruntAI.new id name position))
               = (if GruntAI.isEnraged (GruntAI.new id name position)
                  then 1 else 0)%nat) by reflexivity.
  generalize dependent (GruntAI.new id name position).
  induction cs as [| c cs IH]; intros g0 H0; [exact H0 |].
  cbn [gruntRun].
  pose proof (grunt_mood_call c g0 H0) as H1.
  destruct (gruntCall c g0) as [g1 | g1]; cbn [SoldierAI.stateOf] in *.
  - apply IH, H1.
  - exact H1.
Qed.

End GruntEnrage.

(** X25 on a grunt hit below 30% of its health and then ticked. *)
Lemma grunt_enrages_on_a_tick_and_stays_enraged_witness :
  GruntAI.isEnraged
    (SoldierAI.stateOf
       (GruntAI.update (rt := taxicab) (1/60) 0
          (GruntAI.takeDamage (rt := taxicab) 40 None
             (GruntAI.new (rt := taxicab) "g1" "Mutant" None))))
  = true.
Proof.
  apply (eq_trans
           (proj1 (proj2 (grunt_enrages_on_a_tick_and_stays_enraged
                            (rt := taxicab)
                            (GruntAI.takeDamage (rt := taxicab) 40 None
                               (GruntAI.new (rt := taxicab) "g1" "Mutant"
                                  None))))
              (1/60) 0 eq_refl eq_refl)).
  reflexivity.
Defined.

(** ** The grunt: attack *)

Section GruntAttack.

Import GruntShape.

Context {rt : Runtime}.

Lemma setState_target s e : target (setState s e) = target e.
Proof. through_setState. Qed.

Lemma inReach_setState s g :
  inReach (GruntAI.on_base (setState s) g) = inReach g.
Proof.
  unfold inReach. cbn [GruntAI.base GruntAI.on_base GruntAI.set_base].
  rewrite setState_target, setState_isAlive, setState_position,
    setState_movementConfig.
  reflexivity.
Qed.

Lemma performAttack_hit g :
  inReach g = true ->
  GruntAI.performAttack g
  = (if GruntAI.isEnraged g && leb (GruntAI.screechCooldown g) 0
     then GruntAI.screech
     else fun x => x)
      (GruntAI.say (GruntAI.ScratchLine (damage (GruntAI.base g))) g).
Proof.
  unfold inReach, GruntAI.performAttack.
  destruct (target (GruntAI.base g)); [| discriminate].
  destruct (isAlive (GruntAI.base g)); cbn [andb negb]; [| discriminate].
  destruct (gtb _ _); cbn [negb]; [discriminate |]. intros _.
  cbn. destruct (_ && _); reflexivity.
Qed.

Lemma performAttack_miss g :
  inReach g = false -> GruntAI.performAttack g = g.
Proof.
  unfold inReach, GruntAI.performAttack.
  destruct (target (GruntAI.base g)); [| reflexivity].
  destruct (isAlive (GruntAI.base g)); cbn [andb negb]; [| reflexivity].
  destruct (gtb _ _); cbn [negb]; [reflexivity | discriminate].
Qed.

(** X26.  A grunt's attack.  [attack] sets the state to Attack.  No
    later than the attack interval after the last attack time (1000 ms,
    500 ms when enraged) it does nothing else.  Later than that it sets
    the last attack time to now, whether or not it strikes: out of reach
    (dead, no target, or target farther than minDistance + 1) nothing is
    written and the interval starts again; in reach one scratch is
    written, with the grunt's damage, and with it one screech, setting
    the screech cooldown to 5, exactly when the grunt is enraged and the
    cooldown has run out. *)
Theorem grunt_attack_waits_strikes_in_reach_and_screeches_enraged :
  forall (dt now : Q) (g : GruntAI.Grunt),
    let g' := GruntAI.attack dt now g in
    state (GruntAI.base g') = ATTACK
    /\ GruntAI.isEnraged g' = GruntAI.isEnraged g
    /\ (now - lastAttackTime (GruntAI.base g) <= attackInterval g ->
        lastAttackTime (GruntAI.base g') = lastAttackTime (GruntAI.base g)
        /\ GruntAI.console g' = GruntAI.console g
        /\ GruntAI.screechCooldown g' = GruntAI.screechCooldown g)
    /\ (attackInterval g < now - lastAttackTime (GruntAI.base g) ->
        lastAttackTime (GruntAI.base g') = now
        /\ (inReach g = false ->
            GruntAI.console g' = GruntAI.console g
            /\ GruntAI.screechCooldown g' = GruntAI.screechCooldown g)
        /\ (inReach g = true ->
            if GruntAI.isEnraged g && leb (GruntAI.screechCooldown g) 0
            then GruntAI.console g'
                 = GruntAI.ScreechLine
                     :: GruntAI.ScratchLine (damage (GruntAI.base g))
                     :: GruntAI.console g
                 /\ GruntAI.screechCooldown g' = 5
            else GruntAI.console g'
                 = GruntAI.ScratchLine (damage (GruntAI.base g))
                     :: GruntAI.console g
                 /\ GruntAI.screechCooldown g' = GruntAI.screechCooldown g)).
Proof.
  intros dt now g g'. subst g'. unfold GruntAI.attack. cbv zeta.
  set (g1 := GruntAI.on_base (setState ATTACK) g).
  assert (H1 : state (GruntAI.base g1) = ATTACK
               /\ lastAttackTime (GruntAI.base g1)
                  = lastAttackTime (GruntAI.base g)
               /\ GruntAI.isEnraged g1 = GruntAI.isEnraged g
               /\ GruntAI.console g1 = GruntAI.console g
               /\ GruntAI.screechCooldown g1 = GruntAI.screechCooldown g
               /\ damage (GruntAI.base g1) = damage (GruntAI.base g)
               /\ inReach g1 = inReach g).
  { subst g1. cbn [GruntAI.base GruntAI.on_base GruntAI.set_base
                   GruntAI.isEnraged GruntAI.console GruntAI.screechCooldown].
    split; [apply setState_state |].
    split; [apply setState_lastAttackTime |].
    split; [reflexivity |]. split; [reflexivity |]. split; [reflexivity |].
    split; [apply setState_damage | apply (inReach_setState ATTACK g)]. }
  destruct H1 as (Hst & Hl & He & Hc & Hs & Hd & Hr).
  rewrite Hl, He. fold (attackInterval g).
  destruct (gtb (now - lastAttackTime (GruntAI.base g)) (attackInterval g))
    eqn:Eg; [apply gtb_gt in Eg | apply gtb_le in Eg].
  - cbn [GruntAI.base GruntAI.on_base GruntAI.set_base GruntAI.isEnraged
         GruntAI.console GruntAI.screechCooldown].
    destruct (inReach g) eqn:Er.
    + rewrite (performAttack_hit g1) by (rewrite Hr; reflexivity).
      rewrite He, Hs, Hd.
      destruct (GruntAI.isEnraged g && leb (GruntAI.screechCooldown g) 0);
        cbn; rewrite ?setState_state, ?Hc, ?He, ?Hs;
        (split; [reflexivity |]); (split; [exact He |]);
        (split; [intros Hle; lra |]); intros _;
        (split; [reflexivity |]); (split; [discriminate |]); intros _;
        split; reflexivity.
    + rewrite (performAttack_miss g1) by (rewrite Hr; reflexivity).
      cbn. rewrite ?setState_state.
      split; [reflexivity |]. split; [exact He |].
      split; [intros Hle; lra |]. intros _.
      split; [reflexivity |]. split; [| discriminate].
      intros _. split; assumption.
  - split; [exact Hst |]. split; [exact He |].
    split; [| intros Hlt; lra].
    intros _. repeat split; assumption.
Qed.

End GruntAttack.

(** X26 on a grunt with its target in reach, at 2000 ms. *)
Lemma grunt_attack_waits_strikes_in_reach_and_screeches_enraged_witness :
  lastAttackTime
    (GruntAI.base
       (GruntAI.attack (rt := taxicab) (1/60) 2000
          GruntSamples.gruntWithTarget))
  = 2000.
Proof.
  apply (proj2 (proj2 (proj2
           (grunt_attack_waits_strikes_in_reach_and_screeches_enraged
              (rt := taxicab) (1/60) 2000 GruntSamples.gruntWithTarget)))).
  vm_compute. reflexivity.
Defined.

(** ** The trainer: what its AI leaves alone in the boss *)

Section TrainerFrame.

Import BossShape TrainerShape.

Context {rt : Runtime}.

Lemma still_refl e : still e e.
Proof. split; [apply sameGear_refl | apply quiet_refl]. Qed.

Lemma still_trans e1 e2 e3 : still e1 e2 -> still e2 e3 -> still e1 e3.
Proof.
  intros [A1 A2] [B1 B2].
  split; [eapply sameGear_trans | eapply quiet_trans]; eassumption.
Qed.

Lemma still_plain e e' :
  damage e' = damage e -> movementConfig e' = movementConfig e ->
  log e' = log e -> still e e'.
Proof. intros Hd Hm Hl. split; [split; assumption | apply quiet_same, Hl]. Qed.

Lemma still_setState s e : still e (setState s e).
Proof. split; [apply sameGear_setState | apply quiet_setState]. Qed.

Lemma still_turnAndMove direction speed e :
  still e (SoldierAI.turnAndMove direction speed e).
Proof. apply still_plain; reflexivity. Qed.

Lemma still_turn direction dt e : still e (GruntAI.turn direction dt e).
Proof. apply still_plain; reflexivity. Qed.

Lemma still_push direction speed e : still e (GruntAI.push direction speed e).
Proof. apply still_plain; reflexivity. Qed.

Lemma still_updatePerception dt now e : still e (updatePerception dt now e).
Proof.
  split; [apply sameGear_updatePerception | apply quiet_updatePerception].
Qed.

Lemma still_applyMovement dt e : still e (applyMovement dt e).
Proof. split; [apply sameGear_applyMovement | apply quiet_applyMovement]. Qed.

Lemma still_updateStun dt e : still e (updateStun dt e).
Proof. split; [apply sameGear_updateStun | apply quiet_updateStun]. Qed.

Lemma still_setTarget tg now e : still e (setTarget tg now e).
Proof. unfold setTarget. destruct tg; apply still_plain; reflexivity. Qed.

Lemma stillBoss_refl b : stillBoss b b.
Proof. repeat split; try reflexivity. apply quiet_refl. Qed.

Lemma stillBoss_trans b1 b2 b3 :
  stillBoss b1 b2 -> stillBoss b2 b3 -> stillBoss b1 b3.
Proof.
  intros (A1 & A2 & A3 & A4 & A5 & A6 & A7) (B1 & B2 & B3 & B4 & B5 & B6 & B7).
  repeat split; try congruence; eapply still_trans; eassumption.
Qed.

Lemma stillBoss_on_entity f t :
  still (TrainerAI.entity t) (f (TrainerAI.entity t)) ->
  stillBoss (TrainerAI.boss t) (TrainerAI.boss (TrainerAI.on_entity f t)).
Proof. intros H. repeat split; apply H. Qed.

Lemma stillBoss_same t t' :
  TrainerAI.boss t' = TrainerAI.boss t ->
  stillBoss (TrainerAI.boss t) (TrainerAI.boss t').
Proof. intros ->. apply stillBoss_refl. Qed.

Lemma stillBoss_sameTuning b b' : stillBoss b b' -> sameTuning b b'.
Proof.
  intros (A1 & A2 & A3 & A4 & A5 & A6 & A7 & A8).
  repeat split; try assumption; apply A7.
Qed.

Lemma stillBoss_specialKept b b' : stillBoss b b' -> specialKept b b'.
Proof.
  intros (A1 & A2 & A3 & A4 & A5 & A6 & A7 & A8).
  repeat split; try assumption. apply quiet_specialAttackCount, A8.
Qed.

Lemma moveTowardPlayer_still speed t :
  stillBoss (TrainerAI.boss t)
    (TrainerAI.boss (TrainerAI.moveTowardPlayer speed t)).
Proof.
  unfold TrainerAI.moveTowardPlayer.
  destruct (target (TrainerAI.entity t)); [| apply stillBoss_refl].
  destruct (gtb _ _); [| apply stillBoss_refl].
  apply stillBoss_on_entity, still_turnAndMove.
Qed.

Lemma retreatFromPlayer_still t :
  stillBoss (TrainerAI.boss t) (TrainerAI.boss (TrainerAI.retreatFromPlayer t)).
Proof.
  unfold TrainerAI.retreatFromPlayer.
  destruct (target (TrainerAI.entity t)); [| apply stillBoss_refl].
  apply stillBoss_on_entity, still_turnAndMove.
Qed.

Lemma tacticalMovement_still dt t :
  stillBoss (TrainerAI.boss t)
    (TrainerAI.boss (TrainerAI.tacticalMovement dt t)).
Proof.
  unfold TrainerAI.tacticalMovement.
  destruct (target (TrainerAI.entity t)); [| apply stillBoss_refl].
  unfold TrainerAI.random. cbv beta iota zeta.
  eapply stillBoss_trans; [| apply stillBoss_on_entity, still_push].
  eapply stillBoss_trans; [| apply stillBoss_on_entity, still_turn].
  apply stillBoss_same. reflexivity.
Qed.

Lemma performIdleDemonstration_boss dt t :
  TrainerAI.boss (TrainerAI.performIdleDemonstration dt t) = TrainerAI.boss t.
Proof.
  unfold TrainerAI.performIdleDemonstration. destruct (leb _ 0); reflexivity.
Qed.

Lemma performAttack_boss t :
  TrainerAI.boss (TrainerAI.performAttack t) = TrainerAI.boss t.
Proof.
  unfold TrainerAI.performAttack.
  destruct (target (TrainerAI.entity t)); [| reflexivity].
  destruct (negb _); [reflexivity |].
  destruct (gtb _ _); reflexivity.
Qed.

Lemma comboAttack_boss t :
  TrainerAI.boss (TrainerAI.comboAttack t) = TrainerAI.boss t.
Proof. unfold TrainerAI.comboAttack. cbn. apply performAttack_boss. Qed.

Lemma tickComboWindow_boss dt t :
  TrainerAI.boss (TrainerAI.tickComboWindow dt t) = TrainerAI.boss t.
Proof.
  unfold TrainerAI.tickComboWindow. destruct (gtb _ 0); [| reflexivity].
  cbn. destruct (leb _ 0); reflexivity.
Qed.

Lemma tickFlashbangCooldown_boss dt t :
  TrainerAI.boss (TrainerAI.tickFlashbangCooldown dt t) = TrainerAI.boss t.
Proof.
  unfold TrainerAI.tickFlashbangCooldown. destruct (gtb _ 0); reflexivity.
Qed.

Lemma tickAnimationTimer_boss dt t :
  TrainerAI.boss (TrainerAI.tickAnimationTimer dt t) = TrainerAI.boss t.
Proof.
  unfold TrainerAI.tickAnimationTimer. destruct (gtb _ 0); reflexivity.
Qed.

Lemma executeTrainingAI_still dt t :
  stillBoss (TrainerAI.boss t)
    (TrainerAI.boss (TrainerAI.executeTrainingAI dt t)).
Proof.
  unfold TrainerAI.executeTrainingAI. cbv zeta.
  generalize (TrainerAI.set_teachingTimer (TrainerAI.teachingTimer t - dt) t)
    (eq_refl : TrainerAI.boss
                 (TrainerAI.set_teachingTimer
                    (TrainerAI.teachingTimer t - dt) t)
               = TrainerAI.boss t).
  intros t1 B1. rewrite <- B1.
  destruct (inf_gtb _ _).
  { eapply stillBoss_trans; [| apply moveTowardPlayer_still].
    apply stillBoss_on_entity, still_setState. }
  destruct (inf_ltb _ _).
  { eapply stillBoss_trans; [| apply retreatFromPlayer_still].
    apply stillBoss_on_entity, still_setState. }
  rewrite performIdleDemonstration_boss.
  apply stillBoss_on_entity, still_setState.
Qed.

(** The combat AI leaves the boss [stillBoss], unless it starts the
    special attack, which it does only when enraged, and then it is
    [enrage_burst] and the tuning is as it was. *)
Lemma executeCombatAI_still dt t :
  Boss.isPerformingSpecial (TrainerAI.boss t) = false ->
  stillBoss (TrainerAI.boss t)
    (TrainerAI.boss (TrainerAI.executeCombatAI dt t))
  \/ (Boss.isEnraged (TrainerAI.boss t) = true
      /\ Boss.isPerformingSpecial
           (TrainerAI.boss (TrainerAI.executeCombatAI dt t)) = true
      /\ Boss.currentSpecialAttack
           (TrainerAI.boss (TrainerAI.executeCombatAI dt t))
         = Some "enrage_burst"%string
      /\ sameTuning (TrainerAI.boss t)
           (TrainerAI.boss (TrainerAI.executeCombatAI dt t))).
Proof.
  intros Hfree. unfold TrainerAI.executeCombatAI. cbv zeta.
  pose proof (tickComboWindow_boss dt t) as B1.
  pose proof (tickFlashbangCooldown_boss dt (TrainerAI.tickComboWindow dt t))
    as B2.
  rewrite B1 in B2.
  generalize dependent
    (TrainerAI.tickFlashbangCooldown dt (TrainerAI.tickComboWindow dt t)).
  intros t2 B2. rewrite B2.
  destruct (Boss.isEnraged (TrainerAI.boss t)) eqn:Ee.
  - assert (K3 : stillBoss (TrainerAI.boss t)
                   (TrainerAI.boss
                      (TrainerAI.moveTowardPlayer
                         (runSpeed
                            (movementConfig
                               (TrainerAI.entity
                                  (TrainerAI.on_entity (setState CHASE) t2))))
                         (TrainerAI.on_entity (setState CHASE) t2)))).
    { rewrite <- B2.
      eapply stillBoss_trans; [| apply moveTowardPlayer_still].
      apply stillBoss_on_entity, still_setState. }
    generalize dependent
      (TrainerAI.moveTowardPlayer
         (runSpeed
            (movementConfig
               (TrainerAI.entity (TrainerAI.on_entity (setState CHASE) t2))))
         (TrainerAI.on_entity (setState CHASE) t2)).
    intros t3 K3.
    unfold TrainerAI.random. cbv beta iota zeta.
    destruct (ltb _ (2#100)).
    + right. split; [reflexivity |].
      pose proof K3 as (_ & _ & _ & _ & K5 & _).
      cbn [TrainerAI.boss TrainerAI.on_boss TrainerAI.set_boss
           TrainerAI.set_draws].
      unfold Boss.performSpecialAttack. rewrite K5, Hfree.
      cbn. split; [reflexivity |]. split; [reflexivity |].
      destruct (stillBoss_sameTuning _ _ K3) as (T1 & T2 & T3 & T4 & T5 & T6).
      repeat split; assumption.
    + left. exact K3.
  - left. destruct (inf_gtb _ _).
    { rewrite <- B2.
      eapply stillBoss_trans; [| apply moveTowardPlayer_still].
      apply stillBoss_on_entity, still_setState. }
    destruct (inf_ltb _ _).
    { rewrite comboAttack_boss. rewrite <- B2.
      apply stillBoss_on_entity, still_setState. }
    rewrite <- B2.
    eapply stillBoss_trans; [| apply tacticalMovement_still].
    apply stillBoss_on_entity, still_setState.
Qed.

End TrainerFrame.

(** ** The trainer: special attacks *)

Section TrainerSpecial.

Import BossShape TrainerShape.

Context {rt : Runtime}.

(** The trainer's AI starts a special attack only as an enraged boss in
    its combat phase, and then it is [enrage_burst]. *)
Lemma executeBossAI_special dt t :
  Boss.isPerformingSpecial (TrainerAI.boss t) = false ->
  Boss.isPerformingSpecial (TrainerAI.boss (TrainerAI.executeBossAI dt t))
  = true ->
  Boss.currentSpecialAttack (TrainerAI.boss (TrainerAI.executeBossAI dt t))
  = Some "enrage_burst"%string
  /\ Boss.isEnraged (TrainerAI.boss t) = true
  /\ Boss.currentPhaseIndex (TrainerAI.boss t) <> O.
Proof.
  intros Hfree. unfold TrainerAI.executeBossAI. cbv zeta.
  rewrite tickAnimationTimer_boss.
  destruct (Nat.eqb_spec (Boss.currentPhaseIndex (TrainerAI.boss t)) 0)
    as [E0 | E0].
  - destruct (executeTrainingAI_still dt t) as (_ & _ & _ & _ & K & _).
    rewrite K, Hfree. discriminate.
  - destruct (executeCombatAI_still dt t Hfree)
      as [(_ & _ & _ & _ & K & _) | (He & _ & Hn & _)].
    + rewrite K, Hfree. discriminate.
    + intros _. repeat split; assumption.
Qed.

Lemma tickSpecialAttackCooldown_still dt b :
  stillBoss b (TrainerAI.tickSpecialAttackCooldown dt b).
Proof.
  unfold TrainerAI.tickSpecialAttackCooldown.
  destruct (gtb _ 0); [| apply stillBoss_refl].
  repeat split; try reflexivity. apply quiet_refl.
Qed.

(** One tick of a trainer that performs a special attack other than the
    flashbang: its own state is untouched. *)
Lemma update_during_special dt now t attackName :
  Boss.isPerformingSpecial (TrainerAI.boss t) = true ->
  Boss.currentSpecialAttack (TrainerAI.boss t) = Some attackName ->
  attackName <> "flashbang"%string ->
  own (TrainerAI.update dt now t) = own t
  /\ stillBoss (TrainerAI.boss t) (TrainerAI.boss (TrainerAI.update dt now t)).
Proof.
  intros Hs Hn Hne. unfold TrainerAI.update.
  destruct (negb (isAlive (TrainerAI.entity t)));
    [split; [reflexivity | apply stillBoss_refl] |].
  destruct (isStunned (TrainerAI.entity t)).
  { split; [reflexivity |]. apply stillBoss_on_entity, still_updateStun. }
  cbv zeta.
  pose proof (tickSpecialAttackCooldown_still dt (TrainerAI.boss t)) as K1.
  assert (O1 : own (TrainerAI.on_boss (TrainerAI.tickSpecialAttackCooldown dt) t)
               = own t) by reflexivity.
  assert (B1 : TrainerAI.boss
                 (TrainerAI.on_boss (TrainerAI.tickSpecialAttackCooldown dt) t)
               = TrainerAI.tickSpecialAttackCooldown dt (TrainerAI.boss t))
    by reflexivity.
  generalize dependent
    (TrainerAI.on_boss (TrainerAI.tickSpecialAttackCooldown dt) t).
  intros t1 O1 B1. rewrite <- B1 in K1.
  pose proof K1 as (_ & _ & _ & _ & S1 & N1 & _).
  rewrite Hs in S1. rewrite Hn in N1.
  assert (E2 : (if Boss.isPerformingSpecial (TrainerAI.boss t1)
                   && TrainerAI.truthy
                        (Boss.currentSpecialAttack (TrainerAI.boss t1))
                then TrainerAI.updateSpecialAttack dt t1 else t1) = t1).
  { destruct (_ && _); [| reflexivity].
    unfold TrainerAI.updateSpecialAttack. rewrite N1.
    destruct (String.eqb_spec attackName "flashbang"); [contradiction |].
    reflexivity. }
  rewrite E2.
  assert (K3 : stillBoss (TrainerAI.boss t1)
                 (TrainerAI.boss
                    (TrainerAI.on_entity (updatePerception dt now) t1)))
    by apply stillBoss_on_entity, still_updatePerception.
  assert (O3 : own (TrainerAI.on_entity (updatePerception dt now) t1) = own t1)
    by reflexivity.
  generalize dependent (TrainerAI.on_entity (updatePerception dt now) t1).
  intros t3 K3 O3.
  pose proof K3 as (_ & _ & _ & _ & S3 & _).
  rewrite S3, S1. cbn [negb]. split.
  - change (own t3 = own t). congruence.
  - eapply stillBoss_trans; [exact K1 |].
    eapply stillBoss_trans; [exact K3 |].
    apply stillBoss_on_entity, still_applyMovement.
Qed.

(** X27.  A special attack other than the flashbang freezes the trainer
    for good.  The trainer's own AI starts a special attack only when it
    is enraged and in its combat phase, and the attack is
    [enrage_burst]; nothing ends such an attack (only the flashbang is
    ever ended).  From then on, through every sequence of [takeDamage],
    [update], [stun], [die], [performSpecialAttack] and [setTarget]
    calls, the trainer is still performing it and its own state never
    changes again: no AI step, no shot, no combo, no random draw. *)
Theorem trainer_freezes_in_a_special_attack_that_is_not_the_flashbang :
  forall (t : TrainerAI.Trainer) (attackName : string)
         (cs : list TrainerCall),
    (forall dt,
       Boss.isPerformingSpecial (TrainerAI.boss t) = false ->
       Boss.isPerformingSpecial
         (TrainerAI.boss (TrainerAI.executeBossAI dt t)) = true ->
       Boss.currentSpecialAttack
         (TrainerAI.boss (TrainerAI.executeBossAI dt t))
       = Some "enrage_burst"%string
       /\ Boss.isEnraged (TrainerAI.boss t) = true
       /\ Boss.currentPhaseIndex (TrainerAI.boss t) <> O)
    /\ (Boss.isPerformingSpecial (TrainerAI.boss t) = true ->
        Boss.currentSpecialAttack (TrainerAI.boss t) = Some attackName ->
        attackName <> "flashbang"%string ->
        own (trainerRun cs t) = own t
        /\ Boss.isPerformingSpecial (TrainerAI.boss (trainerRun cs t)) = true
        /\ Boss.currentSpecialAttack (TrainerAI.boss (trainerRun cs t))
           = Some attackName).
Proof.
  intros t attackName cs. split; [intros dt; apply executeBossAI_special |].
  revert t. induction cs as [| c cs IH]; intros t Hs Hn Hne;
    [repeat split; assumption |].
  change (trainerRun (c :: cs) t) with (trainerRun cs (trainerCall c t)).
  assert (Hstep : own (trainerCall c t) = own t
                  /\ specialKept (TrainerAI.boss t)
                       (TrainerAI.boss (trainerCall c t))).
  { destruct c as [amount source | dt now | d | | name | tg now];
      cbn [trainerCall];
      [| | | | | split; [reflexivity |];
                apply stillBoss_specialKept, stillBoss_on_entity,
                  still_setTarget].
    - split; [reflexivity |].
      apply (specialKept_bossCall (BossTakeDamage amount source) _ eq_refl Hs).
    - destruct (update_during_special dt now t attackName Hs Hn Hne)
        as [Ho Hk].
      split; [exact Ho | apply stillBoss_specialKept, Hk].
    - split; [reflexivity |].
      apply (specialKept_bossCall (BossStun d) _ eq_refl Hs).
    - split; [reflexivity |].
      apply (specialKept_bossCall BossDie _ eq_refl Hs).
    - split; [reflexivity |].
      apply (specialKept_bossCall (BossPerformSpecialAttack name) _ eq_refl
               Hs). }
  destruct Hstep as (Ho & K1 & K2 & _).
  destruct (IH (trainerCall c t)) as (A & B & C);
    [rewrite K1; exact Hs | rewrite K2; exact Hn | exact Hne |].
  split; [rewrite A; exact Ho |]. split; assumption.
Qed.

End TrainerSpecial.

(** X27 on the trainer in [enrage_burst], hit and ticked twice. *)
Lemma trainer_freezes_in_a_special_attack_that_is_not_the_flashbang_witness :
  TrainerShape.own
    (TrainerShape.trainerRun (rt := taxicab)
       [TrainerShape.TrainerUpdate (1/60) 0;
        TrainerShape.TrainerTakeDamage 100 None;
        TrainerShape.TrainerUpdate (1/60) 16]
       TrainerSamples.burstingTrainer)
  = TrainerShape.own TrainerSamples.burstingTrainer.
Proof.
  apply (proj2 (trainer_freezes_in_a_special_attack_that_is_not_the_flashbang
                  (rt := taxicab) TrainerSamples.burstingTrainer
                  "enrage_burst"
                  [TrainerShape.TrainerUpdate (1/60) 0;
                   TrainerShape.TrainerTakeDamage 100 None;
                   TrainerShape.TrainerUpdate (1/60) 16])
           eq_refl eq_refl ltac:(discriminate)).
Defined.

(** ** The trainer: the damage of a shot *)

Section TrainerShot.

Import BossShape TrainerShape.

Context {rt : Runtime}.











End TrainerShot.


(** ** Where an entity can go *)

Section Movement.

Import EntityShape.

Context {rt : Runtime}.

Lemma unmoved_refl e : unmoved e e.
Proof. split; reflexivity. Qed.

Lemma unmoved_trans e1 e2 e3 : unmoved e1 e2 -> unmoved e2 e3 -> unmoved e1 e3.
Proof. intros [A1 A2] [B1 B2]. split; congruence. Qed.

Lemma setState_mesh s e : mesh (setState s e) = mesh e.
Proof. through_setState. Qed.

Lemma unmoved_setState s e : unmoved e (setState s e).
Proof. split; [apply setState_mesh | apply setState_position]. Qed.

Lemma unmoved_moveToward p speed dt e : unmoved e (moveToward p speed dt e).
Proof. unfold moveToward. destruct (gtb _ _); split; reflexivity. Qed.

Lemma unmoved_onPatrol e : unmoved e (onPatrol e).
Proof.
  unfold onPatrol.
  eapply unmoved_trans; [apply (unmoved_setState PATROL) |].
  generalize (setState PATROL e) as e1. intros e1.
  destruct (patrolPoints e1); [apply unmoved_setState |].
  destruct (gtb (patrolWaitTime e1) 0); [split; reflexivity |].
  destruct (patrolPointAt e1); [| apply unmoved_refl].
  destruct (ltb _ 1); [| apply unmoved_moveToward].
  cbn.
  repeat match goal with
         | |- context [if ?c then _ else _] => destruct c
         end; split; reflexivity.
Qed.

Lemma unmoved_updatePerception dt now e : unmoved e (updatePerception dt now e).
Proof.
  unfold updatePerception.
  destruct (target e); [| split; reflexivity].
  destruct (negb (isAlive e)); [split; reflexivity |].
  cbn.
  match goal with |- context [if ?c then _ else _] => destruct c end;
    split; reflexivity.
Qed.

Lemma unmoved_updateStun dt e : unmoved e (updateStun dt e).
Proof.
  unfold updateStun. cbn. destruct (leb _ 0); [| split; reflexivity].
  eapply unmoved_trans; [| apply unmoved_setState]. split; reflexivity.
Qed.

Lemma unmoved_stun d e : unmoved e (stun d e).
Proof.
  unfold stun, stop. cbv zeta.
  eapply unmoved_trans with (e2 := set_stunTime d (set_isStunned true e));
    [split; reflexivity |].
  eapply unmoved_trans; [apply (unmoved_setState STUNNED) |].
  split; reflexivity.
Qed.

Lemma unmoved_die e : unmoved e (die e).
Proof.
  unfold die, stop, fire. cbv zeta.
  eapply unmoved_trans with (e2 := set_health 0 (set_isAlive false e));
    [split; reflexivity |].
  eapply unmoved_trans; [apply (unmoved_setState DEAD) |].
  split; reflexivity.
Qed.

Lemma unmoved_struck amount source e : unmoved e (struck amount source e).
Proof. unfold struck. destruct (gtb _ 0); split; reflexivity. Qed.

Lemma grounded_refl e : grounded e e.
Proof. split; [reflexivity | intros H; split; [exact H | reflexivity]]. Qed.

Lemma grounded_trans e1 e2 e3 :
  grounded e1 e2 -> grounded e2 e3 -> grounded e1 e3.
Proof.
  intros [A1 A2] [B1 B2]. split; [congruence |].
  intros H. destruct (A2 H) as [M2 P2]. destruct (B2 M2) as [M3 P3].
  split; [exact M3 | congruence].
Qed.

Lemma grounded_unmoved e e' : unmoved e e' -> grounded e e'.
Proof.
  intros [Hm Hp]. split; [rewrite Hp; reflexivity |].
  intros H. split; [rewrite Hm; exact H | exact Hp].
Qed.

Lemma grounded_applyMovement dt e : grounded e (applyMovement dt e).
Proof.
  unfold applyMovement. destruct (mesh e) eqn:E; [| apply grounded_refl].
  split; [reflexivity |]. intros H. congruence.
Qed.

(** X29.  Where an entity can go.  No call changes the height of an
    entity, and an entity without a mesh never moves at all: after any
    sequence of [takeDamage], [update], [stun] and [die] calls the y
    coordinate of the position is what it was, and if no mesh was
    attached the whole position is.  With a mesh, [applyMovement] moves
    the position by velocity times the frame time along x and z. *)
Theorem entity_keeps_its_height_and_stays_put_without_a_mesh :
  forall (cs : list EntityCall) (e : AICharacter),
    v_y (position (run cs e)) = v_y (position e)
    /\ (mesh e = None ->
        mesh (run cs e) = None /\ position (run cs e) = position e)
    /\ forall dt r,
         mesh e = Some r ->
         position (applyMovement dt e)
         = vec3 (v_x (position e) + v_x (velocity e) * dt)
                (v_y (position e))
                (v_z (position e) + v_z (velocity e) * dt).
Proof.
  intros cs e.
  assert (H : grounded e (run cs e)).
  { apply run_closure.
    - apply grounded_refl.
    - apply grounded_trans.
    - intros; apply grounded_unmoved, unmoved_setState.
    - intros; apply grounded_unmoved, unmoved_moveToward.
    - intros; apply grounded_unmoved, unmoved_onPatrol.
    - intros; apply grounded_unmoved, unmoved_updatePerception.
    - apply grounded_applyMovement.
    - intros; apply grounded_unmoved, unmoved_updateStun.
    - intros; apply grounded_unmoved, unmoved_stun.
    - intros; apply grounded_unmoved, unmoved_die.
    - intros; apply grounded_unmoved, unmoved_struck.
    - intros c e0. apply grounded_unmoved. split; reflexivity. }
  destruct H as [H1 H2]. split; [exact H1 |]. split; [exact H2 |].
  intros dt r Hm. unfold applyMovement. rewrite Hm. reflexivity.
Qed.

End Movement.

(** X29 on a fresh entity, which has no mesh, given a target and
    ticked. *)
Lemma entity_keeps_its_height_and_stays_put_without_a_mesh_witness :
  position
    (run (rt := taxicab) [Update (1/60) 0; Update (1/60) 16]
       (setTarget
          (Some {| obj_name := "player"; obj_position := vec3 0 0 30 |}) 0
          (AI.new (rt := taxicab) "e1" "entity" (plainConfig GRUNT 100 0))))
  = position
      (setTarget
         (Some {| obj_name := "player"; obj_position := vec3 0 0 30 |}) 0
         (AI.new (rt := taxicab) "e1" "entity" (plainConfig GRUNT 100 0))).
Proof.
  apply (proj1 (proj2
           (entity_keeps_its_height_and_stays_put_without_a_mesh
              (rt := taxicab) [Update (1/60) 0; Update (1/60) 16]
              (setTarget
                 (Some {| obj_name := "player";
                          obj_position := vec3 0 0 30 |}) 0
                 (AI.new (rt := taxicab) "e1" "entity"
                    (plainConfig GRUNT 100 0)))))).
  reflexivity.
Defined.
